(** * platipy.imaging.registration.registration: a shallow embedding

    The module orchestrates calls into the SimpleITK image library.  The
    embedding keeps what the Python code itself decides (argument dispatch,
    grid arithmetic, the order of library calls, the errors it raises) and
    records every library call that does image work in an event log.

    Conventions.
    - A Python [int] is a [Z].  A Python or numpy [float] is given by its
      exact value, a rational [Q].  Where the code only passes numbers on or
      orders its library calls, its arithmetic is done on these values
      without rounding; the module [Binary64] does the arithmetic of grid
      sizes, spacings and control points in IEEE binary64, as the
      interpreter and numpy do, and is the one to read for the numbers the
      code computes.
    - A library object (image, transform) is a term that records how it was
      obtained; voxel values are not computed.
    - A function that can raise returns in the monad [M], which threads the
      event log and stops at the first exception. *)

From Stdlib Require Import ZArith QArith Qround Qabs Qpower List String Ascii Bool.
From Stdlib Require Import Lia Lqa.
Import ListNotations.

Local Open Scope Z_scope.

(** ** Python and numpy arithmetic *)

Module Py.

(** Exceptions the module raises or lets through. *)
Inductive exn : Type :=
| ValueError (msg : string)
| ZeroDivisionError
| IndexError
| AttributeError
| RuntimeError (msg : string)
| OverflowError (msg : string).

Definition result (A : Type) : Type := (exn + A)%type.

(** [int(x)] on a float: truncation toward zero.  numpy's [astype(int)] on a
    finite value does the same. *)
Definition int_of_float (x : Q) : Z := Z.quot (Qnum x) (Zpos (Qden x)).

(** [a / b] on Python floats: raises on a zero divisor. *)
Definition truediv (a b : Q) : result Q :=
  if Qeq_bool b 0 then inl ZeroDivisionError else inr (a / b)%Q.

(** [a / b] on numpy arrays, one entry: a zero divisor yields inf or nan and
    only a warning; [None] stands for such a non-finite entry. *)
Definition np_truediv (a b : Q) : option Q :=
  if Qeq_bool b 0 then None else Some (a / b)%Q.

(** numpy broadcasting of two one-dimensional shapes. *)
Fixpoint zip_with {A B C} (f : A -> B -> C) (l : list A) (m : list B) : list C :=
  match l, m with
  | a :: l', b :: m' => f a b :: zip_with f l' m'
  | _, _ => []
  end.

Definition broadcast {A B C} (f : A -> B -> C) (l : list A) (m : list B)
  : result (list C) :=
  if (List.length l =? List.length m)%nat then inr (zip_with f l m)
  else match l, m with
       | _, [b] => inr (map (fun a => f a b) l)
       | [a], _ => inr (map (fun b => f a b) m)
       | _, _ => inl (ValueError "operands could not be broadcast together")
       end.

(** [max(l)] on a list of floats. *)
Definition max (l : list Q) : result Q :=
  match l with
  | [] => inl (ValueError "max() arg is an empty sequence")
  | x :: r => inr (fold_left (fun m y => if Qlt_le_dec m y then y else m) r x)
  end.

Fixpoint mapR {A B} (f : A -> result B) (l : list A) : result (list B) :=
  match l with
  | [] => inr []
  | a :: l' =>
      match f a with
      | inl e => inl e
      | inr b => match mapR f l' with
                 | inl e => inl e
                 | inr bs => inr (b :: bs)
                 end
      end
  end.

End Py.

(** Rounding to the nearest integer, halves upward: the reading of the
    specification's [round] that the code's [int(x + 0.5)] is compared with. *)
Definition round_half_up (x : Q) : Z := Qfloor (x + (1 # 2))%Q.

(** ** Images *)

(** A scalar argument or a per-axis list ([isinstance(_, list)]). *)
Inductive per_axis : Type :=
| Scalar (x : Q)
| PerAxis (l : list Q).

(** The grid of an image: what [GetSize], [GetSpacing], [GetOrigin] and
    [GetDirection] return. *)
Record Grid : Type := mkGrid {
  size : list Z;
  spacing : list Q;
  origin : list Q;
  direction : list Q
}.

(** ** The library's objects

    Enumeration values of SimpleITK.  The interpolator codes are the ones the
    docstring of [fast_symmetric_forces_demons_registration] lists. *)
Module sitk.
Definition sitkNearestNeighbor : Z := 1.
Definition sitkLinear : Z := 2.
Definition sitkBSpline : Z := 3.
Definition sitkUInt8 : Z := 1.
Definition sitkFloat32 : Z := 8.
Definition sitkFloat64 : Z := 9.
Definition sitkVectorFloat64 : Z := 21.
(** [CenteredTransformInitializerFilter.OperationModeType]. *)
Definition GEOMETRY : Z := 0.
Definition MOMENTS : Z := 1.
(** [ImageRegistrationMethod.MetricSamplingStrategyType]. *)
Definition NONE : Z := 0.
Definition REGULAR : Z := 1.
Definition RANDOM : Z := 2.
End sitk.

(** A Python [bool] passed where the library expects an [int]. *)
Definition int_of_bool (b : bool) : Z := if b then 1 else 0.

Inductive Metric : Type :=
| Correlation
| MeanSquares
| MattesMutualInformation
| JointHistogramMutualInformation
| ANTSNeighborhoodCorrelation (radius : Z).

Inductive Optimizer : Type :=
| LBFGSB (gradientConvergenceTolerance : Q) (numberOfIterations : Z)
         (maximumNumberOfCorrections maximumNumberOfFunctionEvaluations : Z)
         (costFunctionConvergenceFactor : Q) (trace : bool)
| Exhaustive (samples : list Z)
| GradientDescentLineSearch (learningRate : Q) (numberOfIterations : Z)
| GradientDescent (learningRate : Q) (numberOfIterations : Z).

(** The settings of an [ImageRegistrationMethod] object.  A field left at
    [None] was never set by the caller: the library's default applies. *)
Record RegistrationMethod (I T : Type) : Type := mkRegistrationMethod {
  ShrinkFactorsPerLevel : list Z;
  SmoothingSigmasPerLevel : list Q;
  SmoothingSigmasAreSpecifiedInPhysicalUnits : option bool;
  MovingInitialTransform : option T;
  MetricType : option Metric;
  Interpolator : option Z;
  MetricSamplingPercentage : option Q;
  MetricSamplingStrategy : option Z;
  OptimizerScalesFromPhysicalShift : bool;
  MetricMovingMask : option I;
  MetricFixedMask : option I;
  InitialTransform : option T;
  OptimizerType : option Optimizer;
  IterationCommand : bool
}.
Arguments mkRegistrationMethod {I T}.
Arguments ShrinkFactorsPerLevel {I T}.
Arguments SmoothingSigmasPerLevel {I T}.
Arguments SmoothingSigmasAreSpecifiedInPhysicalUnits {I T}.
Arguments MovingInitialTransform {I T}.
Arguments MetricType {I T}.
Arguments Interpolator {I T}.
Arguments MetricSamplingPercentage {I T}.
Arguments MetricSamplingStrategy {I T}.
Arguments OptimizerScalesFromPhysicalShift {I T}.
Arguments MetricMovingMask {I T}.
Arguments MetricFixedMask {I T}.
Arguments InitialTransform {I T}.
Arguments OptimizerType {I T}.
Arguments IterationCommand {I T}.

(** The settings of a [FastSymmetricForcesDemonsRegistrationFilter]. *)
Record DemonsFilter : Type := mkDemonsFilter {
  NumberOfThreads : option Z;
  SmoothUpdateField : option bool;
  SmoothDisplacementField : option bool;
  StandardDeviations : option Q;
  NumberOfIterations : option Z;
  DemonsIterationCommand : bool
}.

(** Images and transforms, as terms over the library calls that made them. *)
#[local] Set Warnings "-register-all".
Inductive Image : Type :=
| mkImage (grid : Grid) (pixel_id : Z) (voxels : Voxels)
with Voxels : Type :=
| Stored (name : string)
| Zeros
| CastOf (src : Image)
| DiscreteGaussianOf (src : Image) (variance : Q) (maximumKernelWidth : Z)
| ResampleOf (src : Image) (transform : Transform) (interpolator : Z)
             (defaultPixelValue : Q)
| BinaryThresholdOf (src : Image) (lowerThreshold upperThreshold : Q)
| TransformToDisplacementFieldOf (transform : Transform)
| DemonsOf (filter : DemonsFilter) (fixed moving field : Image)
with Transform : Type :=
| IdentityTransform
| TranslationTransform (dimension : Z)
| Euler3DTransform
| VersorRigid3DTransform
| Similarity3DTransform
| AffineTransform (dimension : Z)
| ScaleVersor3DTransform
| ScaleSkewVersor3DTransform
| CenteredTransformInitializerOf (fixed moving : Image) (transform : Transform)
                                 (operationMode : Z)
| RegistrationOf (method : RegistrationMethod Image Transform) (fixed moving : Image)
| CompositeTransform (transforms : list Transform)
| DisplacementFieldTransform (field : Image).

Definition GetGrid (i : Image) : Grid := let (g, _, _) := i in g.
Definition GetPixelID (i : Image) : Z := let (_, p, _) := i in p.
Definition GetVoxels (i : Image) : Voxels := let (_, _, v) := i in v.
Definition GetSize (i : Image) : list Z := (GetGrid i).(size).
Definition GetSpacing (i : Image) : list Q := (GetGrid i).(spacing).
Definition GetOrigin (i : Image) : list Q := (GetGrid i).(origin).
Definition GetDirection (i : Image) : list Q := (GetGrid i).(direction).
Definition GetPixelIDValue (i : Image) : Z := GetPixelID i.

(** ** Effects: the log of library calls, and exceptions *)

Inductive Event : Type :=
| MadeImage (out : Image)
| MadeTransform (out : Transform).

Definition M (A : Type) : Type := list Event -> Py.result A * list Event.

Definition ret {A} (a : A) : M A := fun log => (inr a, log).
Definition raise {A} (e : Py.exn) : M A := fun log => (inl e, log).
Definition bind {A B} (c : M A) (k : A -> M B) : M B :=
  fun log => match c log with
             | (inl e, log') => (inl e, log')
             | (inr a, log') => k a log'
             end.
Definition emit (e : Event) : M unit := fun log => (inr tt, log ++ [e]).
Definition lift {A} (r : Py.result A) : M A := fun log => (r, log).

Notation "x <- c ;; k" := (bind c (fun x => k))
  (at level 61, c at next level, right associativity).
Notation "c ;;; k" := (bind c (fun _ => k))
  (at level 61, right associativity).

Fixpoint mapM {A B} (f : A -> M B) (l : list A) : M (list B) :=
  match l with
  | [] => ret []
  | a :: l' => b <- f a ;; bs <- mapM f l' ;; ret (b :: bs)
  end.

(** ** Library calls

    Each call that computes an image or a transform is logged with its
    result.  The library's own validation of its arguments is not modelled
    in the calls: a call returns the object the library documents for
    well-formed arguments.  The two refusals that matter to the statements
    below are marked in the log by [refused], further down. *)

Definition made_image (out : Image) : M Image :=
  emit (MadeImage out) ;;; ret out.

Definition made_transform (out : Transform) : M Transform :=
  emit (MadeTransform out) ;;; ret out.

Definition Cast (image : Image) (pixelID : Z) : M Image :=
  made_image (mkImage (GetGrid image) pixelID (CastOf image)).

Definition DiscreteGaussian (image : Image) (variance : Q) (maximumKernelWidth : Z)
  : M Image :=
  made_image (mkImage (GetGrid image) (GetPixelID image)
                      (DiscreteGaussianOf image variance maximumKernelWidth)).

(** [sitk.Resample(image, size, transform, interpolator, origin, spacing,
    direction, defaultPixelValue, outputPixelType)]. *)
Definition Resample (image : Image) (new_size : list Z) (transform : Transform)
  (interpolator : Z) (outputOrigin outputSpacing outputDirection : list Q)
  (defaultPixelValue : Q) (outputPixelType : Z) : M Image :=
  made_image (mkImage (mkGrid new_size outputSpacing outputOrigin outputDirection)
                      outputPixelType
                      (ResampleOf image transform interpolator defaultPixelValue)).

(** [sitk.Resample(image, referenceImage, transform)]: linear interpolation,
    default value 0, the input's pixel type. *)
Definition ResampleTo (image referenceImage : Image) (transform : Transform) : M Image :=
  made_image (mkImage (GetGrid referenceImage) (GetPixelID image)
                      (ResampleOf image transform sitk.sitkLinear 0)).

Definition BinaryThreshold (image : Image) (lowerThreshold upperThreshold : Q) : M Image :=
  made_image (mkImage (GetGrid image) sitk.sitkUInt8
                      (BinaryThresholdOf image lowerThreshold upperThreshold)).

Definition TransformToDisplacementField (transform : Transform) (outputPixelType : Z)
  (sz : list Z) (outputOrigin outputSpacing outputDirection : list Q) : M Image :=
  made_image (mkImage (mkGrid sz outputSpacing outputOrigin outputDirection)
                      outputPixelType (TransformToDisplacementFieldOf transform)).

Definition CenteredTransformInitializer (fixedImage movingImage : Image)
  (transform : Transform) (operationMode : Z) : M Transform :=
  made_transform (CenteredTransformInitializerOf fixedImage movingImage transform
                                                 operationMode).

(** [image.CopyInformation(source)]: origin, spacing and direction are taken
    from [source]; the library refuses images of different size. *)
Definition CopyInformation (image source : Image) : M Image :=
  if list_eq_dec Z.eq_dec (GetSize image) (GetSize source)
  then ret (mkImage (GetGrid source) (GetPixelID image) (GetVoxels image))
  else raise (Py.RuntimeError "Source image size does not match this image's").

(** A [ResampleImageFilter] object and its setters. *)
Record ResampleImageFilter : Type := mkResampleImageFilter {
  ReferenceGrid : Grid;
  ResampleTransform : Transform;
  ResampleInterpolator : Z;
  DefaultPixelValue : Q
}.

Definition new_ResampleImageFilter : ResampleImageFilter :=
  mkResampleImageFilter (mkGrid [] [] [] []) IdentityTransform sitk.sitkLinear 0.

Definition SetReferenceImage (r : ResampleImageFilter) (image : Image) :=
  mkResampleImageFilter (GetGrid image) r.(ResampleTransform)
                        r.(ResampleInterpolator) r.(DefaultPixelValue).
Definition SetTransform (r : ResampleImageFilter) (t : Transform) :=
  mkResampleImageFilter r.(ReferenceGrid) t r.(ResampleInterpolator)
                        r.(DefaultPixelValue).
Definition SetInterpolator (r : ResampleImageFilter) (interp : Z) :=
  mkResampleImageFilter r.(ReferenceGrid) r.(ResampleTransform) interp
                        r.(DefaultPixelValue).
Definition SetDefaultPixelValue (r : ResampleImageFilter) (v : Q) :=
  mkResampleImageFilter r.(ReferenceGrid) r.(ResampleTransform)
                        r.(ResampleInterpolator) v.

Definition Resample_Execute (r : ResampleImageFilter) (image : Image) : M Image :=
  made_image (mkImage r.(ReferenceGrid) (GetPixelID image)
                      (ResampleOf image r.(ResampleTransform)
                                  r.(ResampleInterpolator) r.(DefaultPixelValue))).

(** Which logged calls are resamplings, registrations, demons runs. *)
Definition is_resampling (e : Event) : bool :=
  match e with
  | MadeImage (mkImage _ _ (ResampleOf _ _ _ _)) => true
  | _ => false
  end.

Definition is_registration (e : Event) : bool :=
  match e with
  | MadeTransform (RegistrationOf _ _ _) => true
  | _ => false
  end.

(** ** transform_propagation and apply_field *)

Definition transform_propagation (fixed_image moving_image : Image)
  (transform : Transform) (structure : bool) (default_value : Q) (interp : Z)
  : M Image :=
  let resampler := new_ResampleImageFilter in
  let resampler := SetReferenceImage resampler fixed_image in
  let resampler := SetTransform resampler transform in
  (if structure && negb (interp =? sitk.sitkNearestNeighbor)
   then raise (Py.ValueError "Structure interpolation should be nearest neighbour.")
   else ret tt) ;;;
  let resampler := SetDefaultPixelValue resampler default_value in
  let resampler := SetInterpolator resampler interp in
  output_image <- Resample_Execute resampler moving_image ;;
  output_image <- Cast output_image (GetPixelID moving_image) ;;
  ret output_image.

Definition apply_field (input_image : Image) (transform : Transform)
  (structure : bool) (default_value : Q) (interp : Z) : M Image :=
  let input_image_type := GetPixelIDValue input_image in
  let resampler := new_ResampleImageFilter in
  let resampler := SetReferenceImage resampler input_image in
  (if structure && negb (interp =? sitk.sitkNearestNeighbor)
   then raise (Py.ValueError "Structure interpolation should be nearest neighbour.")
   else ret tt) ;;;
  let resampler := SetInterpolator resampler interp in
  let resampler := SetDefaultPixelValue resampler default_value in
  let resampler := SetTransform resampler transform in
  casted <- Cast input_image sitk.sitkFloat32 ;;
  resampled_image <- Resample_Execute resampler casted ;;
  Cast resampled_image input_image_type.

(** ** Binary64 arithmetic

    The grid arithmetic of [smooth_and_resample] and of
    [control_point_spacing_distance_to_number] as the interpreter and numpy
    carry it out: every operation on floats is rounded to the nearest
    double, ties to even.  A number handed to these functions is read as the
    double nearest to it, as a literal is; the sign of a zero is not
    modelled. *)
Module Binary64.

(** A double: a finite value, an infinity or a nan. *)
Inductive float : Type :=
| Finite (q : Q)
| Infinity (negative : bool)
| NaN.

Definition pow2 (e : Z) : Q := (2 ^ e)%Q.

(** For a positive [a], the exponent [e] with [2^e <= a < 2^(e+1)]. *)
Definition floor_log2 (a : Q) : Z :=
  let e := Z.log2 (Qnum a) - Z.log2 (Zpos (Qden a)) in
  if Qle_bool (pow2 e) a then e else e - 1.

(** The nearest integer, a half going to the even neighbour. *)
Definition round_half_even (m : Q) : Z :=
  let f := Qfloor m in
  match (m - inject_Z f ?= 1 # 2)%Q with
  | Lt => f
  | Gt => f + 1
  | Eq => if Z.even f then f else f + 1
  end.

(** The gap between the doubles around a positive [a]: 53 significant bits,
    and [2^-1074] below the smallest normal number [2^-1022]. *)
Definition ulp (a : Q) : Q := pow2 (Z.max (floor_log2 a) (-1022) - 52).

(** The multiple of [ulp a] nearest to a positive [a]. *)
Definition nearest (a : Q) : Q :=
  Qred (inject_Z (round_half_even (a / ulp a)) * ulp a).

(** Rounding to the nearest double; a result of magnitude [2^1024] or more
    is an infinity. *)
Definition round64 (x : Q) : float :=
  match (Qred x ?= 0)%Q with
  | Eq => Finite 0
  | Gt => let r := nearest (Qred x) in
          if Qle_bool (pow2 1024) r then Infinity false else Finite r
  | Lt => let r := nearest (Qred (- x)) in
          if Qle_bool (pow2 1024) r then Infinity true else Finite (- r)
  end.

Definition negative (q : Q) : bool := Qnum q <? 0.

Definition is_zero (x : float) : bool :=
  match x with
  | Finite q => Qeq_bool q 0
  | _ => false
  end.

(** [x + y], [x * y] and [x / y] of IEEE 754, which are numpy's. *)
Definition add (x y : float) : float :=
  match x, y with
  | NaN, _ | _, NaN => NaN
  | Infinity s, Infinity t => if Bool.eqb s t then Infinity s else NaN
  | Infinity s, Finite _ | Finite _, Infinity s => Infinity s
  | Finite a, Finite b => round64 (a + b)
  end.

Definition mul (x y : float) : float :=
  match x, y with
  | NaN, _ | _, NaN => NaN
  | Infinity s, Infinity t => Infinity (xorb s t)
  | Infinity s, Finite b | Finite b, Infinity s =>
      if Qeq_bool b 0 then NaN else Infinity (xorb s (negative b))
  | Finite a, Finite b => round64 (a * b)
  end.

Definition div (x y : float) : float :=
  match x, y with
  | NaN, _ | _, NaN => NaN
  | Infinity _, Infinity _ => NaN
  | Infinity s, Finite b => Infinity (xorb s (negative b))
  | Finite _, Infinity _ => Finite 0
  | Finite a, Finite b =>
      if Qeq_bool b 0
      then if Qeq_bool a 0 then NaN else Infinity (negative a)
      else round64 (a / b)
  end.

(** [x > y]: false when either is a nan. *)
Definition gt (x y : float) : bool :=
  match x, y with
  | NaN, _ | _, NaN => false
  | Infinity s, Infinity t => negb s && t
  | Infinity s, Finite _ => negb s
  | Finite _, Infinity t => t
  | Finite a, Finite b => negb (Qle_bool a b)
  end.

(** Python: [x / y] raises on a zero divisor; an [int] operand of a float
    operation is converted first, which fails for one too large; [int(x)]
    truncates and refuses an infinity or a nan; [max] keeps the first of its
    largest items. *)
Definition truediv (x y : float) : Py.result float :=
  if is_zero y then inl Py.ZeroDivisionError else inr (div x y).

Definition float_of_int (z : Z) : Py.result float :=
  match round64 (inject_Z z) with
  | Infinity _ => inl (Py.OverflowError "int too large to convert to float")
  | x => inr x
  end.

Definition int (x : float) : Py.result Z :=
  match x with
  | Finite q => inr (Py.int_of_float q)
  | Infinity _ => inl (Py.OverflowError "cannot convert float infinity to integer")
  | NaN => inl (Py.ValueError "cannot convert float NaN to integer")
  end.

Definition max (l : list float) : Py.result float :=
  match l with
  | [] => inl (Py.ValueError "max() arg is an empty sequence")
  | x :: r => inr (fold_left (fun m y => if gt y m then y else m) r x)
  end.

(** numpy: an [int64] entry becomes the nearest double in a float
    operation; [astype(int)] truncates, and the value it leaves for an
    entry that is not finite or does not fit 64 bits is not defined
    ([None]). *)
Definition float_of_int64 (z : Z) : float := round64 (inject_Z z).

Definition astype_int (x : float) : option Z :=
  match x with
  | Finite q =>
      let z := Py.int_of_float q in
      if (- 2 ^ 63 <=? z) && (z <? 2 ^ 63) then Some z else None
  | _ => None
  end.

(** ** control_point_spacing_distance_to_number *)

(** [image_size * image_spacing / np.array(grid_spacing)], then
    [(number_points + 0.5).astype(int)].  The image's size and spacing tuples
    have one entry per axis. *)
Definition number_points (image : Image) (grid_spacing : per_axis)
  : Py.result (list float) :=
  let image_spacing := map round64 (GetSpacing image) in
  let image_size := map float_of_int64 (GetSize image) in
  let prod := Py.zip_with mul image_size image_spacing in
  match grid_spacing with
  | Scalar d => inr (map (fun p => div p (round64 d)) prod)
  | PerAxis ds => Py.broadcast div prod (map round64 ds)
  end.

Definition control_point_spacing_distance_to_number (image : Image)
  (grid_spacing : per_axis) : Py.result (list (option Z)) :=
  match number_points image grid_spacing with
  | inl e => inl e
  | inr pts => inr (map (fun p => astype_int (add p (Finite (1 # 2)))) pts)
  end.

(** ** smooth_and_resample: the grid it asks for *)

(** [int(sz / float(sf) + 0.5)]. *)
Definition new_size_entry (sz : Z) (sf : float) : Py.result Z :=
  match float_of_int sz with
  | inl e => inl e
  | inr x =>
      match truediv x sf with
      | inl e => inl e
      | inr q => int (add q (Finite (1 # 2)))
      end
  end.

(** [shrink_factor * np.ones_like(image.GetSize()) / np.array(image.GetSpacing())]. *)
Definition scale_factor (shrink_factor : per_axis) (original_size : list Z)
  (original_spacing : list Q) : Py.result (list float) :=
  let ones := map (fun _ => Finite 1) original_size in
  match (match shrink_factor with
         | Scalar s => inr (map (mul (round64 s)) ones)
         | PerAxis l => Py.broadcast mul (map round64 l) ones
         end) with
  | inl e => inl e
  | inr num => Py.broadcast div num (map round64 original_spacing)
  end.

Definition new_size (isotropic_resample : bool) (shrink_factor : per_axis)
  (original_size : list Z) (original_spacing : list Q) : Py.result (list Z) :=
  if isotropic_resample then
    match scale_factor shrink_factor original_size original_spacing with
    | inl e => inl e
    | inr sfs =>
        Py.mapR (fun p : Z * float => new_size_entry (fst p) (snd p))
                (combine original_size sfs)
    end
  else
    match shrink_factor with
    | PerAxis l =>
        Py.mapR (fun p : Z * Q => new_size_entry (fst p) (round64 (snd p)))
                (combine original_size l)
    | Scalar f => Py.mapR (fun sz => new_size_entry sz (round64 f)) original_size
    end.

(** [((original_sz - 1) * original_spc) / (new_sz - 1)]. *)
Definition new_spacing_entry (original_sz : Z) (original_spc : Q) (new_sz : Z)
  : Py.result float :=
  match float_of_int (original_sz - 1) with
  | inl e => inl e
  | inr a =>
      match float_of_int (new_sz - 1) with
      | inl e => inl e
      | inr b => truediv (mul a (round64 original_spc)) b
      end
  end.

Definition new_spacing (original_size : list Z) (original_spacing : list Q)
  (new_sz : list Z) : Py.result (list float) :=
  Py.mapR (fun p : Z * Q * Z =>
             let '(original_sz, original_spc, nsz) := p in
             new_spacing_entry original_sz original_spc nsz)
          (combine (combine original_size original_spacing) new_sz).

(** The arguments of the [sitk.Resample] call the function ends with: the
    image it returns is the library's answer to this request. *)
Record Request : Type := mkRequest {
  image1 : Image;
  requested_size : list Z;
  transform : Transform;
  interpolator : Z;
  outputOrigin : list Q;
  outputSpacing : list float;
  outputDirection : list Q;
  defaultPixelValue : Q;
  outputPixelType : Z
}.

Section Smoothing.

(** [x ** 2] on a positive finite float: the C library's [pow], of which
    correct rounding is not assumed; it raises [OverflowError] when the
    result is out of range. *)
Variable square : Q -> Py.result Q.

Definition smoothed (image : Image) (smoothing_sigma : Q) : Py.result Image :=
  let sigma := round64 smoothing_sigma in
  if gt sigma (Finite 0) then
    match max (map (fun i => mul (mul (Finite 8) sigma) (round64 i))
                   (GetSpacing image)) with
    | inl e => inl e
    | inr w =>
        match int w with
        | inl e => inl e
        | inr maximum_kernel_width =>
            match sigma with
            | Finite s =>
                match square s with
                | inl e => inl e
                | inr variance =>
                    inr (mkImage (GetGrid image) (GetPixelID image)
                                 (DiscreteGaussianOf image variance
                                                     maximum_kernel_width))
                end
            | _ =>
                (* not reached: with an infinite sigma [int] has raised *)
                inl (Py.OverflowError "cannot convert float infinity to integer")
            end
        end
    end
  else inr image.

Definition smooth_and_resample (image : Image) (shrink_factor : per_axis)
  (smoothing_sigma : Q) (isotropic_resample : bool) (resampler : Z)
  : Py.result Request :=
  match smoothed image smoothing_sigma with
  | inl e => inl e
  | inr smoothed_image =>
      let original_spacing := GetSpacing image in
      let original_size := GetSize image in
      match new_size isotropic_resample shrink_factor original_size
                     original_spacing with
      | inl e => inl e
      | inr nsz =>
          match new_spacing original_size original_spacing nsz with
          | inl e => inl e
          | inr nsp =>
              inr (mkRequest smoothed_image nsz IdentityTransform resampler
                             (GetOrigin image) nsp (GetDirection image) 0
                             (GetPixelID image))
          end
      end
  end.

End Smoothing.

(** A non-negative double: at most 53 significant bits [m] at an exponent
    [j]. *)
Definition representable (r : Q) : Prop :=
  exists m j : Z,
    (r == inject_Z m * pow2 j)%Q /\ 0 <= m < 2 ^ 53 /\ - 1074 <= j /\ (r < pow2 1024)%Q.

(** [q] is the value of a double. *)
Definition is_double (q : Q) : bool :=
  match round64 q with
  | Finite r => Qeq_bool r q
  | _ => false
  end.

(** A quotient of two integers small enough for the integer part of
    [q + 0.5] to survive the rounding of [q] and of the sum. *)
Definition small_ratio (q : Q) : Prop :=
  2 * Qnum (Qred q) + 3 * Zpos (Qden (Qred q)) <= 2 ^ 52.

(** [v] is [exact] up to the rounding of two operations. *)
Definition two_roundings (v exact : Q) : Prop :=
  (Qabs (v - exact) <= exact * pow2 (- 51))%Q.

(** An axis of [sz] voxels and a shrink factor [f] on which
    [int(sz / float(f) + 0.5)] is the rounded quotient and leaves at least
    two voxels; a spacing that is a double away from the ends of the range
    of doubles. *)
Definition regular_factor (sz : Z) (f : Q) : Prop :=
  2 <= sz < 2 ^ 53
  /\ (0 < f)%Q /\ is_double f = true
  /\ small_ratio (inject_Z sz / f)
  /\ 2 <= round_half_up (inject_Z sz / f).

Definition regular_spacing (sp : Q) : Prop :=
  is_double sp = true /\ (pow2 (- 900) <= sp <= pow2 900)%Q.

(** The specification's spacing on one axis, and what the code's double
    [out] has to do with it. *)
Definition exact_spacing (sz : Z) (sp : Q) (nsz : Z) : Q :=
  (inject_Z (sz - 1) * sp / inject_Z (nsz - 1))%Q.

Definition rounded_spacing (out : float) (axis : Z * Q * Z) : Prop :=
  let '(sz, sp, nsz) := axis in
  exists v,
    out = Finite v
    /\ two_roundings v (exact_spacing sz sp nsz)
    /\ (is_double (inject_Z (sz - 1) * sp) = true ->
        is_double (exact_spacing sz sp nsz) = true ->
        v = Qred (exact_spacing sz sp nsz)).

(** An axis and a grid spacing [d] on which the mesh size is the rounded
    quotient: the product [sz * sp] is a double and the quotient a ratio of
    small integers. *)
Definition regular_mesh (axis : Z * Q) (d : Q) : Prop :=
  let '(sz, sp) := axis in
  0 <= sz < 2 ^ 53
  /\ (0 <= sp)%Q /\ is_double sp = true
  /\ (0 < d)%Q /\ is_double d = true
  /\ is_double (inject_Z sz * sp) = true
  /\ small_ratio (inject_Z sz * sp / d).

End Binary64.


(** ** smooth_and_resample

    The function on exact values, in the monad [M]: the version that the
    statements on the order of the library calls and on the errors raised
    are made about.  Its numbers are those of [Binary64.smooth_and_resample]
    wherever no operation is rounded. *)

(** [int(sz / float(sf) + 0.5)]. *)
Definition new_size_entry (sz : Z) (sf : Q) : Py.result Z :=
  match Py.truediv (inject_Z sz) sf with
  | inl e => inl e
  | inr q => inr (Py.int_of_float (q + (1 # 2))%Q)
  end.

(** [shrink_factor * np.ones_like(image.GetSize()) / np.array(image.GetSpacing())]. *)
Definition scale_factor (shrink_factor : per_axis) (original_size : list Z)
  (original_spacing : list Q) : Py.result (list (option Q)) :=
  let ones := map (fun _ => 1%Q) original_size in
  match (match shrink_factor with
         | Scalar s => inr (map (fun o => s * o)%Q ones)
         | PerAxis l => Py.broadcast Qmult l ones
         end) with
  | inl e => inl e
  | inr num => Py.broadcast Py.np_truediv num original_spacing
  end.

(** The two branches that compute [new_size].  A library image has no zero
    spacing, so a scale factor is always finite; the model stops if one is
    not. *)
Definition new_size (isotropic_resample : bool) (shrink_factor : per_axis)
  (original_size : list Z) (original_spacing : list Q) : Py.result (list Z) :=
  if isotropic_resample then
    match scale_factor shrink_factor original_size original_spacing with
    | inl e => inl e
    | inr sfs =>
        Py.mapR (fun p : Z * option Q =>
                   match snd p with
                   | Some sf => new_size_entry (fst p) sf
                   | None => inl (Py.RuntimeError "non-finite scale factor")
                   end)
                (combine original_size sfs)
    end
  else
    match shrink_factor with
    | PerAxis l =>
        Py.mapR (fun p : Z * Q => new_size_entry (fst p) (snd p))
                (combine original_size l)
    | Scalar f => Py.mapR (fun sz => new_size_entry sz f) original_size
    end.

(** [((original_sz - 1) * original_spc) / (new_sz - 1)] over the three
    zipped lists. *)
Definition new_spacing (original_size : list Z) (original_spacing : list Q)
  (new_sz : list Z) : Py.result (list Q) :=
  Py.mapR (fun p : Z * Q * Z =>
             let '(original_sz, original_spc, nsz) := p in
             Py.truediv (inject_Z (original_sz - 1) * original_spc)%Q
                        (inject_Z (nsz - 1)))
          (combine (combine original_size original_spacing) new_sz).

Definition smooth_and_resample (image : Image) (shrink_factor : per_axis)
  (smoothing_sigma : Q) (isotropic_resample : bool) (resampler : Z) : M Image :=
  smoothed_image <-
    (if Qlt_le_dec 0 smoothing_sigma then
       w <- lift (Py.max (map (fun i => 8 * smoothing_sigma * i)%Q (GetSpacing image))) ;;
       let maximum_kernel_width := Py.int_of_float w in
       DiscreteGaussian image (smoothing_sigma * smoothing_sigma)%Q maximum_kernel_width
     else ret image) ;;
  let original_spacing := GetSpacing image in
  let original_size := GetSize image in
  nsz <- lift (new_size isotropic_resample shrink_factor original_size original_spacing) ;;
  nsp <- lift (new_spacing original_size original_spacing nsz) ;;
  Resample smoothed_image nsz IdentityTransform resampler (GetOrigin image) nsp
           (GetDirection image) 0 (GetPixelID image).

(** ** multiscale_demons *)

Definition SetNumberOfIterations (alg : DemonsFilter) (iters : Z) : DemonsFilter :=
  mkDemonsFilter alg.(NumberOfThreads) alg.(SmoothUpdateField)
                 alg.(SmoothDisplacementField) alg.(StandardDeviations)
                 (Some iters) alg.(DemonsIterationCommand).

(** [registration_algorithm.Execute(fixed, moving, field)]: the refined
    field, on the grid of the field it was given. *)
Definition Demons_Execute (alg : DemonsFilter) (fixed_image moving_image field : Image)
  : M Image :=
  made_image (mkImage (GetGrid field) (GetPixelID field)
                      (DemonsOf alg fixed_image moving_image field)).

(** [l[-1]] and [l[i]]. *)
Definition last_item {A} (l : list A) : M A :=
  match rev l with
  | [] => raise Py.IndexError
  | x :: _ => ret x
  end.

Definition item {A} (l : list A) (i : nat) : M A :=
  match nth_error l i with
  | None => raise Py.IndexError
  | Some x => ret x
  end.

(** The image pyramid: one pair per entry of the zipped schedule, taken in
    reverse, so that the level of the first entry is last. *)
Definition build_pyramid (fixed_image moving_image : Image)
  (shrink_factors : list per_axis) (smoothing_sigmas : list Q)
  (isotropic_resample : bool) : M (list Image * list Image) :=
  levels <- mapM (fun p : per_axis * Q =>
                    f <- smooth_and_resample fixed_image (fst p) (snd p)
                                             isotropic_resample sitk.sitkLinear ;;
                    m <- smooth_and_resample moving_image (fst p) (snd p)
                                             isotropic_resample sitk.sitkLinear ;;
                    ret (f, m))
                 (rev (combine shrink_factors smoothing_sigmas)) ;;
  ret (map fst levels, map snd levels).

(** [sitk.Image(width, height[, depth], pixelID)]: zero voxels, unit spacing,
    zero origin, identity direction. *)
Definition new_Image (sz : list Z) (pixelID : Z) : Image :=
  let n := List.length sz in
  mkImage (mkGrid sz (repeat 1%Q n) (repeat 0%Q n)
                  (List.concat (map (fun i => map (fun j => if (i =? j)%nat then 1%Q else 0%Q)
                                             (seq 0 n)) (seq 0 n))))
          pixelID Zeros.

Definition GetWidth (i : Image) : Z := nth 0 (GetSize i) 0.
Definition GetHeight (i : Image) : Z := nth 1 (GetSize i) 0.
Definition GetDepth (i : Image) : Z := nth 2 (GetSize i) 0.

(** The displacement field the first level starts from. *)
Definition initial_field (initial_transform : option Transform)
  (initial_displacement_field : option Image) (moving_image : Image)
  (fixed_images : list Image) : M Image :=
  match initial_displacement_field with
  | None =>
      match initial_transform with
      | Some t =>
          c <- last_item fixed_images ;;
          TransformToDisplacementField t sitk.sitkVectorFloat64 (GetSize c)
                                       (GetOrigin c) (GetSpacing c) (GetDirection c)
      | None =>
          field <-
            (if (List.length (GetSize moving_image) =? 2)%nat then
               c <- last_item fixed_images ;;
               ret (Some (new_Image [GetWidth c; GetHeight c] sitk.sitkVectorFloat64))
             else if (List.length (GetSize moving_image) =? 3)%nat then
               c <- last_item fixed_images ;;
               ret (Some (new_Image [GetWidth c; GetHeight c; GetDepth c]
                                    sitk.sitkVectorFloat64))
             else ret None) ;;
          match field with
          | None => raise Py.AttributeError
          | Some f => c <- last_item fixed_images ;; CopyInformation f c
          end
      end
  | Some f =>
      c <- last_item fixed_images ;;
      ResampleTo f c IdentityTransform
  end.

(** The loop over the finer levels; [i] is the index [enumerate] gives. *)
Fixpoint finer_levels (alg : DemonsFilter) (levels : list (Image * Image)) (i : nat)
  (iteration_staging : list Z) (field : Image) : M Image :=
  match levels with
  | [] => ret field
  | (f_image, m_image) :: rest =>
      field <- ResampleTo field f_image IdentityTransform ;;
      iters <- item iteration_staging (i + 1) ;;
      let alg := SetNumberOfIterations alg iters in
      field <- Demons_Execute alg f_image m_image field ;;
      finer_levels alg rest (S i) iteration_staging field
  end.

(** Everything after the initial field: the first level, the finer levels,
    the copy of the final field and the transform built on it. *)
Definition run_levels (alg : DemonsFilter) (fixed_images moving_images : list Image)
  (iteration_staging : list Z) (field : Image) : M (Transform * Image) :=
  iters <- item iteration_staging 0 ;;
  let alg := SetNumberOfIterations alg iters in
  f <- last_item fixed_images ;;
  m <- last_item moving_images ;;
  field <- Demons_Execute alg f m field ;;
  field <- finer_levels alg
             (rev (combine (removelast fixed_images) (removelast moving_images)))
             0 iteration_staging field ;;
  output_displacement_field <- ResampleTo field field IdentityTransform ;;
  ret (DisplacementFieldTransform field, output_displacement_field).

Definition multiscale_demons (registration_algorithm : DemonsFilter)
  (fixed_image moving_image : Image) (initial_transform : option Transform)
  (initial_displacement_field : option Image) (shrink_factors : list per_axis)
  (smoothing_sigmas : list Q) (iteration_staging : list Z)
  (isotropic_resample : bool) : M (Transform * Image) :=
  pyramid <- build_pyramid fixed_image moving_image shrink_factors smoothing_sigmas
                           isotropic_resample ;;
  let fixed_images := fst pyramid in
  let moving_images := snd pyramid in
  field <- initial_field initial_transform initial_displacement_field moving_image
                         fixed_images ;;
  run_levels registration_algorithm fixed_images moving_images iteration_staging field.

(** ** fast_symmetric_forces_demons_registration *)

Definition new_DemonsFilter : DemonsFilter :=
  mkDemonsFilter None None None None None false.

Definition fast_symmetric_forces_demons_registration (fixed_image moving_image : Image)
  (resolution_staging : list Q) (iteration_staging : list Z)
  (isotropic_resample : bool) (initial_displacement_field : option Image)
  (smoothing_sigma_factor : Q) (smoothing_sigmas : option (list Q))
  (default_value : Q) (ncores : Z) (structure : bool) (interp_order : Z)
  (verbose : bool) : M (Image * Transform * Image) :=
  let moving_image_type := GetPixelID moving_image in
  fixed_image <- (if negb (GetPixelID fixed_image =? 6)
                  then Cast fixed_image sitk.sitkFloat32 else ret fixed_image) ;;
  moving_image <- (if negb (GetPixelID moving_image =? 6)
                   then Cast moving_image sitk.sitkFloat32 else ret moving_image) ;;
  let registration_method :=
    mkDemonsFilter (Some ncores) (Some true) (Some true) (Some (3 # 2)) None verbose in
  let smoothing_sigmas :=
    match smoothing_sigmas with
    | None | Some [] => map (fun i => i * smoothing_sigma_factor)%Q resolution_staging
    | Some l => l
    end in
  r <- multiscale_demons registration_method fixed_image moving_image None
                         initial_displacement_field (map Scalar resolution_staging)
                         smoothing_sigmas iteration_staging isotropic_resample ;;
  let output_transform := fst r in
  let deformation_field := snd r in
  let resampler := new_ResampleImageFilter in
  let resampler := SetReferenceImage resampler fixed_image in
  let resampler := SetInterpolator resampler interp_order in
  let resampler := if structure then SetDefaultPixelValue resampler 0
                   else SetDefaultPixelValue resampler default_value in
  let resampler := SetTransform resampler output_transform in
  registered_image <- Resample_Execute resampler moving_image ;;
  registered_image <-
    (if structure then
       registered_image <- Cast registered_image sitk.sitkFloat32 ;;
       BinaryThreshold registered_image (1 # 100000) 100
     else ret registered_image) ;;
  registered_image <- CopyInformation registered_image fixed_image ;;
  registered_image <- Cast registered_image moving_image_type ;;
  resampled_field <- ResampleTo deformation_field fixed_image IdentityTransform ;;
  ret (registered_image, output_transform, resampled_field).

(** ** alignment_registration and initial_registration *)

Definition alignment_registration (fixed_image moving_image : Image) (moments : bool)
  : M (Image * Transform) :=
  let moving_image_type := GetPixelIDValue moving_image in
  fixed_image <- Cast fixed_image sitk.sitkFloat32 ;;
  moving_image <- Cast moving_image sitk.sitkFloat32 ;;
  initial_transform <- CenteredTransformInitializer fixed_image moving_image
                         VersorRigid3DTransform (int_of_bool moments) ;;
  aligned_image <- ResampleTo moving_image fixed_image initial_transform ;;
  aligned_image <- Cast aligned_image moving_image_type ;;
  ret (aligned_image, initial_transform).

Definition Registration := RegistrationMethod Image Transform.

Definition ImageRegistrationMethod : Registration :=
  mkRegistrationMethod [] [] None None None None None None false None None None None
                       false.

Definition with_metric (r : Registration) (m : Metric) : Registration :=
  mkRegistrationMethod r.(ShrinkFactorsPerLevel) r.(SmoothingSigmasPerLevel)
    r.(SmoothingSigmasAreSpecifiedInPhysicalUnits) r.(MovingInitialTransform)
    (Some m) r.(Interpolator) r.(MetricSamplingPercentage)
    r.(MetricSamplingStrategy) r.(OptimizerScalesFromPhysicalShift)
    r.(MetricMovingMask) r.(MetricFixedMask) r.(InitialTransform)
    r.(OptimizerType) r.(IterationCommand).

Definition SetInitialTransform (r : Registration) (t : Transform) : Registration :=
  mkRegistrationMethod r.(ShrinkFactorsPerLevel) r.(SmoothingSigmasPerLevel)
    r.(SmoothingSigmasAreSpecifiedInPhysicalUnits) r.(MovingInitialTransform)
    r.(MetricType) r.(Interpolator) r.(MetricSamplingPercentage)
    r.(MetricSamplingStrategy) r.(OptimizerScalesFromPhysicalShift)
    r.(MetricMovingMask) r.(MetricFixedMask) (Some t)
    r.(OptimizerType) r.(IterationCommand).

Definition with_optimizer (r : Registration) (o : Optimizer) : Registration :=
  mkRegistrationMethod r.(ShrinkFactorsPerLevel) r.(SmoothingSigmasPerLevel)
    r.(SmoothingSigmasAreSpecifiedInPhysicalUnits) r.(MovingInitialTransform)
    r.(MetricType) r.(Interpolator) r.(MetricSamplingPercentage)
    r.(MetricSamplingStrategy) r.(OptimizerScalesFromPhysicalShift)
    r.(MetricMovingMask) r.(MetricFixedMask) r.(InitialTransform)
    (Some o) r.(IterationCommand).

(** [registration.Execute(fixed, moving)]: the optimised transform.  The
    library raises on a method without an optimiser; the call is logged all
    the same and [refused] tells it apart. *)
Definition Registration_Execute (r : Registration) (fixed_image moving_image : Image)
  : M Transform :=
  made_transform (RegistrationOf r fixed_image moving_image).

Definition newline : string := String "010"%char EmptyString.

Definition no_such_method : string :=
  ("You have selected a registration method that does not exist." ++ newline
   ++ " Please select from "
   ++ "Translation, Similarity, Affine, Rigid, ScaleVersor, ScaleSkewVersor")%string.

(** The [if metric == ...] chain: no [else]. *)
Definition set_metric (r : Registration) (metric : string) (ants_radius : Z)
  : Registration :=
  if String.eqb metric "correlation" then with_metric r Correlation
  else if String.eqb metric "mean_squares" then with_metric r MeanSquares
  else if String.eqb metric "mattes_mi" then with_metric r MattesMutualInformation
  else if String.eqb metric "joint_hist_mi"
       then with_metric r JointHistogramMutualInformation
  else if String.eqb metric "ants"
       then with_metric r (ANTSNeighborhoodCorrelation ants_radius)
  else r.

Section Linear.

(** [str.lower]. *)
Variable lower : string -> string.

(** The [if reg_method.lower() == ...] chain: its [else] raises. *)
Definition set_initial_transform (r : Registration) (reg_method : string)
  : M Registration :=
  if String.eqb (lower reg_method) "translation"
  then ret (SetInitialTransform r (TranslationTransform 3))
  else if String.eqb (lower reg_method) "similarity"
  then ret (SetInitialTransform r Similarity3DTransform)
  else if String.eqb (lower reg_method) "affine"
  then ret (SetInitialTransform r (AffineTransform 3))
  else if String.eqb (lower reg_method) "rigid"
  then ret (SetInitialTransform r VersorRigid3DTransform)
  else if String.eqb (lower reg_method) "scaleversor"
  then ret (SetInitialTransform r ScaleVersor3DTransform)
  else if String.eqb (lower reg_method) "scaleskewversor"
  then ret (SetInitialTransform r ScaleSkewVersor3DTransform)
  else raise (Py.ValueError no_such_method).

(** The [if optimiser.lower() == ...] chain: no [else]. *)
Definition set_optimiser (r : Registration) (optimiser : string)
  (number_of_iterations : Z) (verbose : bool) : Registration :=
  if String.eqb (lower optimiser) "lbfgsb"
  then with_optimizer r (LBFGSB (1 # 100000) number_of_iterations 50 1024
                                (inject_Z 10000000) verbose)
  else if String.eqb (lower optimiser) "exhaustive"
  then with_optimizer r (Exhaustive [10; 10; 10; 10; 10; 10])
  else if String.eqb (lower optimiser) "gradient_descent_line_search"
  then with_optimizer r (GradientDescentLineSearch 1 number_of_iterations)
  else if String.eqb (lower optimiser) "gradient_descent"
  then with_optimizer r (GradientDescent 1 number_of_iterations)
  else r.

Definition initial_registration (fixed_image moving_image : Image)
  (fixed_structure moving_structure : option Image)
  (reg_method metric optimiser : string) (shrink_factors : list Z)
  (smooth_sigmas : list Q) (sampling_rate : Q) (ants_radius final_interp : Z)
  (number_of_iterations : Z) (default_value : Q) (verbose : bool)
  : M (Image * Transform) :=
  fixed_image <- Cast fixed_image sitk.sitkFloat32 ;;
  let moving_image_type := GetPixelIDValue moving_image in
  moving_image <- Cast moving_image sitk.sitkFloat32 ;;
  initial_transform <- CenteredTransformInitializer fixed_image moving_image
                         Euler3DTransform (int_of_bool false) ;;
  let registration :=
    mkRegistrationMethod shrink_factors smooth_sigmas (Some true)
                         (Some initial_transform) None None None None false None None
                         None None false in
  let registration := set_metric registration metric ants_radius in
  let registration :=
    mkRegistrationMethod registration.(ShrinkFactorsPerLevel)
      registration.(SmoothingSigmasPerLevel)
      registration.(SmoothingSigmasAreSpecifiedInPhysicalUnits)
      registration.(MovingInitialTransform) registration.(MetricType)
      (Some sitk.sitkLinear) (Some sampling_rate) (Some sitk.REGULAR) true
      (match moving_structure with
       | Some m => Some m
       | None => registration.(MetricMovingMask)
       end)
      (match fixed_structure with
       | Some f => Some f
       | None => registration.(MetricFixedMask)
       end)
      registration.(InitialTransform) registration.(OptimizerType)
      registration.(IterationCommand) in
  registration <- set_initial_transform registration reg_method ;;
  let registration := set_optimiser registration optimiser number_of_iterations verbose in
  let registration :=
    mkRegistrationMethod registration.(ShrinkFactorsPerLevel)
      registration.(SmoothingSigmasPerLevel)
      registration.(SmoothingSigmasAreSpecifiedInPhysicalUnits)
      registration.(MovingInitialTransform) registration.(MetricType)
      registration.(Interpolator) registration.(MetricSamplingPercentage)
      registration.(MetricSamplingStrategy)
      registration.(OptimizerScalesFromPhysicalShift)
      registration.(MetricMovingMask) registration.(MetricFixedMask)
      registration.(InitialTransform) registration.(OptimizerType) verbose in
  output_transform <- Registration_Execute registration fixed_image moving_image ;;
  let combined_transform := CompositeTransform [initial_transform; output_transform] in
  registered_image <- transform_propagation fixed_image moving_image combined_transform
                        false default_value final_interp ;;
  registered_image <- Cast registered_image moving_image_type ;;
  ret (registered_image, combined_transform).

End Linear.

(** ** How a transform maps points

    [primitive] is the library's point map of a transform that is not a
    composite.  A composite applies its queue in reverse: the transform added
    last maps the point first (the library's documented order). *)

Section Points.

Variable point : Type.
Variable primitive : Transform -> point -> point.

Fixpoint TransformPoint (t : Transform) (p : point) : point :=
  match t with
  | CompositeTransform ts =>
      (fix queue (ts : list Transform) (p : point) : point :=
         match ts with
         | [] => p
         | t' :: rest => TransformPoint t' (queue rest p)
         end) ts p
  | _ => primitive t p
  end.

(** Resampling an image, seen as a function of the physical point: the
    output at [x] is the input at the transformed point. *)
Definition resampled {value : Type} (t : Transform) (image : point -> value)
  : point -> value :=
  fun x => image (TransformPoint t x).

End Points.

(** ** convert_mask_to_distance_map

    Here voxel values matter: an image is its grid and its array of values. *)

Record Array : Type := mkArray {
  geometry : Grid;
  values : list Q
}.

(** A float image as the library hands it on: its array of finite values, or
    an image on the grid [g] that holds inf or nan values. *)
Inductive FloatImage : Type :=
| FiniteImage (a : Array)
| NonFiniteImage (g : Grid).

(** [image / x] for a number [x] ([Image.__truediv__]): every value is divided
    by [x] in floating point.  Nothing is raised for a zero [x]: the values
    become inf or nan. *)
Definition Divide (image : Array) (x : Q) : FloatImage :=
  if Qeq_bool x 0
  then NonFiniteImage image.(geometry)
  else FiniteImage (mkArray image.(geometry) (map (fun v => v / x)%Q image.(values))).

Section FeaturePreparation.

(** [sitk.SignedMaurerDistanceMap(image, insideIsPositive, squaredDistance,
    useImageSpacing)]. *)
Variable SignedMaurerDistanceMap : Array -> bool -> bool -> bool -> Py.result Array.

Definition convert_mask_to_distance_map (mask : Array) (squared_distance normalise : bool)
  : Py.result FloatImage :=
  match SignedMaurerDistanceMap mask true squared_distance true with
  | inl e => inl e
  | inr raw_map =>
      if normalise then
        match Py.max raw_map.(values) with
        | inl e => inl e
        | inr m => inr (Divide raw_map m)
        end
      else inr (FiniteImage raw_map)
  end.

End FeaturePreparation.

(** Modelled from the library's documentation: the signed distance map of an
    image that is a single row of voxels.  A voxel is in the object when its
    value is not 0; the distance is measured to the nearest object voxel that
    has a background neighbour, is positive inside and negative outside. *)
Definition is_object (a : list Q) (i : nat) : bool :=
  negb (Qeq_bool (nth i a 0%Q) 0).

Definition on_border (a : list Q) (i : nat) : bool :=
  is_object a i
  && (((0 <? i)%nat && negb (is_object a (i - 1)))
      || ((i + 1 <? List.length a)%nat && negb (is_object a (i + 1)))).

Definition row_distance (a : list Q) (step : Q) (i : nat) : Q :=
  let ds := map (fun j => inject_Z (Z.abs (Z.of_nat i - Z.of_nat j)) * step)%Q
                (filter (on_border a) (seq 0 (List.length a))) in
  match ds with
  | [] => 0%Q
  | d :: r => fold_left (fun m y => if Qlt_le_dec y m then y else m) r d
  end.

Definition row_SignedMaurerDistanceMap (image : Array)
  (insideIsPositive squaredDistance useImageSpacing : bool) : Py.result Array :=
  let a := image.(values) in
  let step := if useImageSpacing then nth 0 image.(geometry).(spacing) 1%Q else 1%Q in
  inr (mkArray image.(geometry)
         (map (fun i =>
                 let d := row_distance a step i in
                 let d := if squaredDistance then (d * d)%Q else d in
                 if Bool.eqb (is_object a i) insideIsPositive then d else (- d)%Q)
              (seq 0 (List.length a)))).

(** The largest absolute value of an array. *)
Definition max_abs (l : list Q) : Q :=
  fold_left (fun m y => if Qlt_le_dec m (Qabs y) then Qabs y else m) l 0%Q.

(** [str.lower] on ASCII text. *)
Definition ascii_lower (c : ascii) : ascii :=
  let n := nat_of_ascii c in
  if ((65 <=? n) && (n <=? 90))%nat then ascii_of_nat (n + 32) else c.

Fixpoint lower_ascii (s : string) : string :=
  match s with
  | EmptyString => EmptyString
  | String c r => String (ascii_lower c) (lower_ascii r)
  end.

(** ** Values named in the statements *)

(** The shrink factor of each axis. *)
Definition factors (shrink_factor : per_axis) (axes : nat) : list Q :=
  match shrink_factor with
  | Scalar f => repeat f axes
  | PerAxis l => l
  end.

(** The specification's new size: [round(S / f)], per axis. *)
Definition spec_size (sizes : list Z) (fs : list Q) : list Z :=
  Py.zip_with (fun sz f => round_half_up (inject_Z sz / f)) sizes fs.

(** The specification's mesh size: [round(size * spacing / grid_spacing)]. *)
Definition spec_mesh (sizes : list Z) (spacings : list Q) (grid : list Q)
  : list (option Z) :=
  Py.zip_with (fun p d => Some (round_half_up (p / d)))
              (Py.zip_with (fun sz sp => (inject_Z sz * sp)%Q) sizes spacings) grid.

Definition rejected (log : list Event) : Py.result Image * list Event :=
  (inl (Py.ValueError "Structure interpolation should be nearest neighbour."), log).

(** What [resampler.Execute] returns in [transform_propagation]. *)
Definition propagated (fixed_image moving_image : Image) (transform : Transform)
  (default_value : Q) (interp : Z) : Image :=
  mkImage (GetGrid fixed_image) (GetPixelID moving_image)
          (ResampleOf moving_image transform interp default_value).

Definition casted (image : Image) (pixelID : Z) : Image :=
  mkImage (GetGrid image) pixelID (CastOf image).

(** What [resampler.Execute] returns in [apply_field]. *)
Definition applied (input_image : Image) (transform : Transform)
  (default_value : Q) (interp : Z) : Image :=
  mkImage (GetGrid input_image) sitk.sitkFloat32
          (ResampleOf (casted input_image sitk.sitkFloat32) transform interp
                      default_value).

(** The names each dispatch chain of [initial_registration] tests for. *)
Definition recognised_method (lower : string -> string) (reg_method : string) : bool :=
  existsb (String.eqb (lower reg_method))
          ["translation"; "similarity"; "affine"; "rigid"; "scaleversor";
           "scaleskewversor"]%string.

Definition recognised_metric (metric : string) : bool :=
  existsb (String.eqb metric)
          ["correlation"; "mean_squares"; "mattes_mi"; "joint_hist_mi"; "ants"]%string.

Definition recognised_optimiser (lower : string -> string) (optimiser : string) : bool :=
  existsb (String.eqb (lower optimiser))
          ["lbfgsb"; "exhaustive"; "gradient_descent_line_search";
           "gradient_descent"]%string.

(** The transform [initial_registration] starts from: the centred
    initialiser of an Euler transform on the two images cast to float, with
    operation mode [False], that is 0. *)
Definition seed (fixed_image moving_image : Image) : Transform :=
  CenteredTransformInitializerOf (casted fixed_image sitk.sitkFloat32)
                                 (casted moving_image sitk.sitkFloat32)
                                 Euler3DTransform 0.

(** The transform a registration run returns in [initial_registration]. *)
Definition optimised (r : Registration) (fixed_image moving_image : Image) : Transform :=
  RegistrationOf r (casted fixed_image sitk.sitkFloat32)
                 (casted moving_image sitk.sitkFloat32).

(** The library calls of [initial_registration] up to the dispatch on the
    method, and from the registration run on. *)
Definition linear_entry (fixed_image moving_image : Image) : list Event :=
  [MadeImage (casted fixed_image sitk.sitkFloat32);
   MadeImage (casted moving_image sitk.sitkFloat32);
   MadeTransform (seed fixed_image moving_image)].

Definition linear_output (r : Registration) (fixed_image moving_image : Image)
  (default_value : Q) (final_interp : Z) : Image :=
  propagated (casted fixed_image sitk.sitkFloat32) (casted moving_image sitk.sitkFloat32)
             (CompositeTransform [seed fixed_image moving_image;
                                  optimised r fixed_image moving_image])
             default_value final_interp.

Definition linear_exit (r : Registration) (fixed_image moving_image : Image)
  (default_value : Q) (final_interp : Z) : list Event :=
  let out := linear_output r fixed_image moving_image default_value final_interp in
  [MadeTransform (optimised r fixed_image moving_image);
   MadeImage out;
   MadeImage (casted out sitk.sitkFloat32);
   MadeImage (casted (casted out sitk.sitkFloat32) (GetPixelID moving_image))].

(** The settings of the registrations that were run, in order. *)
Definition executed_registrations (log : list Event) : list Registration :=
  flat_map (fun e => match e with
                     | MadeTransform (RegistrationOf r _ _) => [r]
                     | _ => []
                     end) log.

(** The interpolator and fill value of every resampling under a
    displacement-field transform, in order. *)
Definition field_resamplings (log : list Event) : list (Z * Q) :=
  flat_map (fun e => match e with
                     | MadeImage (mkImage _ _ (ResampleOf _ (DisplacementFieldTransform _)
                                                          i d)) => [(i, d)]
                     | _ => []
                     end) log.

(** The operation mode of a centred initialiser. *)
Definition operation_mode (t : Transform) : option Z :=
  match t with
  | CenteredTransformInitializerOf _ _ _ m => Some m
  | _ => None
  end.

(** Two small images to evaluate the functions on. *)
Definition example_fixed : Image :=
  mkImage (mkGrid [8; 8] [1; 1]%Q [0; 0]%Q [1; 0; 0; 1]%Q) 2 (Stored "fixed").

Definition example_moving : Image :=
  mkImage (mkGrid [8; 8] [1; 1]%Q [3; 0]%Q [1; 0; 0; 1]%Q) 1 (Stored "moving").

(** The image [fast_symmetric_forces_demons_registration] works on: cast to
    float unless its pixel type is number 6. *)
Definition working (image : Image) : Image :=
  if GetPixelID image =? 6 then image else casted image sitk.sitkFloat32.

Definition working_events (image : Image) : list Event :=
  if GetPixelID image =? 6 then [] else [MadeImage (casted image sitk.sitkFloat32)].

(** The sigmas of the demons schedule. *)
Definition staged_sigmas (smoothing_sigmas : option (list Q))
  (smoothing_sigma_factor : Q) (resolution_staging : list Q) : list Q :=
  match smoothing_sigmas with
  | None | Some [] => map (fun i => i * smoothing_sigma_factor)%Q resolution_staging
  | Some l => l
  end.

(** The filter [fast_symmetric_forces_demons_registration] configures. *)
Definition demons_filter (ncores : Z) (verbose : bool) : DemonsFilter :=
  mkDemonsFilter (Some ncores) (Some true) (Some true) (Some (3 # 2)) None verbose.

(** The thresholded structure: the resampled image cast to float, then
    [BinaryThreshold] between 1e-5 and 100. *)
Definition thresholded (image : Image) : Image :=
  mkImage (GetGrid image) sitk.sitkUInt8
          (BinaryThresholdOf (casted image sitk.sitkFloat32) (1 # 100000) 100).

(** A field supplied to the demons stage, and a transform. *)
Definition example_field : Image :=
  mkImage (mkGrid [8; 8] [1; 1]%Q [0; 0]%Q [1; 0; 0; 1]%Q) sitk.sitkVectorFloat64
          (Stored "field").

Definition example_structure : Image :=
  mkImage (mkGrid [8; 8] [1; 1]%Q [0; 0]%Q [1; 0; 0; 1]%Q) sitk.sitkUInt8
          (Stored "structure").

(** A row of ten voxels with an object three voxels wide, and the same row
    with labels other than 0 and 1. *)
Definition example_mask : Array :=
  mkArray (mkGrid [10; 1] [1; 1]%Q [0; 0]%Q [1; 0; 0; 1]%Q)
          [0; 0; 0; 0; 0; 0; 1; 1; 1; 0]%Q.

Definition example_labels : Array :=
  mkArray (mkGrid [10; 1] [1; 1]%Q [0; 0]%Q [1; 0; 0; 1]%Q)
          [0; 0; 0; 0; 0; 0; 2; 5; 2; 0]%Q.

(** ** convert_mask_to_reg_structure *)

(** [sitk.Threshold(image, lower, upper)]: a value outside [lower, upper] is
    replaced by the outside value, 0 by default. *)
Definition Threshold (image : Array) (lower upper : Q) : Array :=
  mkArray image.(geometry)
          (map (fun v => if Qlt_le_dec v lower then 0%Q
                         else if Qlt_le_dec upper v then 0%Q else v)
               image.(values)).

(** [distance_map + expansion * sitk.Cast(distance_map < expansion, sitkFloat64)]. *)
Definition expanded (distance_map : Array) (expansion : Q) : Array :=
  mkArray distance_map.(geometry)
          (map (fun v => v + expansion * (if Qlt_le_dec v expansion then 1 else 0))%Q
               distance_map.(values)).

Section StructureGuidance.

Variable SignedMaurerDistanceMap : Array -> bool -> bool -> bool -> Py.result Array.

(** The caller's rescaling function; it may raise. *)
Variable scale : FloatImage -> Py.result FloatImage.

(** Without [normalise] the distance map is the filter's own output, an image
    of finite values. *)
Definition convert_mask_to_reg_structure (mask : Array) (expansion : Q)
  : Py.result FloatImage :=
  match convert_mask_to_distance_map SignedMaurerDistanceMap mask false false with
  | inl e => inl e
  | inr (NonFiniteImage g) => scale (NonFiniteImage g)
  | inr (FiniteImage distance_map) =>
      let inverted_distance_map := Threshold (expanded distance_map expansion) 0 1000 in
      match Py.max inverted_distance_map.(values) with
      | inl e => inl e
      | inr m => scale (Divide inverted_distance_map m)
      end
  end.

End StructureGuidance.

(** ** bspline_registration

    The B-spline stage uses optimisers, metrics and a transform initialiser
    of its own; its registration object is a record of its own, and the two
    library calls that make transforms are parameters. *)

Module BSpline.

Inductive Optimizer : Type :=
| LBFGSB (gradientConvergenceTolerance : Q) (numberOfIterations : Z)
         (maximumNumberOfCorrections maximumNumberOfFunctionEvaluations : Z)
         (costFunctionConvergenceFactor : Q) (trace : bool)
| LBFGS2 (numberOfIterations : Z) (solutionAccuracy : Q)
         (hessianApproximateAccuracy : Z)
         (deltaConvergenceDistance : Z) (deltaConvergenceTolerance : Q)
         (lineSearchMaximumEvaluations : Z)
         (lineSearchMinimumStep lineSearchMaximumStep lineSearchAccuracy : Q)
| ConjugateGradientLineSearch (learningRate : Q) (numberOfIterations : Z)
| GradientDescent (learningRate : Q) (numberOfIterations : Z)
                  (convergenceMinimumValue : Q) (convergenceWindowSize : Z)
| GradientDescentLineSearch (learningRate : Q) (numberOfIterations : Z).

Inductive Metric : Type :=
| Correlation
| MeanSquares
| Demons
| MattesMutualInformation (numberOfHistogramBins : Z).

(** [sampling_rate]: a float, a list or array of floats, or anything else
    (an [int], say). *)
Inductive sampling : Type :=
| RateFloat (x : Q)
| RateList (l : list Q)
| RateOther.

Record Method : Type := mkMethod {
  NumberOfThreads : Z;
  ShrinkFactorsPerLevel : list Z;
  SmoothingSigmasPerLevel : list Q;
  OptimizerType : option Optimizer;
  OptimizerScalesFromPhysicalShift : bool;
  MetricType : option Metric;
  Interpolator : Z;
  MetricSamplingPercentage : option Q;
  MetricSamplingPercentagePerLevel : option (list Q);
  MetricSamplingStrategy : Z;
  MetricMovingMask : option Image;
  MetricFixedMask : option Image;
  InitialTransformAsBSpline : Transform;
  ScaleFactors : list Z;
  Commands : bool
}.

(** The optimiser chain: the scales are taken from the physical shift in
    three of its branches only. *)
Definition optimiser_of (lowered : string) (number_of_iterations : Z) (verbose : bool)
  : option Optimizer * bool :=
  if String.eqb lowered "lbfgsb"
  then (Some (LBFGSB (1 # 100000) number_of_iterations 5 1024 (inject_Z 10000000)
                     verbose), false)
  else if String.eqb lowered "lbfgs"
  then (Some (LBFGS2 number_of_iterations (1 # 100) 6 0 (1 # 100) 40
                     (1 # 100000000000000000000) (inject_Z 100000000000000000000)
                     (1 # 100)), false)
  else if String.eqb lowered "cgls"
  then (Some (ConjugateGradientLineSearch (1 # 20) number_of_iterations), true)
  else if String.eqb lowered "gradient_descent"
  then (Some (GradientDescent 5 number_of_iterations (1 # 1000000) 10), true)
  else if String.eqb lowered "gradient_descent_line_search"
  then (Some (GradientDescentLineSearch 1 number_of_iterations), true)
  else (None, false).

Definition metric_of (metric : string) (number_of_histogram_bins_mi : Z)
  : option Metric :=
  if String.eqb metric "correlation" then Some Correlation
  else if String.eqb metric "mean_squares" then Some MeanSquares
  else if String.eqb metric "demons" then Some Demons
  else if String.eqb metric "mutual_information"
  then Some (MattesMutualInformation number_of_histogram_bins_mi)
  else None.

Section Stage.

Variable lower : string -> string.

(** [sitk.BSplineTransformInitializer(image, transformDomainMeshSize)] and
    [registration.Execute(fixed, moving)]. *)
Variable BSplineTransformInitializer : Image -> list (option Z) -> Transform.
Variable Execute : Method -> Image -> Image -> Transform.

Definition bspline_registration (fixed_image moving_image : Image)
  (fixed_structure moving_structure : option Image)
  (resolution_staging : list Z) (smooth_sigmas : list Q) (sampling_rate : sampling)
  (optimiser metric : string) (initial_grid_spacing : per_axis)
  (grid_scale_factors : list Z) (interp_order : Z) (default_value : Q)
  (number_of_iterations : Z) (isotropic_resample : bool)
  (initial_isotropic_size : per_axis) (number_of_histogram_bins_mi : Z)
  (verbose : bool) (ncores : Z) : M (Image * Transform) :=
  fixed_image <- Cast fixed_image sitk.sitkFloat32 ;;
  let moving_image_type := GetPixelID moving_image in
  moving_image <- Cast moving_image sitk.sitkFloat32 ;;
  let fixed_image_original := fixed_image in
  images <-
    (if isotropic_resample then
       f <- smooth_and_resample fixed_image initial_isotropic_size 0 true
                                sitk.sitkLinear ;;
       m <- smooth_and_resample moving_image initial_isotropic_size 0 true
                                sitk.sitkLinear ;;
       ret (f, m)
     else ret (fixed_image, moving_image)) ;;
  let fixed_image := fst images in
  let moving_image := snd images in
  let chosen := optimiser_of (lower optimiser) number_of_iterations verbose in
  transform_domain_mesh_size <-
    lift (Binary64.control_point_spacing_distance_to_number fixed_image
            initial_grid_spacing) ;;
  initial_transform <-
    made_transform (BSplineTransformInitializer fixed_image transform_domain_mesh_size) ;;
  let registration :=
    mkMethod ncores resolution_staging smooth_sigmas (fst chosen) (snd chosen)
             (metric_of metric number_of_histogram_bins_mi) sitk.sitkLinear
             (match sampling_rate with RateFloat x => Some x | _ => None end)
             (match sampling_rate with RateList l => Some l | _ => None end)
             sitk.REGULAR moving_structure fixed_structure initial_transform grid_scale_factors
             verbose in
  output_transform <- made_transform (Execute registration fixed_image moving_image) ;;
  registered_image <- transform_propagation fixed_image_original moving_image
                        output_transform false default_value interp_order ;;
  registered_image <- Cast registered_image moving_image_type ;;
  ret (registered_image, output_transform).

End Stage.

End BSpline.

(** ** Reading the log *)



(** The thresholdings in the log. *)
Definition is_threshold (e : Event) : bool :=
  match e with
  | MadeImage (mkImage _ _ (BinaryThresholdOf _ _ _)) => true
  | _ => false
  end.

(** A row whose object is two voxels wide: both object voxels touch the
    background. *)
Definition example_thin_mask : Array :=
  mkArray (mkGrid [6; 1] [1; 1]%Q [0; 0]%Q [1; 0; 0; 1]%Q) [0; 0; 1; 1; 0; 0]%Q.

(** ** What the library refuses

    The library calls of this embedding are total.  Two of the calls the
    module makes are calls the library itself refuses with a [RuntimeError]:
    a centred initialiser whose transform and images differ in dimension,
    and the run of a registration method on which no optimiser was set.
    [refused] marks them in a log: a run of the model whose log holds a
    refused call stands for a run of the code that stops at that call with
    the library's error. *)
Definition transform_dimension (t : Transform) : option nat :=
  match t with
  | TranslationTransform d | AffineTransform d => Some (Z.to_nat d)
  | Euler3DTransform | VersorRigid3DTransform | Similarity3DTransform
  | ScaleVersor3DTransform | ScaleSkewVersor3DTransform => Some 3%nat
  | _ => None
  end.

Definition fits (t : Transform) (image : Image) : bool :=
  match transform_dimension t with
  | Some d => (List.length (GetSize image) =? d)%nat
  | None => true
  end.

Definition refused (e : Event) : bool :=
  match e with
  | MadeTransform (CenteredTransformInitializerOf fixed_image moving_image t _) =>
      negb (fits t fixed_image && fits t moving_image)
  | MadeTransform (RegistrationOf r _ _) =>
      match r.(OptimizerType) with
      | Some _ => false
      | None => true
      end
  | _ => false
  end.

(** An argument the binding converts to an unsigned integer: a value out of
    range is refused by the conversion, before the library is called. *)
Definition unsigned (z : Z) : Prop := 0 <= z < 2 ^ 32.

(** Two volumes and a displacement field to evaluate the functions on. *)
Definition fixed_volume : Image :=
  mkImage (mkGrid [64; 64; 64] [1; 1; 1]%Q [0; 0; 0]%Q [1; 0; 0; 0; 1; 0; 0; 0; 1]%Q)
          sitk.sitkFloat32 (Stored "fixed volume").

Definition moving_volume : Image :=
  mkImage (mkGrid [64; 64; 64] [1; 1; 1]%Q [3; 0; 0]%Q [1; 0; 0; 0; 1; 0; 0; 0; 1]%Q)
          sitk.sitkFloat32 (Stored "moving volume").

(** A volume of [n] voxels a side, [sp] mm apart. *)
Definition cube (n : Z) (sp : Q) : Image :=
  mkImage (mkGrid [n; n; n] [sp; sp; sp] [0; 0; 0]%Q [1; 0; 0; 0; 1; 0; 0; 0; 1]%Q)
          sitk.sitkFloat32 (Stored "cube").


(** The names the dispatch chains of [bspline_registration] test for. *)
Definition recognised_bspline_optimiser (lowered : string) : bool :=
  existsb (String.eqb lowered)
          ["lbfgsb"; "lbfgs"; "cgls"; "gradient_descent";
           "gradient_descent_line_search"]%string.

Definition recognised_bspline_metric (metric : string) : bool :=
  existsb (String.eqb metric)
          ["correlation"; "mean_squares"; "demons"; "mutual_information"]%string.

(** * Properties *)

(** ** Rounding *)

Lemma int_of_float_nonneg (x : Q) :
  (0 <= x)%Q -> Py.int_of_float x = Qfloor x.
Proof.
  destruct x as [n d]. unfold Qle, Py.int_of_float, Qfloor. simpl.
  intros H. apply Z.quot_div_nonneg; lia.
Qed.

Lemma Qeq_bool_pos (d : Q) : (0 < d)%Q -> Qeq_bool d 0 = false.
Proof.
  intros H. destruct (Qeq_bool d 0) eqn:E; [|reflexivity].
  apply Qeq_bool_eq in E. lra.
Qed.


(** ** Binary64: rounding to the nearest double *)

Section Binary64Rounding.

Import Binary64.

Lemma pow2_pos (e : Z) : (0 < pow2 e)%Q.
Proof. unfold pow2. apply Qpower_0_lt. reflexivity. Qed.

Lemma pow2_add (a b : Z) : (pow2 (a + b) == pow2 a * pow2 b)%Q.
Proof. unfold pow2. apply Qpower_plus. discriminate. Qed.

Lemma pow2_le (a b : Z) : a <= b -> (pow2 a <= pow2 b)%Q.
Proof. intros H. unfold pow2. apply Qpower_le_compat_l; [assumption|]. discriminate. Qed.

Lemma pow2_lt (a b : Z) : a < b -> (pow2 a < pow2 b)%Q.
Proof. intros H. unfold pow2. apply Qpower_lt_compat_l; [assumption|]. reflexivity. Qed.

Lemma pow2_Z (n : Z) : 0 <= n -> (pow2 n == inject_Z (2 ^ n))%Q.
Proof. intros H. unfold pow2. rewrite Zpower_Qpower by assumption. reflexivity. Qed.

Lemma floor_log2_spec (a : Q) :
  (0 < a)%Q -> (pow2 (floor_log2 a) <= a < pow2 (floor_log2 a + 1))%Q.
Proof.
  intros Ha. unfold floor_log2.
  destruct a as [n d]. simpl Qnum. simpl Qden.
  assert (Hn : 0 < n). { unfold Qlt in Ha. simpl in Ha. lia. }
  pose proof (Z.log2_spec n Hn) as [Hn1 Hn2].
  pose proof (Z.log2_spec (Zpos d) (Pos2Z.is_pos d)) as [Hd1 Hd2].
  pose proof (Z.log2_nonneg n) as Hln.
  pose proof (Z.log2_nonneg (Zpos d)) as Hld.
  set (ln := Z.log2 n) in *. set (ld := Z.log2 (Zpos d)) in *.
  assert (Hq : (n # d == inject_Z n / inject_Z (Zpos d))%Q).
  { rewrite Qmake_Qdiv. reflexivity. }
  assert (Hdpos : (0 < inject_Z (Zpos d))%Q) by (unfold Qlt; simpl; lia).
  assert (Eln : (pow2 ln == inject_Z (2 ^ ln))%Q) by (apply pow2_Z; lia).
  assert (Eld : (pow2 ld == inject_Z (2 ^ ld))%Q) by (apply pow2_Z; lia).
  assert (Eln1 : (pow2 (ln + 1) == inject_Z (2 ^ (ln + 1)))%Q) by (apply pow2_Z; lia).
  assert (Eld1 : (pow2 (ld + 1) == inject_Z (2 ^ (ld + 1)))%Q) by (apply pow2_Z; lia).
  assert (Hn1' : (pow2 ln <= inject_Z n)%Q) by (rewrite Eln, <- Zle_Qle; lia).
  assert (Hn2' : (inject_Z n < pow2 (ln + 1))%Q).
  { rewrite Eln1, <- Zlt_Qlt. replace (ln + 1) with (Z.succ ln) by lia. lia. }
  assert (Hd1' : (pow2 ld <= inject_Z (Zpos d))%Q) by (rewrite Eld, <- Zle_Qle; lia).
  assert (Hd2' : (inject_Z (Zpos d) < pow2 (ld + 1))%Q).
  { rewrite Eld1, <- Zlt_Qlt. replace (ld + 1) with (Z.succ ld) by lia. lia. }
  pose proof (pow2_pos ln). pose proof (pow2_pos ld).
  pose proof (pow2_pos (ln - ld)) as Hp. pose proof (pow2_pos (ln - ld - 1)) as Hp1.
  assert (E1 : (pow2 ln == pow2 (ln - ld) * pow2 ld)%Q).
  { rewrite <- pow2_add. replace (ln - ld + ld) with ln by lia. reflexivity. }
  assert (E2 : (pow2 (ln - ld) == 2 * pow2 (ln - ld - 1))%Q).
  { replace (ln - ld) with (1 + (ln - ld - 1)) at 1 by lia. rewrite pow2_add. reflexivity. }
  assert (E3 : (pow2 (ln - ld + 1) == 2 * pow2 (ln - ld))%Q).
  { replace (ln - ld + 1) with (1 + (ln - ld)) by lia. rewrite pow2_add. reflexivity. }
  assert (E4 : (pow2 (ln + 1) == 2 * pow2 ln)%Q).
  { replace (ln + 1) with (1 + ln) by lia. rewrite pow2_add. reflexivity. }
  assert (E5 : (pow2 (ld + 1) == 2 * pow2 ld)%Q).
  { replace (ld + 1) with (1 + ld) by lia. rewrite pow2_add. reflexivity. }
  set (a := (n # d)%Q) in *.
  assert (Ha' : (a * inject_Z (Zpos d) == inject_Z n)%Q).
  { rewrite Hq. field. lra. }
  destruct (Qle_bool (pow2 (ln - ld)) a) eqn:Hb.
  - apply Qle_bool_iff in Hb. split; [assumption|].
    (* a < 2 * 2^(ln-ld): a * d = n < 2^(ln+1) = 2*2^(ln-ld)*2^ld <= 2*2^(ln-ld) * d *)
    apply Qnot_le_lt. intros Hc. nra.
  - assert (Hlt : (a < pow2 (ln - ld))%Q).
    { apply Qnot_le_lt. intros Hc. apply Qle_bool_iff in Hc. congruence. }
    replace (ln - ld - 1 + 1) with (ln - ld) by lia. split; [|assumption].
    apply Qnot_lt_le. intros Hc. nra.
Qed.

Lemma round_half_even_ge (m : Q) (k : Z) :
  (inject_Z k <= m)%Q -> k <= round_half_even m.
Proof.
  intros H. unfold round_half_even.
  assert (Hf : k <= Qfloor m).
  { rewrite <- (Qfloor_Z k). now apply Qfloor_resp_le. }
  destruct (m - inject_Z (Qfloor m) ?= 1 # 2)%Q; [destruct (Z.even (Qfloor m))| |]; lia.
Qed.

Lemma round_half_even_le (m : Q) (k : Z) :
  (m <= inject_Z k)%Q -> round_half_even m <= k.
Proof.
  intros H. unfold round_half_even.
  pose proof (Qfloor_le m) as Hlo. pose proof (Qlt_floor m) as Hhi.
  assert (Hf : Qfloor m <= k).
  { rewrite <- (Qfloor_Z k). now apply Qfloor_resp_le. }
  destruct (Z.eq_dec (Qfloor m) k) as [E|E].
  - (* m = k exactly *)
    assert (Hm : (m - inject_Z (Qfloor m) == 0)%Q) by (rewrite E in *; lra).
    destruct (m - inject_Z (Qfloor m) ?= 1 # 2)%Q eqn:C.
    + apply Qeq_alt in C. lra.
    + lia.
    + apply Qgt_alt in C. lra.
  - destruct (m - inject_Z (Qfloor m) ?= 1 # 2)%Q; [destruct (Z.even (Qfloor m))| |]; lia.
Qed.

Lemma round_half_even_near (m : Q) :
  (Qabs (inject_Z (round_half_even m) - m) <= 1 # 2)%Q.
Proof.
  unfold round_half_even.
  pose proof (Qfloor_le m) as Hlo. pose proof (Qlt_floor m) as Hhi.
  rewrite inject_Z_plus in Hhi. change (inject_Z 1) with 1%Q in Hhi.
  destruct (m - inject_Z (Qfloor m) ?= 1 # 2)%Q eqn:C.
  - apply Qeq_alt in C.
    destruct (Z.even (Qfloor m)); [|rewrite inject_Z_plus; change (inject_Z 1) with 1%Q];
      apply Qabs_case; intros _; lra.
  - apply Qlt_alt in C. apply Qabs_case; intros _; lra.
  - apply Qgt_alt in C. rewrite inject_Z_plus. change (inject_Z 1) with 1%Q.
    apply Qabs_case; intros _; lra.
Qed.

Lemma ulp_pos (a : Q) : (0 < ulp a)%Q.
Proof. apply pow2_pos. Qed.

Lemma nearest_eq (a : Q) :
  (nearest a == inject_Z (round_half_even (a / ulp a)) * ulp a)%Q.
Proof. unfold nearest. apply Qred_correct. Qed.

(** A double that is not below the binade of [a] is a multiple of [ulp a]. *)
Lemma multiple_of_ulp (a r : Q) (m j : Z) :
  (r == inject_Z m * pow2 j)%Q -> 0 <= m < 2 ^ 53 -> - 1074 <= j ->
  (pow2 (floor_log2 a) <= r)%Q ->
  exists k : Z, (r == inject_Z k * ulp a)%Q.
Proof.
  intros Hr Hm Hj Hle. unfold ulp.
  set (e := floor_log2 a) in *.
  destruct (Z_le_gt_dec (Z.max e (- 1022) - 52) j) as [H|H].
  - exists (m * 2 ^ (j - (Z.max e (- 1022) - 52))).
    rewrite Hr, inject_Z_mult, <- pow2_Z by lia.
    rewrite <- Qmult_assoc, <- pow2_add.
    replace (j - (Z.max e (- 1022) - 52) + (Z.max e (- 1022) - 52)) with j by lia.
    reflexivity.
  - exfalso.
    assert (He : j <= e - 53) by lia.
    assert (H1 : (inject_Z m < inject_Z (2 ^ 53))%Q) by (rewrite <- Zlt_Qlt; lia).
    rewrite <- pow2_Z in H1 by lia.
    assert (H2 : (pow2 j <= pow2 (e - 53))%Q) by (apply pow2_le; lia).
    assert (H3 : (pow2 e == pow2 53 * pow2 (e - 53))%Q).
    { rewrite <- pow2_add. replace (53 + (e - 53)) with e by lia. reflexivity. }
    pose proof (pow2_pos j) as Hp1. pose proof (pow2_pos (e - 53)) as Hp2.
    pose proof (pow2_pos 53) as Hp3.
    assert (Hm0 : (0 <= inject_Z m)%Q).
    { change 0%Q with (inject_Z 0). rewrite <- Zle_Qle. lia. }
    rewrite Hr, H3 in Hle. nra.
Qed.

Lemma nearest_le (a r : Q) (m j : Z) :
  (0 < a)%Q ->
  (r == inject_Z m * pow2 j)%Q -> 0 <= m < 2 ^ 53 -> - 1074 <= j ->
  (a <= r)%Q -> (nearest a <= r)%Q.
Proof.
  intros Ha Hr Hm Hj Hle.
  destruct (floor_log2_spec a Ha) as [Hlo _].
  destruct (multiple_of_ulp a r m j Hr Hm Hj) as [k Hk]; [lra|].
  rewrite nearest_eq. pose proof (ulp_pos a) as Hu.
  assert (Hq : (a / ulp a <= inject_Z k)%Q).
  { apply Qle_shift_div_r; [assumption|]. lra. }
  apply round_half_even_le in Hq. rewrite Zle_Qle in Hq.
  rewrite Hk. nra.
Qed.

Lemma nearest_nonneg (a : Q) : (0 < a)%Q -> (0 <= nearest a)%Q.
Proof.
  intros Ha. rewrite nearest_eq. pose proof (ulp_pos a) as Hu.
  assert (Hq : (inject_Z 0 <= a / ulp a)%Q).
  { change (inject_Z 0) with 0%Q. apply Qle_shift_div_l; [assumption|]. lra. }
  apply round_half_even_ge in Hq. rewrite Zle_Qle in Hq.
  change (inject_Z 0) with 0%Q in Hq. nra.
Qed.

Lemma nearest_ge (a r : Q) (m j : Z) :
  (0 < a)%Q ->
  (r == inject_Z m * pow2 j)%Q -> 0 <= m < 2 ^ 53 -> - 1074 <= j ->
  (r <= a)%Q -> (r <= nearest a)%Q.
Proof.
  intros Ha Hr Hm Hj Hle.
  destruct (floor_log2_spec a Ha) as [Hlo _].
  pose proof (ulp_pos a) as Hu.
  destruct (Qlt_le_dec r (pow2 (floor_log2 a))) as [Hlt|Hge].
  - destruct (Z.eq_dec m 0) as [->|Hm0].
    + assert (r == 0)%Q by (rewrite Hr; ring).
      pose proof (nearest_nonneg a Ha). lra.
    + (* r >= 2^j >= 2^-1074, so the binade of a is above the subnormal gap *)
      assert (H1 : (1 <= inject_Z m)%Q).
      { change 1%Q with (inject_Z 1). rewrite <- Zle_Qle. lia. }
      pose proof (pow2_pos j) as Hpj.
      assert (H2 : (pow2 j < pow2 (floor_log2 a))%Q) by (rewrite Hr in Hlt; nra).
      apply Qpower_lt_compat_l_inv in H2; [|reflexivity].
      set (e := floor_log2 a) in *.
      assert (Hk : (pow2 e == inject_Z (2 ^ (e - (Z.max e (- 1022) - 52))) * ulp a)%Q).
      { unfold ulp. fold e. rewrite <- pow2_Z by lia. rewrite <- pow2_add.
        replace (e - (Z.max e (- 1022) - 52) + (Z.max e (- 1022) - 52)) with e by lia.
        reflexivity. }
      assert (Hq : (inject_Z (2 ^ (e - (Z.max e (- 1022) - 52))) <= a / ulp a)%Q).
      { apply Qle_shift_div_l; [assumption|]. lra. }
      apply round_half_even_ge in Hq. rewrite Zle_Qle in Hq.
      rewrite nearest_eq. nra.
  - destruct (multiple_of_ulp a r m j Hr Hm Hj Hge) as [k Hk].
    assert (Hq : (inject_Z k <= a / ulp a)%Q).
    { apply Qle_shift_div_l; [assumption|]. lra. }
    apply round_half_even_ge in Hq. rewrite Zle_Qle in Hq.
    rewrite nearest_eq, Hk. nra.
Qed.

Lemma round64_zero (x : Q) : (x == 0)%Q -> round64 x = Finite 0.
Proof.
  intros H. unfold round64.
  assert (E : (Qred x ?= 0)%Q = Eq) by (apply Qeq_alt; now rewrite Qred_correct).
  now rewrite E.
Qed.

Lemma round64_positive (x : Q) :
  (0 < x)%Q -> (nearest (Qred x) < pow2 1024)%Q ->
  round64 x = Finite (nearest (Qred x)).
Proof.
  intros Hx Hn. unfold round64.
  assert (E : (Qred x ?= 0)%Q = Gt) by (apply Qgt_alt; now rewrite Qred_correct).
  rewrite E.
  destruct (Qle_bool (pow2 1024) (nearest (Qred x))) eqn:Hb; [|reflexivity].
  apply Qle_bool_iff in Hb. lra.
Qed.

(** Rounding does not cross a double: between two doubles the result stays
    between them. *)
Lemma round64_between (x lo hi : Q) :
  (0 < x)%Q -> representable lo -> representable hi ->
  (lo <= x <= hi)%Q ->
  exists y, round64 x = Finite y /\ (lo <= y <= hi)%Q.
Proof.
  intros Hx (ml & jl & Hl & Hml & Hjl & _) (mh & jh & Hh & Hmh & Hjh & Hmax) [H1 H2].
  assert (Hx' : (0 < Qred x)%Q) by now rewrite Qred_correct.
  assert (Hup : (nearest (Qred x) <= hi)%Q).
  { apply (nearest_le _ _ mh jh); try assumption. now rewrite Qred_correct. }
  assert (Hlo : (lo <= nearest (Qred x))%Q).
  { apply (nearest_ge _ _ ml jl); try assumption. now rewrite Qred_correct. }
  exists (nearest (Qred x)). split; [|now split].
  apply round64_positive; [assumption|]. lra.
Qed.

Lemma nearest_reduced (a : Q) : Qred (nearest a) = nearest a.
Proof.
  unfold nearest. apply Qred_complete. apply Qred_correct.
Qed.

Lemma round64_comp (x y : Q) : (x == y)%Q -> round64 x = round64 y.
Proof.
  intros E. unfold round64. rewrite (Qred_complete x y E).
  rewrite (Qred_complete (- x) (- y)) by now rewrite E. reflexivity.
Qed.

Lemma round64_reduced (x y : Q) :
  (0 <= x)%Q -> round64 x = Finite y -> Qred y = y.
Proof.
  intros Hx. unfold round64.
  destruct (Qred x ?= 0)%Q eqn:C.
  - intros H. inversion H. reflexivity.
  - apply Qlt_alt in C. rewrite Qred_correct in C. lra.
  - destruct (Qle_bool (pow2 1024) (nearest (Qred x))); [discriminate|].
    intros H. inversion H. apply nearest_reduced.
Qed.

Lemma round64_exact (r : Q) : representable r -> round64 r = Finite (Qred r).
Proof.
  intros Hr. destruct (Qlt_le_dec 0 r) as [Hpos|Hneg].
  - destruct (round64_between r r r Hpos Hr Hr) as (y & Hy & Hlo & Hhi); [lra|].
    rewrite Hy. f_equal. rewrite <- (round64_reduced r y) by (try lra; assumption).
    apply Qred_complete. lra.
  - destruct Hr as (m & j & Hr & Hm & _).
    assert (H0 : (0 <= inject_Z m)%Q).
    { change 0%Q with (inject_Z 0). rewrite <- Zle_Qle. lia. }
    pose proof (pow2_pos j) as Hp.
    assert (Hz : (r == 0)%Q) by (rewrite Hr in *; nra).
    rewrite (round64_zero r Hz). f_equal. symmetry.
    change 0%Q with (Qred 0). now apply Qred_complete.
Qed.

Lemma representable_comp (x y : Q) : (x == y)%Q -> representable x -> representable y.
Proof.
  intros E (m & j & Hr & Hm & Hj & Hmax). exists m, j.
  split; [now rewrite <- E|]. split; [assumption|]. split; [assumption|].
  now rewrite <- E.
Qed.

Lemma representable_integer (z : Z) : 0 <= z < 2 ^ 53 -> representable (inject_Z z).
Proof.
  intros Hz. exists z, 0. split; [unfold pow2; simpl; ring|].
  split; [assumption|]. split; [lia|].
  rewrite pow2_Z by lia. rewrite <- Zlt_Qlt.
  assert (2 ^ 53 < 2 ^ 1024) by (apply Z.pow_lt_mono_r; lia). lia.
Qed.

Lemma representable_half (z : Z) :
  0 <= z < 2 ^ 53 -> representable (inject_Z z * (1 # 2)).
Proof.
  intros Hz. exists z, (- 1). split; [reflexivity|].
  split; [assumption|]. split; [lia|].
  assert (H1 : (inject_Z z < inject_Z (2 ^ 53))%Q) by (rewrite <- Zlt_Qlt; lia).
  assert (H2 : (inject_Z (2 ^ 53) < inject_Z (2 ^ 1024))%Q).
  { rewrite <- Zlt_Qlt. apply Z.pow_lt_mono_r; lia. }
  rewrite pow2_Z by lia.
  assert (H0 : (0 <= inject_Z z)%Q).
  { change 0%Q with (inject_Z 0). rewrite <- Zle_Qle. lia. }
  lra.
Qed.

Lemma inject_Z_minus (x y : Z) : (inject_Z (x - y) == inject_Z x - inject_Z y)%Q.
Proof.
  unfold Z.sub. rewrite inject_Z_plus, inject_Z_opp. reflexivity.
Qed.

Lemma Qfloor_unique (z : Q) (n : Z) :
  (inject_Z n <= z)%Q -> (z < inject_Z (n + 1))%Q -> Qfloor z = n.
Proof.
  intros Hlo Hhi.
  pose proof (Qfloor_le z) as H1. pose proof (Qlt_floor z) as H2.
  assert (H3 : (inject_Z n < inject_Z (Qfloor z + 1))%Q) by lra.
  assert (H4 : (inject_Z (Qfloor z) < inject_Z (n + 1))%Q) by lra.
  rewrite <- Zlt_Qlt in H3, H4. lia.
Qed.

Lemma pow2_ratio (k : Z) :
  0 <= k -> (pow2 (k - 52) * inject_Z (2 ^ 52) == inject_Z (2 ^ k))%Q.
Proof.
  intros Hk. rewrite <- !pow2_Z by lia. rewrite <- pow2_add.
  replace (k - 52 + 52) with k by lia. reflexivity.
Qed.

(** The core of [int(x / f + 0.5)]: for a quotient of two small integers the
    two roundings do not change the integer that comes out. *)
Lemma rounded_quotient_plus_half (q : Q) (A B : Z) :
  0 <= A -> 1 <= B -> (q == inject_Z A / inject_Z B)%Q ->
  2 * A + 3 * B <= 2 ^ 52 ->
  exists y z,
    round64 q = Finite y
    /\ round64 (y + (1 # 2)) = Finite z
    /\ Py.int_of_float z = round_half_up q
    /\ 0 <= round_half_up q < 2 ^ 52.
Proof.
  intros HA HB Hq Hsmall.
  set (n := round_half_up q).
  pose proof (Qfloor_le (q + (1 # 2))%Q) as Hn1.
  pose proof (Qlt_floor (q + (1 # 2))%Q) as Hn2.
  fold (round_half_up q) in Hn1, Hn2. fold n in Hn1, Hn2.
  rewrite inject_Z_plus in Hn2. change (inject_Z 1) with 1%Q in Hn2.
  set (a := inject_Z A) in *. set (b := inject_Z B) in *.
  assert (Hb : (1 <= b)%Q).
  { unfold b. change 1%Q with (inject_Z 1). rewrite <- Zle_Qle. lia. }
  assert (Ha : (0 <= a)%Q).
  { unfold a. change 0%Q with (inject_Z 0). rewrite <- Zle_Qle. lia. }
  assert (Hqb : (q * b == a)%Q) by (rewrite Hq; field; lra).
  assert (Hq0 : (0 <= q)%Q) by (rewrite Hq; apply Qle_shift_div_l; lra).
  (* integer facts *)
  assert (Z1 : (2 * n - 1) * B <= 2 * A).
  { assert (H : (inject_Z ((2 * n - 1) * B) <= inject_Z (2 * A))%Q).
    { rewrite !inject_Z_mult, inject_Z_minus, inject_Z_mult. fold a b.
      change (inject_Z 2) with 2%Q. change (inject_Z 1) with 1%Q. nra. }
    now rewrite <- Zle_Qle in H. }
  assert (Z2 : 2 * A + 1 <= (2 * n + 1) * B).
  { assert (H : (inject_Z (2 * A) < inject_Z ((2 * n + 1) * B))%Q).
    { rewrite !inject_Z_mult, inject_Z_plus, inject_Z_mult. fold a b.
      change (inject_Z 2) with 2%Q. change (inject_Z 1) with 1%Q. nra. }
    rewrite <- Zlt_Qlt in H. lia. }
  assert (Zn : 0 <= n).
  { assert (H : (inject_Z (- 1) < inject_Z n)%Q).
    { change (inject_Z (- 1)) with (- 1)%Q. lra. }
    rewrite <- Zlt_Qlt in H. lia. }
  assert (Z3 : 2 * (n + 1) * B <= 2 ^ 52) by nia.
  assert (Z4 : n + 1 <= 2 ^ 51) by nia.
  set (k := Z.log2 (n + 1)).
  destruct (Z.log2_spec (n + 1)) as [Hk1 Hk2]; [lia|]. fold k in Hk1, Hk2.
  assert (Hk0 : 0 <= k) by apply Z.log2_nonneg.
  assert (Hk51 : k <= 51).
  { apply (Z.pow_le_mono_r_iff 2); lia. }
  set (s := pow2 (k - 52)).
  assert (Hs : (s * inject_Z (2 ^ 52) == inject_Z (2 ^ k))%Q) by (apply pow2_ratio; lia).
  assert (Hspos : (0 < s)%Q) by apply pow2_pos.
  set (nn := inject_Z n) in *.
  assert (Hnn : (0 <= nn)%Q).
  { unfold nn. change 0%Q with (inject_Z 0). rewrite <- Zle_Qle. lia. }
  assert (Hp : (inject_Z (2 ^ k) <= nn + 1)%Q).
  { unfold nn. change 1%Q with (inject_Z 1). rewrite <- inject_Z_plus, <- Zle_Qle. lia. }
  assert (HT : (2 * (nn + 1) * b <= inject_Z (2 ^ 52))%Q).
  { unfold nn, b. change 1%Q with (inject_Z 1). change 2%Q with (inject_Z 2).
    rewrite <- inject_Z_plus, <- !inject_Z_mult, <- Zle_Qle. lia. }
  assert (Hsb : (s * b <= 1 # 2)%Q).
  { assert (E : (s * b * inject_Z (2 ^ 52) == inject_Z (2 ^ k) * b)%Q).
    { rewrite <- Hs. ring. }
    assert (H1 : (inject_Z (2 ^ k) * b <= (nn + 1) * b)%Q) by nra.
    change (inject_Z (2 ^ 52)) with 4503599627370496%Q in *. lra. }
  assert (Z5 : (2 * A + 1 <= (2 * n + 1) * B)) by assumption.
  assert (Q5 : (2 * a + 1 <= (2 * nn + 1) * b)%Q).
  { unfold a, b, nn. change 1%Q with (inject_Z 1). change 2%Q with (inject_Z 2).
    rewrite <- !inject_Z_mult, <- !inject_Z_plus, <- inject_Z_mult, <- Zle_Qle. lia. }
  (* the doubles around the quotient *)
  set (lo := (inject_Z (Z.max (2 * n - 1) 0) * (1 # 2))%Q).
  set (hi := (nn + (1 # 2) - s)%Q).
  assert (Rlo : representable lo) by (apply representable_half; lia).
  assert (Hmax : (inject_Z (2 ^ 53) < pow2 1024)%Q).
  { rewrite pow2_Z by lia. rewrite <- Zlt_Qlt. apply Z.pow_lt_mono_r; lia. }
  assert (Rhi : representable hi).
  { exists ((2 * n + 1) * 2 ^ (51 - k) - 1), (k - 52).
    assert (Hm : 0 <= (2 * n + 1) * 2 ^ (51 - k) - 1 < 2 ^ 53).
    { assert (0 < 2 ^ (51 - k)) by (apply Z.pow_pos_nonneg; lia).
      assert (E : 2 ^ 53 = 2 ^ (k + 1) * (2 * 2 ^ (51 - k))).
      { rewrite <- (Z.pow_succ_r 2) by lia. rewrite <- Z.pow_add_r by lia.
        f_equal. lia. }
      split; [nia|]. rewrite E. nia. }
    assert (E : (hi == inject_Z ((2 * n + 1) * 2 ^ (51 - k) - 1) * pow2 (k - 52))%Q).
    { unfold hi. fold s. rewrite inject_Z_minus, inject_Z_mult, inject_Z_plus,
        inject_Z_mult. fold nn. rewrite <- (pow2_Z (51 - k)) by lia.
      change (inject_Z 2) with 2%Q. change (inject_Z 1) with 1%Q.
      assert (E1 : (pow2 (51 - k) * s == 1 # 2)%Q).
      { unfold s. rewrite <- pow2_add. replace (51 - k + (k - 52)) with (- 1) by lia.
        reflexivity. }
      setoid_replace ((((2 * nn + 1) * pow2 (51 - k) - 1) * s))%Q
        with ((2 * nn + 1) * (pow2 (51 - k) * s) - s)%Q by ring.
      rewrite E1. ring. }
    split; [exact E|]. split; [exact Hm|]. split; [lia|].
    assert (H1 : (hi < inject_Z (2 ^ 53))%Q).
    { unfold hi. assert (H2 : (nn + 1 <= inject_Z (2 ^ 51))%Q).
      { unfold nn. change 1%Q with (inject_Z 1).
        rewrite <- inject_Z_plus, <- Zle_Qle. lia. }
      change (inject_Z (2 ^ 51)) with 2251799813685248%Q in H2.
      change (inject_Z (2 ^ 53)) with 9007199254740992%Q. lra. }
    lra. }
  set (hi2 := (nn + 1 - s)%Q).
  assert (Rhi2 : representable hi2).
  { exists ((n + 1) * 2 ^ (52 - k) - 1), (k - 52).
    assert (Hm : 0 <= (n + 1) * 2 ^ (52 - k) - 1 < 2 ^ 53).
    { assert (0 < 2 ^ (52 - k)) by (apply Z.pow_pos_nonneg; lia).
      assert (E : 2 ^ 53 = 2 ^ (k + 1) * 2 ^ (52 - k)).
      { rewrite <- Z.pow_add_r by lia. f_equal. lia. }
      split; [nia|]. rewrite E. nia. }
    assert (E : (hi2 == inject_Z ((n + 1) * 2 ^ (52 - k) - 1) * pow2 (k - 52))%Q).
    { unfold hi2. fold s. rewrite inject_Z_minus, inject_Z_mult, inject_Z_plus.
      fold nn. rewrite <- (pow2_Z (52 - k)) by lia.
      change (inject_Z 1) with 1%Q.
      assert (E1 : (pow2 (52 - k) * s == 1)%Q).
      { unfold s. rewrite <- pow2_add. replace (52 - k + (k - 52)) with 0 by lia.
        reflexivity. }
      setoid_replace ((((nn + 1) * pow2 (52 - k) - 1) * s))%Q
        with ((nn + 1) * (pow2 (52 - k) * s) - s)%Q by ring.
      rewrite E1. ring. }
    split; [exact E|]. split; [exact Hm|]. split; [lia|].
    assert (H1 : (hi2 < inject_Z (2 ^ 53))%Q).
    { unfold hi2. assert (H2 : (nn + 1 <= inject_Z (2 ^ 51))%Q).
      { unfold nn. change 1%Q with (inject_Z 1).
        rewrite <- inject_Z_plus, <- Zle_Qle. lia. }
      change (inject_Z (2 ^ 51)) with 2251799813685248%Q in H2.
      change (inject_Z (2 ^ 53)) with 9007199254740992%Q. lra. }
    lra. }
  assert (Hlo_q : (lo <= q)%Q).
  { unfold lo. destruct (Z.max_spec (2 * n - 1) 0) as [[_ ->]|[Hc ->]].
    - change (inject_Z 0) with 0%Q. lra.
    - rewrite inject_Z_minus, inject_Z_mult. fold nn.
      change (inject_Z 2) with 2%Q. change (inject_Z 1) with 1%Q. lra. }
  assert (Hq_hi : (q <= hi)%Q).
  { unfold hi. apply Qnot_lt_le. intros Hc. nra. }
  assert (Hlo_n : (nn <= lo + (1 # 2))%Q).
  { unfold lo. destruct (Z.max_spec (2 * n - 1) 0) as [[Hc ->]|[Hc ->]].
    - assert (Hn0 : n = 0) by lia. unfold nn. rewrite Hn0.
      change (inject_Z 0) with 0%Q. lra.
    - rewrite inject_Z_minus, inject_Z_mult. fold nn.
      change (inject_Z 2) with 2%Q. change (inject_Z 1) with 1%Q. lra. }
  assert (Hlo0 : (0 <= lo)%Q).
  { unfold lo. assert (H : (0 <= inject_Z (Z.max (2 * n - 1) 0))%Q).
    { change 0%Q with (inject_Z 0). rewrite <- Zle_Qle. lia. }
    lra. }
  destruct (Qlt_le_dec 0 q) as [Hpos|Hzero].
  - destruct (round64_between q lo hi Hpos Rlo Rhi) as (y & Hy & Hy1 & Hy2);
      [now split|].
    assert (Rlo2 : representable (lo + (1 # 2))).
    { apply (representable_comp (inject_Z (Z.max (2 * n - 1) 0 + 1) * (1 # 2))).
      - unfold lo. rewrite inject_Z_plus. change (inject_Z 1) with 1%Q. ring.
      - apply representable_half. lia. }
    destruct (round64_between (y + (1 # 2)) (lo + (1 # 2)) hi2) as (z & Hz & Hz1 & Hz2);
      [lra|assumption|assumption|unfold hi2; unfold hi in Hy2; split; lra|].
    exists y, z. split; [assumption|]. split; [assumption|]. split; [|lia].
    rewrite int_of_float_nonneg by lra. apply Qfloor_unique.
    + fold nn. lra.
    + rewrite inject_Z_plus. fold nn. change (inject_Z 1) with 1%Q.
      unfold hi2 in Hz2. lra.
  - assert (Hq00 : (q == 0)%Q) by lra.
    exists 0%Q, (1 # 2)%Q. split; [now apply round64_zero|].
    split; [reflexivity|]. split; [|lia].
    unfold n, round_half_up. rewrite (Qfloor_comp (q + (1 # 2)) (1 # 2)) by lra.
    reflexivity.
Qed.

Lemma is_double_round64 (q : Q) :
  (0 <= q)%Q -> is_double q = true -> round64 q = Finite (Qred q).
Proof.
  intros Hq. unfold is_double. destruct (round64 q) as [r| |] eqn:E; try discriminate.
  intros H. apply Qeq_bool_eq in H. f_equal.
  rewrite <- (round64_reduced q r Hq E). now apply Qred_complete.
Qed.

(** Away from the subnormal range a rounding moves a value by at most the
    fraction [2^-53] of it. *)
Lemma round64_error (x y : Q) :
  (pow2 (- 1022) <= x)%Q -> round64 x = Finite y ->
  (Qabs (y - x) <= x * pow2 (- 53))%Q.
Proof.
  intros Hx Hy. pose proof (pow2_pos (- 1022)) as Hmin.
  assert (Hpos : (0 < x)%Q) by lra.
  assert (Hx' : (0 < Qred x)%Q) by now rewrite Qred_correct.
  unfold round64 in Hy.
  assert (E : (Qred x ?= 0)%Q = Gt) by (apply Qgt_alt; now rewrite Qred_correct).
  rewrite E in Hy.
  destruct (Qle_bool (pow2 1024) (nearest (Qred x))); [discriminate|].
  inversion Hy as [Ey]. clear Hy Ey.
  destruct (floor_log2_spec (Qred x) Hx') as [Hlo Hhi].
  set (e := floor_log2 (Qred x)) in *.
  pose proof (Qred_correct x) as Hred.
  assert (Hlo' : (pow2 e <= x)%Q) by lra.
  assert (Hhi' : (x < pow2 (e + 1))%Q) by lra.
  assert (He : - 1022 <= e).
  { assert (H : (pow2 (- 1022) < pow2 (e + 1))%Q) by lra.
    apply Qpower_lt_compat_l_inv in H; [lia|reflexivity]. }
  assert (Eu : (ulp (Qred x) == pow2 e * pow2 (- 52))%Q).
  { unfold ulp. fold e. rewrite <- pow2_add. replace (Z.max e (- 1022)) with e by lia.
    reflexivity. }
  pose proof (ulp_pos (Qred x)) as Hu.
  pose proof (round_half_even_near (Qred x / ulp (Qred x))) as Hnear.
  rewrite nearest_eq.
  set (k := inject_Z (round_half_even (Qred x / ulp (Qred x)))) in *.
  set (u := ulp (Qred x)) in *.
  assert (Et : (Qred x / u * u == x)%Q).
  { rewrite Qred_correct. field. lra. }
  set (t := (Qred x / u)%Q) in *.
  assert (E53 : (pow2 (- 53) == pow2 (- 52) * (1 # 2))%Q) by reflexivity.
  apply Qabs_Qle_condition in Hnear. destruct Hnear as [Hn1 Hn2].
  apply Qabs_Qle_condition.
  assert (Hhalf : (u * (1 # 2) <= x * pow2 (- 53))%Q).
  { rewrite E53, Eu. pose proof (pow2_pos (- 52)). pose proof (pow2_pos e). nra. }
  split; nra.
Qed.

(** The same for a quotient given by its value. *)
Lemma int_of_rounded_quotient (q : Q) :
  (0 <= q)%Q -> small_ratio q ->
  exists y z,
    round64 q = Finite y
    /\ round64 (y + (1 # 2)) = Finite z
    /\ Py.int_of_float z = round_half_up q
    /\ 0 <= round_half_up q < 2 ^ 52.
Proof.
  intros Hq Hs. unfold small_ratio in Hs.
  pose proof (Qred_correct q) as Hr.
  destruct (Qred q) as [A B] eqn:E. simpl in Hs.
  apply (rounded_quotient_plus_half q A (Zpos B)).
  - assert (H : (0 <= A # B)%Q) by lra. unfold Qle in H. simpl in H. lia.
  - lia.
  - rewrite <- Hr. apply Qmake_Qdiv.
  - exact Hs.
Qed.

Lemma Qred_inject_Z (z : Z) : Qred (inject_Z z) = inject_Z z.
Proof.
  pose proof (Qred_correct (inject_Z z)) as E. pose proof (gcd_Qred (inject_Z z)) as G.
  destruct (Qred (inject_Z z)) as [a b]. unfold Qeq in E. simpl in E, G.
  assert (Ea : a = z * Zpos b) by lia. subst a.
  rewrite Z.gcd_comm, Z.mul_comm, Z.gcd_mul_diag_l in G by lia.
  assert (Eb : b = 1%positive) by lia. subst b.
  unfold inject_Z. f_equal. lia.
Qed.

Lemma float_of_int64_exact (z : Z) :
  0 <= z < 2 ^ 53 -> float_of_int64 z = Finite (inject_Z z).
Proof.
  intros Hz. unfold float_of_int64.
  rewrite (round64_exact _ (representable_integer z Hz)). now rewrite Qred_inject_Z.
Qed.

Lemma float_of_int_exact (z : Z) :
  0 <= z < 2 ^ 53 -> float_of_int z = inr (Finite (inject_Z z)).
Proof.
  intros Hz. unfold float_of_int. fold (float_of_int64 z).
  now rewrite float_of_int64_exact.
Qed.

Lemma Qeq_bool_nonzero (x : Q) : ~ (x == 0)%Q -> Qeq_bool x 0 = false.
Proof.
  intros H. destruct (Qeq_bool x 0) eqn:E; [|reflexivity].
  apply Qeq_bool_eq in E. contradiction.
Qed.

(** [int(sz / float(sf) + 0.5)] on a positive double [f]. *)
Lemma new_size_entry_round64 (sz : Z) (f : Q) :
  0 <= sz < 2 ^ 53 -> (0 < f)%Q -> is_double f = true ->
  small_ratio (inject_Z sz / f) ->
  new_size_entry sz (round64 f) = inr (round_half_up (inject_Z sz / f))
  /\ 0 <= round_half_up (inject_Z sz / f) < 2 ^ 52.
Proof.
  intros Hsz Hf Hd Hs.
  assert (Hq : (0 <= inject_Z sz / f)%Q).
  { apply Qle_shift_div_l; [assumption|].
    assert (H : (0 <= inject_Z sz)%Q).
    { change 0%Q with (inject_Z 0). rewrite <- Zle_Qle. lia. }
    lra. }
  destruct (int_of_rounded_quotient _ Hq Hs) as (y & z & Hy & Hz & Hint & Hrange).
  split; [|exact Hrange].
  unfold new_size_entry. rewrite (float_of_int_exact sz Hsz).
  rewrite (is_double_round64 f) by (try lra; assumption).
  pose proof (Qred_correct f) as Hr.
  unfold truediv, is_zero. rewrite Qeq_bool_nonzero by lra.
  unfold div. rewrite Qeq_bool_nonzero by lra.
  rewrite (round64_comp (inject_Z sz / Qred f) (inject_Z sz / f)) by now rewrite Hr.
  rewrite Hy. unfold add. rewrite Hz. unfold int. now rewrite Hint.
Qed.

Lemma representable_pow2 (j : Z) : - 1074 <= j < 1024 -> representable (pow2 j).
Proof.
  intros Hj. exists 1, j. split; [ring|]. split; [lia|]. split; [lia|].
  apply pow2_lt. lia.
Qed.

(** [((original_sz - 1) * original_spc) / (new_sz - 1)]: a finite double,
    the exact quotient up to two roundings, and the exact quotient itself
    when the product and the quotient are doubles. *)
Lemma new_spacing_entry_value (osz nsz : Z) (sp : Q) :
  2 <= osz < 2 ^ 53 -> 2 <= nsz < 2 ^ 53 ->
  is_double sp = true -> (pow2 (- 900) <= sp <= pow2 900)%Q ->
  let exact := (inject_Z (osz - 1) * sp / inject_Z (nsz - 1))%Q in
  exists v,
    new_spacing_entry osz sp nsz = inr (Finite v)
    /\ two_roundings v exact
    /\ (is_double (inject_Z (osz - 1) * sp) = true -> is_double exact = true ->
        v = Qred exact).
Proof.
  intros Ho Hn Hd [Hsp1 Hsp2] exact.
  pose proof (pow2_pos (- 900)) as Hp900.
  assert (Ha : (1 <= inject_Z (osz - 1))%Q).
  { change 1%Q with (inject_Z 1). rewrite <- Zle_Qle. lia. }
  assert (Ha2 : (inject_Z (osz - 1) <= pow2 53)%Q).
  { rewrite pow2_Z by lia. rewrite <- Zle_Qle. lia. }
  assert (Hb : (1 <= inject_Z (nsz - 1))%Q).
  { change 1%Q with (inject_Z 1). rewrite <- Zle_Qle. lia. }
  assert (Hb2 : (inject_Z (nsz - 1) <= pow2 53)%Q).
  { rewrite pow2_Z by lia. rewrite <- Zle_Qle. lia. }
  set (a := inject_Z (osz - 1)) in *. set (b := inject_Z (nsz - 1)) in *.
  assert (E953 : (pow2 953 == pow2 53 * pow2 900)%Q) by (rewrite <- pow2_add; reflexivity).
  assert (E900 : (pow2 (- 900) == pow2 53 * pow2 (- 953))%Q)
    by (rewrite <- pow2_add; reflexivity).
  pose proof (pow2_pos 53) as Hp53. pose proof (pow2_pos 900) as Hq900.
  pose proof (pow2_pos (- 953)) as Hp953. pose proof (pow2_pos 953) as Hq953.
  pose proof (Qred_correct sp) as Hr.
  (* the product *)
  assert (Hx1 : (pow2 (- 900) <= a * sp <= pow2 953)%Q) by (split; nra).
  destruct (round64_between (a * sp) (pow2 (- 900)) (pow2 953)) as (p & Hp & Hp1 & Hp2);
    [nra|apply representable_pow2; lia|apply representable_pow2; lia|exact Hx1|].
  assert (Hmin : (pow2 (- 1022) <= pow2 (- 953))%Q) by (apply pow2_le; lia).
  assert (Hmin2 : (pow2 (- 953) <= pow2 (- 900))%Q) by (apply pow2_le; lia).
  pose proof (round64_error (a * sp) p) as Herr1.
  (* the quotient *)
  assert (Hx2 : (pow2 (- 953) <= p / b <= pow2 953)%Q).
  { split.
    - apply Qle_shift_div_l; [lra|]. nra.
    - apply Qle_shift_div_r; [lra|]. nra. }
  destruct (round64_between (p / b) (pow2 (- 953)) (pow2 953)) as (v & Hv & Hv1 & Hv2);
    [lra|apply representable_pow2; lia|apply representable_pow2; lia|exact Hx2|].
  pose proof (round64_error (p / b) v) as Herr2.
  assert (Hrun : new_spacing_entry osz sp nsz = inr (Finite v)).
  { unfold new_spacing_entry.
    rewrite (float_of_int_exact (osz - 1)) by lia.
    rewrite (float_of_int_exact (nsz - 1)) by lia.
    rewrite (is_double_round64 sp) by (try lra; assumption).
    unfold mul. fold a b.
    rewrite (round64_comp (a * Qred sp) (a * sp)) by now rewrite Hr.
    rewrite Hp. unfold truediv, is_zero. rewrite Qeq_bool_nonzero by lra.
    unfold div. rewrite Qeq_bool_nonzero by lra. now rewrite Hv. }
  exists v. split; [exact Hrun|]. split.
  - unfold two_roundings. fold a b in exact.
    specialize (Herr1 ltac:(lra) Hp). specialize (Herr2 ltac:(lra) Hv).
    apply Qabs_Qle_condition in Herr1. apply Qabs_Qle_condition in Herr2.
    apply Qabs_Qle_condition.
    set (d := pow2 (- 53)) in *.
    assert (Hd1 : (0 < d)%Q) by apply pow2_pos.
    assert (Hd2 : (d <= 1 # 4)%Q).
    { unfold d. change (1 # 4)%Q with (pow2 (- 2)). apply pow2_le. lia. }
    assert (E51 : (pow2 (- 51) == 4 * d)%Q) by reflexivity.
    rewrite E51.
    assert (Ee : (exact * b == a * sp)%Q) by (unfold exact; field; lra).
    assert (Ex2 : (p / b * b == p)%Q) by (field; lra).
    set (x2 := (p / b)%Q) in *.
    assert (Hexact : (0 < exact)%Q).
    { unfold exact. apply Qlt_shift_div_l; lra. }
    (* |x2 - exact| <= exact * d *)
    assert (H1 : (- (exact * d) <= x2 - exact <= exact * d)%Q).
    { destruct Herr1 as [L U]. split; apply Qnot_lt_le; intros Hc; nra. }
    destruct Herr2 as [L2 U2]. destruct H1 as [L1 U1].
    split; nra.
  - intros Hd1 Hd2.
    assert (Ep : p = Qred (a * sp)).
    { rewrite (is_double_round64 (a * sp)) in Hp by (try lra; assumption).
      now inversion Hp. }
    assert (Eq : (p / b == exact)%Q).
    { rewrite Ep, Qred_correct. reflexivity. }
    rewrite (round64_comp _ _ Eq) in Hv.
    rewrite (is_double_round64 exact) in Hv; [now inversion Hv| |assumption].
    unfold exact. apply Qle_shift_div_l; lra.
Qed.

Lemma new_spacing_entry_rounded (osz nsz : Z) (sp : Q) :
  2 <= osz < 2 ^ 53 -> 2 <= nsz < 2 ^ 53 -> regular_spacing sp ->
  exists out,
    new_spacing_entry osz sp nsz = inr out /\ rounded_spacing out (osz, sp, nsz).
Proof.
  intros Ho Hn [Hd Hr].
  destruct (new_spacing_entry_value osz nsz sp Ho Hn Hd Hr) as (v & Hrun & Hclose & Hexact).
  exists (Finite v). split; [exact Hrun|]. exists v. now split.
Qed.

Lemma mapR_Forall2 {A B} (f : A -> Py.result B) (R : B -> A -> Prop) (l : list A) :
  (forall a, In a l -> exists b, f a = inr b /\ R b a) ->
  exists bs, Py.mapR f l = inr bs /\ Forall2 R bs l.
Proof.
  induction l as [|a l IH]; intros H.
  - exists []. split; [reflexivity|constructor].
  - destruct (H a (or_introl eq_refl)) as (b & Hb & Rb).
    destruct IH as (bs & Hbs & Rbs); [intros x Hx; apply H; now right|].
    exists (b :: bs). simpl. rewrite Hb, Hbs. split; [reflexivity|now constructor].
Qed.

Lemma mapR_zip {A B C} (f : A -> B -> Py.result C) (g : A -> B -> C)
  (R : A -> B -> Prop) (l : list A) (m : list B) :
  (forall a b, R a b -> f a b = inr (g a b)) -> Forall2 R l m ->
  Py.mapR (fun p => f (fst p) (snd p)) (combine l m) = inr (Py.zip_with g l m).
Proof.
  intros H HR. induction HR as [|a b l m Hab HR IH]; [reflexivity|].
  simpl. now rewrite (H a b Hab), IH.
Qed.

Lemma mapR_repeat {A B C} (f : A -> B -> Py.result C) (b : B) (l : list A) :
  Py.mapR (fun a => f a b) l
  = Py.mapR (fun p => f (fst p) (snd p)) (combine l (repeat b (List.length l))).
Proof.
  induction l as [|a l IH]; [reflexivity|]. simpl. now rewrite IH.
Qed.

Lemma new_size_regular (shrink_factor : per_axis) (sizes : list Z) (spacings : list Q) :
  Forall2 regular_factor sizes (factors shrink_factor (List.length sizes)) ->
  Binary64.new_size false shrink_factor sizes spacings
  = inr (spec_size sizes (factors shrink_factor (List.length sizes))).
Proof.
  intros H. unfold Binary64.new_size, spec_size.
  assert (Hentry : forall sz f, regular_factor sz f ->
            Binary64.new_size_entry sz (round64 f)
            = inr (round_half_up (inject_Z sz / f))).
  { intros sz f (Hsz & Hf & Hd & Hs & _).
    apply new_size_entry_round64; try assumption. lia. }
  destruct shrink_factor as [f|l]; simpl in *.
  - rewrite (mapR_repeat (fun sz f => Binary64.new_size_entry sz (round64 f))).
    now apply (mapR_zip (fun sz f => Binary64.new_size_entry sz (round64 f))
                        (fun sz f => round_half_up (inject_Z sz / f)) regular_factor).
  - now apply (mapR_zip (fun sz f => Binary64.new_size_entry sz (round64 f))
                        (fun sz f => round_half_up (inject_Z sz / f)) regular_factor).
Qed.

Lemma new_spacing_regular (sizes : list Z) (spacings : list Q) (new_sizes : list Z) :
  Forall (fun sz => 2 <= sz < 2 ^ 53) sizes ->
  Forall regular_spacing spacings ->
  Forall (fun n => 2 <= n < 2 ^ 53) new_sizes ->
  exists sps,
    Binary64.new_spacing sizes spacings new_sizes = inr sps
    /\ Forall2 rounded_spacing sps (combine (combine sizes spacings) new_sizes).
Proof.
  intros Hsz Hsp Hn. unfold Binary64.new_spacing.
  apply mapR_Forall2. intros [[sz sp] n] Hin.
  rewrite Forall_forall in Hsz, Hsp, Hn.
  pose proof (in_combine_r _ _ _ _ Hin) as Hn'.
  apply in_combine_l in Hin.
  pose proof (in_combine_l _ _ _ _ Hin) as Hsz'.
  pose proof (in_combine_r _ _ _ _ Hin) as Hsp'.
  apply new_spacing_entry_rounded; auto.
Qed.

Lemma spec_size_range (sizes : list Z) (fs : list Q) :
  Forall2 regular_factor sizes fs ->
  Forall (fun n => 2 <= n < 2 ^ 53) (spec_size sizes fs).
Proof.
  intros H. unfold spec_size. induction H as [|sz f sizes fs Hf H IH]; simpl;
    constructor; [|exact IH].
  destruct Hf as (Hsz & Hf & Hd & Hs & Hn). split; [exact Hn|].
  destruct (new_size_entry_round64 sz f) as [_ Hr]; try assumption; lia.
Qed.

Lemma Forall2_left {A B} (R : A -> B -> Prop) (P : A -> Prop) (l : list A) (m : list B) :
  (forall a b, R a b -> P a) -> Forall2 R l m -> Forall P l.
Proof.
  intros H HR. induction HR; constructor; eauto.
Qed.

Lemma regular_level_request
  (square : Q -> Py.result Q) (image smoothed_image : Image)
  (shrink_factor : per_axis) (smoothing_sigma : Q) (resampler : Z) :
  let sizes := GetSize image in
  let fs := factors shrink_factor (List.length sizes) in
  Binary64.smoothed square image smoothing_sigma = inr smoothed_image ->
  Forall2 regular_factor sizes fs ->
  Forall regular_spacing (GetSpacing image) ->
  exists request,
    Binary64.smooth_and_resample square image shrink_factor smoothing_sigma false
                                 resampler
    = inr request
    /\ request.(Binary64.image1) = smoothed_image
    /\ request.(Binary64.requested_size) = spec_size sizes fs
    /\ Forall2 rounded_spacing request.(Binary64.outputSpacing)
               (combine (combine sizes (GetSpacing image)) (spec_size sizes fs))
    /\ request.(Binary64.outputOrigin) = GetOrigin image
    /\ request.(Binary64.outputDirection) = GetDirection image
    /\ request.(Binary64.outputPixelType) = GetPixelID image
    /\ request.(Binary64.interpolator) = resampler.
Proof.
  intros sizes fs Hsm Hf Hsp.
  destruct (new_spacing_regular sizes (GetSpacing image) (spec_size sizes fs))
    as (sps & Hsps & Hrounded).
  - apply (Forall2_left regular_factor _ _ _ (fun sz f H => proj1 H) Hf).
  - exact Hsp.
  - now apply spec_size_range.
  - eexists. split.
    + unfold Binary64.smooth_and_resample. rewrite Hsm.
      fold sizes. rewrite (new_size_regular shrink_factor sizes _ Hf). fold fs.
      rewrite Hsps. reflexivity.
    + repeat split; try reflexivity. exact Hrounded.
Qed.

(** One entry of [(number_points + 0.5).astype(int)]. *)
Lemma mesh_entry64 (sz : Z) (sp d : Q) :
  regular_mesh (sz, sp) d ->
  astype_int (add (div (mul (float_of_int64 sz) (round64 sp)) (round64 d))
                  (Finite (1 # 2)))
  = Some (round_half_up (inject_Z sz * sp / d)).
Proof.
  intros (Hsz & Hsp & Hdsp & Hd & Hdd & Hprod & Hs).
  assert (Hz : (0 <= inject_Z sz)%Q).
  { change 0%Q with (inject_Z 0). rewrite <- Zle_Qle. lia. }
  assert (Hp : (0 <= inject_Z sz * sp)%Q) by nra.
  assert (Hq : (0 <= inject_Z sz * sp / d)%Q) by (apply Qle_shift_div_l; lra).
  destruct (int_of_rounded_quotient _ Hq Hs) as (y & z & Hy & Hz' & Hint & Hrange).
  rewrite (float_of_int64_exact sz Hsz).
  rewrite (is_double_round64 sp Hsp Hdsp).
  rewrite (is_double_round64 d) by (try lra; assumption).
  pose proof (Qred_correct sp) as Hr1. pose proof (Qred_correct d) as Hr2.
  pose proof (Qred_correct (inject_Z sz * sp)) as Hr3.
  unfold mul.
  rewrite (round64_comp (inject_Z sz * Qred sp) (inject_Z sz * sp)) by now rewrite Hr1.
  rewrite (is_double_round64 _ Hp Hprod).
  unfold div. rewrite Qeq_bool_nonzero by lra.
  rewrite (round64_comp (Qred (inject_Z sz * sp) / Qred d) (inject_Z sz * sp / d))
    by (rewrite Hr2, Hr3; reflexivity).
  rewrite Hy. unfold add. rewrite Hz'. unfold astype_int. rewrite Hint.
  assert (H63 : 2 ^ 52 < 2 ^ 63) by (apply Z.pow_lt_mono_r; lia).
  replace (- 2 ^ 63 <=? round_half_up (inject_Z sz * sp / d)) with true
    by (symmetry; apply Z.leb_le; lia).
  replace (round_half_up (inject_Z sz * sp / d) <? 2 ^ 63) with true
    by (symmetry; apply Z.ltb_lt; lia).
  reflexivity.
Qed.

Lemma mesh_regular (sizes : list Z) (spacings ds : list Q) :
  Forall2 regular_mesh (combine sizes spacings) ds ->
  map (fun p => astype_int (add p (Finite (1 # 2))))
      (Py.zip_with div
         (Py.zip_with mul (map float_of_int64 sizes) (map round64 spacings))
         (map round64 ds))
  = spec_mesh sizes spacings ds.
Proof.
  unfold spec_mesh. revert spacings ds.
  induction sizes as [|sz sizes IH]; intros [|sp spacings] ds H; simpl in *;
    try reflexivity.
  inversion H as [|a d l ds' Hh Ht]; subst. simpl.
  rewrite (mesh_entry64 sz sp d Hh). f_equal. now apply IH.
Qed.

Lemma map_zip_with_repeat {A B C} (f : A -> B -> C) (l : list A) (b : B) (n : nat) :
  (List.length l <= n)%nat ->
  map (fun a => f a b) l = Py.zip_with f l (repeat b n).
Proof.
  revert n. induction l as [|a l IH]; intros [|n] H; simpl in *; try reflexivity;
    try lia.
  f_equal. apply IH. lia.
Qed.

Lemma zip_with_length_min {A B C} (f : A -> B -> C) (l : list A) (m : list B) :
  List.length (Py.zip_with f l m) = Nat.min (List.length l) (List.length m).
Proof.
  revert m. induction l as [|a l IH]; intros [|b m]; simpl; try reflexivity.
  now rewrite IH.
Qed.

Lemma is_double_comp (x y : Q) : (x == y)%Q -> is_double x = is_double y.
Proof.
  intros E. unfold is_double. rewrite (round64_comp x y E).
  destruct (round64 y) as [r| |]; try reflexivity.
  destruct (Qeq_bool r x) eqn:Hx, (Qeq_bool r y) eqn:Hy; try reflexivity.
  - apply Qeq_bool_eq in Hx. apply Qeq_bool_neq in Hy. rewrite <- E in Hy. contradiction.
  - apply Qeq_bool_eq in Hy. apply Qeq_bool_neq in Hx. rewrite E in Hx. contradiction.
Qed.

Lemma round_half_up_integer (z : Z) : round_half_up (inject_Z z / 1) = z.
Proof.
  unfold round_half_up. apply Qfloor_unique.
  - assert (E : (inject_Z z / 1 == inject_Z z)%Q) by field. lra.
  - rewrite inject_Z_plus. change (inject_Z 1) with 1%Q.
    assert (E : (inject_Z z / 1 == inject_Z z)%Q) by field. lra.
Qed.

Lemma unit_factor_regular (sz : Z) : 2 <= sz < 2 ^ 50 -> regular_factor sz 1.
Proof.
  intros Hsz. assert (H50 : 2 ^ 50 < 2 ^ 53) by (apply Z.pow_lt_mono_r; lia).
  split; [lia|]. split; [reflexivity|]. split; [reflexivity|]. split.
  - unfold small_ratio.
    rewrite (Qred_complete (inject_Z sz / 1) (inject_Z sz)) by field.
    rewrite Qred_inject_Z. cbn [Qnum Qden inject_Z].
    change (2 ^ 52) with (4 * 2 ^ 50). lia.
  - rewrite round_half_up_integer. lia.
Qed.

Lemma spec_size_unit (sizes : list Z) :
  spec_size sizes (repeat 1%Q (List.length sizes)) = sizes.
Proof.
  unfold spec_size. induction sizes as [|sz sizes IH]; simpl; [reflexivity|].
  now rewrite round_half_up_integer, IH.
Qed.

Lemma Forall2_repeat {A B} (R : A -> B -> Prop) (l : list A) (b : B) :
  Forall (fun a => R a b) l -> Forall2 R l (repeat b (List.length l)).
Proof.
  induction 1; simpl; constructor; assumption.
Qed.

Lemma rounded_spacing_same_size (out : float) (sz : Z) (sp : Q) :
  2 <= sz -> rounded_spacing out (sz, sp, sz) ->
  exists v,
    out = Finite v /\ two_roundings v sp
    /\ (is_double (inject_Z (sz - 1) * sp) = true -> is_double sp = true ->
        v = Qred sp).
Proof.
  intros Hsz (v & Hout & Hclose & Hexact).
  assert (Hz : (1 <= inject_Z (sz - 1))%Q).
  { change 1%Q with (inject_Z 1). rewrite <- Zle_Qle. lia. }
  assert (E : (exact_spacing sz sp sz == sp)%Q).
  { unfold exact_spacing. field. lra. }
  exists v. split; [exact Hout|]. split.
  - unfold two_roundings in *. now rewrite E in Hclose.
  - intros H1 H2. rewrite (Qred_complete sp (exact_spacing sz sp sz)) by now rewrite E.
    apply Hexact; [exact H1|]. now rewrite (is_double_comp _ sp E).
Qed.

Lemma rounded_spacing_same_sizes (sizes : list Z) (spacings : list Q)
  (outs : list float) :
  Forall (fun sz => 2 <= sz) sizes -> Forall regular_spacing spacings ->
  Forall2 rounded_spacing outs (combine (combine sizes spacings) sizes) ->
  Forall2 (fun out axis =>
             exists v,
               out = Finite v /\ two_roundings v (snd axis)
               /\ (is_double (inject_Z (fst axis - 1) * snd axis) = true ->
                   v = Qred (snd axis)))
          outs (combine sizes spacings).
Proof.
  revert spacings outs.
  induction sizes as [|sz sizes IH]; intros spacings outs Hsz Hsp H.
  - simpl in H. inversion H. constructor.
  - destruct spacings as [|sp spacings].
    + simpl in H. inversion H. constructor.
    + simpl in H. inversion H as [|out axis outs' rest Hhead Htail]; subst.
      inversion Hsz as [|? ? Hsz1 Hsz2]; subst.
      inversion Hsp as [|? ? Hsp1 Hsp2]; subst.
      simpl. constructor.
      * destruct (rounded_spacing_same_size out sz sp Hsz1 Hhead)
          as (v & Hv & Hclose & Hexact).
        exists v. split; [exact Hv|]. split; [exact Hclose|].
        intros Hprod. apply Hexact; [exact Hprod|]. apply Hsp1.
      * now apply IH.
Qed.

End Binary64Rounding.

(** ** control_point_spacing_distance_to_number *)

Section ControlPoints.

Import Binary64.

(** C8, amended.  [control_point_spacing_distance_to_number] computes, on
    every axis, [int(size * spacing / grid_spacing + 0.5)] in binary64: the
    product, the quotient and the sum are each rounded to the nearest double.
    On an axis with a non-negative spacing and a positive grid spacing (one
    number, or one per axis), where the product is a double and the quotient
    is a ratio [a / b] of integers with [2 a + 3 b <= 2^52], the result is
    [round(size * spacing / grid_spacing)], rounding to the nearest integer
    with halves upward. *)
Theorem control_points_in_binary64 (image : Image) (grid_spacing : per_axis) :
  let sizes := GetSize image in
  let ds := factors grid_spacing (List.length sizes) in
  List.length (GetSpacing image) = List.length sizes ->
  Forall2 regular_mesh (combine sizes (GetSpacing image)) ds ->
  Binary64.control_point_spacing_distance_to_number image grid_spacing
  = inr (spec_mesh sizes (GetSpacing image) ds).
Proof.
  intros sizes ds Hlen H.
  unfold Binary64.control_point_spacing_distance_to_number, Binary64.number_points.
  fold sizes.
  assert (Hpl : List.length (Py.zip_with mul (map float_of_int64 sizes)
                               (map round64 (GetSpacing image)))
                = List.length sizes).
  { rewrite zip_with_length_min, !length_map, Hlen. apply Nat.min_id. }
  destruct grid_spacing as [d|l]; simpl in ds.
  - f_equal. rewrite <- (mesh_regular sizes (GetSpacing image) ds H). f_equal.
    unfold ds. rewrite map_repeat. apply map_zip_with_repeat. lia.
  - assert (Hl : List.length l = List.length sizes).
    { apply Forall2_length in H. rewrite length_combine, Hlen, Nat.min_id in H.
      now symmetry. }
    unfold Py.broadcast. rewrite Hpl, length_map, Hl, Nat.eqb_refl. f_equal.
    now apply mesh_regular.
Qed.

(** At 256 voxels of 1.0 mm and a grid spacing of 64 mm the mesh size is 4;
    at 256 voxels of 0.5 mm it is 2. *)
Lemma control_points_in_binary64_witness :
  Binary64.control_point_spacing_distance_to_number
    (mkImage (mkGrid [256; 256; 256] [1; 1 # 2; 1]%Q [0; 0; 0]%Q
                     [1; 0; 0; 0; 1; 0; 0; 0; 1]%Q)
             sitk.sitkFloat32 (Stored "fixed"))
    (Scalar 64)
  = inr [Some 4; Some 2; Some 4].
Proof.
  apply (control_points_in_binary64
           (mkImage (mkGrid [256; 256; 256] [1; 1 # 2; 1]%Q [0; 0; 0]%Q
                            [1; 0; 0; 0; 1; 0; 0; 0; 1]%Q)
                    sitk.sitkFloat32 (Stored "fixed"))
           (Scalar 64)).
  - reflexivity.
  - repeat constructor; try reflexivity; try (vm_compute; discriminate).
Defined.

(** Where the product or the quotient is rounded, the integer can move.  At
    160 voxels of 0.6 mm and a grid spacing of 64 mm the code returns 2,
    while the quotient of the spacing the image holds, the double next to
    0.6, is below 1.5 and rounds to 1.  At 200 voxels of 2.3 mm and a grid
    spacing of 40 mm the code returns 11, while 200 * 2.3 / 40 = 11.5 rounds
    to 12. *)
Lemma mesh_size_is_not_the_rounded_quotient :
  let six_tenths := (5404319552844595 # 9007199254740992)%Q in
  let two_point_three := (2589569785738035 # 1125899906842624)%Q in
  round64 (6 # 10) = Finite six_tenths
  /\ round64 (23 # 10) = Finite two_point_three
  /\ Binary64.control_point_spacing_distance_to_number (cube 160 six_tenths)
                                                       (Scalar 64)
     = inr [Some 2; Some 2; Some 2]
  /\ spec_mesh [160; 160; 160] [six_tenths; six_tenths; six_tenths] [64; 64; 64]%Q
     = [Some 1; Some 1; Some 1]
  /\ Binary64.control_point_spacing_distance_to_number (cube 200 two_point_three)
                                                       (Scalar 40)
     = inr [Some 11; Some 11; Some 11]
  /\ spec_mesh [200; 200; 200] [23 # 10; 23 # 10; 23 # 10]%Q [40; 40; 40]%Q
     = [Some 12; Some 12; Some 12].
Proof.
  vm_compute. repeat split.
Qed.

End ControlPoints.

(** ** Structures are resampled with nearest-neighbour interpolation only *)

Lemma transform_propagation_structure
  (fixed_image moving_image : Image) (transform : Transform)
  (default_value : Q) (interp : Z) (log : list Event) :
  transform_propagation fixed_image moving_image transform true default_value interp log
  = if interp =? sitk.sitkNearestNeighbor
    then let out := propagated fixed_image moving_image transform default_value interp in
         (inr (casted out (GetPixelID moving_image)),
          log ++ [MadeImage out; MadeImage (casted out (GetPixelID moving_image))])
    else rejected log.
Proof.
  unfold transform_propagation, rejected, propagated, casted.
  destruct (interp =? sitk.sitkNearestNeighbor); cbn; [|reflexivity].
  now rewrite <- app_assoc.
Qed.

Lemma transform_propagation_image
  (fixed_image moving_image : Image) (transform : Transform)
  (default_value : Q) (interp : Z) (log : list Event) :
  transform_propagation fixed_image moving_image transform false default_value interp log
  = let out := propagated fixed_image moving_image transform default_value interp in
    (inr (casted out (GetPixelID moving_image)),
     log ++ [MadeImage out; MadeImage (casted out (GetPixelID moving_image))]).
Proof.
  unfold transform_propagation, propagated, casted. cbn.
  now rewrite <- app_assoc.
Qed.

Lemma apply_field_structure
  (input_image : Image) (transform : Transform)
  (default_value : Q) (interp : Z) (log : list Event) :
  apply_field input_image transform true default_value interp log
  = if interp =? sitk.sitkNearestNeighbor
    then let out := applied input_image transform default_value interp in
         (inr (casted out (GetPixelID input_image)),
          log ++ [MadeImage (casted input_image sitk.sitkFloat32); MadeImage out;
                  MadeImage (casted out (GetPixelID input_image))])
    else rejected log.
Proof.
  unfold apply_field, rejected, applied, casted.
  destruct (interp =? sitk.sitkNearestNeighbor); cbn; [|reflexivity].
  now rewrite <- !app_assoc.
Qed.

(** C1.  With [structure=True], [transform_propagation] and [apply_field]
    raise [ValueError] when the interpolator is not nearest-neighbour, and
    the log of library calls is then exactly what it was on entry: nothing
    was resampled.  With the nearest-neighbour interpolator no error is
    raised and the resampler is executed with that interpolator. *)
Theorem structure_interpolation_enforced
  (fixed_image moving_image : Image) (transform : Transform)
  (default_value : Q) (interp : Z) (log : list Event) :
  (transform_propagation fixed_image moving_image transform true default_value interp log
   = if interp =? sitk.sitkNearestNeighbor
     then let out := propagated fixed_image moving_image transform default_value
                                sitk.sitkNearestNeighbor in
          (inr (casted out (GetPixelID moving_image)),
           log ++ [MadeImage out; MadeImage (casted out (GetPixelID moving_image))])
     else rejected log)
  /\ (apply_field moving_image transform true default_value interp log
      = if interp =? sitk.sitkNearestNeighbor
        then let out := applied moving_image transform default_value
                                sitk.sitkNearestNeighbor in
             (inr (casted out (GetPixelID moving_image)),
              log ++ [MadeImage (casted moving_image sitk.sitkFloat32); MadeImage out;
                      MadeImage (casted out (GetPixelID moving_image))])
        else rejected log)
  /\ is_resampling (MadeImage (propagated fixed_image moving_image transform
                                          default_value sitk.sitkNearestNeighbor)) = true
  /\ is_resampling (MadeImage (applied moving_image transform default_value
                                       sitk.sitkNearestNeighbor)) = true.
Proof.
  rewrite transform_propagation_structure, apply_field_structure.
  destruct (interp =? sitk.sitkNearestNeighbor) eqn:E.
  - apply Z.eqb_eq in E. subst interp. repeat split.
  - repeat split.
Qed.

(** ** smooth_and_resample: the new grid *)

Lemma max_defined (l : list Q) : l <> [] -> exists m, Py.max l = inr m.
Proof.
  destruct l as [|x r]; [congruence|]. intros _. simpl. eauto.
Qed.

(** The smoothing step returns an image on the input's grid. *)
Lemma smoothing_defined (image : Image) (smoothing_sigma : Q) (log : list Event) :
  GetSpacing image <> [] ->
  exists smoothed log',
    (if Qlt_le_dec 0 smoothing_sigma then
       w <- lift (Py.max (map (fun i => 8 * smoothing_sigma * i)%Q (GetSpacing image))) ;;
       DiscreteGaussian image (smoothing_sigma * smoothing_sigma)%Q (Py.int_of_float w)
     else ret image) log = (inr smoothed, log').
Proof.
  intros Hsp. destruct (Qlt_le_dec 0 smoothing_sigma); [|do 2 eexists; reflexivity].
  destruct (max_defined (map (fun i => 8 * smoothing_sigma * i)%Q (GetSpacing image)))
    as [m Hm].
  { destruct (GetSpacing image); [congruence|discriminate]. }
  unfold bind at 1, lift. rewrite Hm. do 2 eexists. reflexivity.
Qed.

Section LevelGrid.

Import Binary64.

(** C4, amended.  With [isotropic_resample=False], when the smoothing has
    raised nothing, [smooth_and_resample] asks the library for a grid with
    the input's origin, direction and pixel type.  On an image with at least
    two voxels along every axis, for positive shrink factors (one number, or
    one per axis) that are doubles with [S / f] a ratio [a / b] of integers,
    [2 a + 3 b <= 2^52], and [round(S / f)] at least 2, the new size is
    [round(S / f)] per axis, rounding halves upward.  The new spacing is
    [(S - 1) * P / (new_size - 1)] as binary64 computes it: the product and
    the quotient are each rounded to the nearest double, which leaves the
    exact quotient up to the fraction [2^-51] of it, and the exact quotient
    itself when both are doubles.  Sizes are below [2^53] and spacings are
    doubles between [2^-900] and [2^900]. *)
Theorem level_grid_in_binary64
  (square : Q -> Py.result Q) (image smoothed_image : Image)
  (shrink_factor : per_axis) (smoothing_sigma : Q) (resampler : Z) :
  let sizes := GetSize image in
  let fs := factors shrink_factor (List.length sizes) in
  Binary64.smoothed square image smoothing_sigma = inr smoothed_image ->
  Forall2 regular_factor sizes fs ->
  Forall regular_spacing (GetSpacing image) ->
  exists request,
    Binary64.smooth_and_resample square image shrink_factor smoothing_sigma false
                                 resampler
    = inr request
    /\ request.(Binary64.image1) = smoothed_image
    /\ request.(Binary64.requested_size) = spec_size sizes fs
    /\ Forall2 rounded_spacing request.(Binary64.outputSpacing)
               (combine (combine sizes (GetSpacing image)) (spec_size sizes fs))
    /\ request.(Binary64.outputOrigin) = GetOrigin image
    /\ request.(Binary64.outputDirection) = GetDirection image
    /\ request.(Binary64.outputPixelType) = GetPixelID image
    /\ request.(Binary64.interpolator) = resampler.
Proof.
  intros sizes fs. apply regular_level_request.
Qed.

(** Eight voxels of 1 mm and six of 2 mm, halved: four voxels spaced the
    double next to 7/3 mm, and three spaced 5 mm. *)
Lemma level_grid_in_binary64_witness :
  exists request,
    Binary64.smooth_and_resample (fun s => inr (s * s)%Q)
      (mkImage (mkGrid [8; 6] [1; 2]%Q [0; 0]%Q [1; 0; 0; 1]%Q) sitk.sitkFloat32
               (Stored "fixed"))
      (Scalar 2) 0 false sitk.sitkLinear
    = inr request
    /\ request.(Binary64.requested_size) = [4; 3]
    /\ request.(Binary64.outputSpacing)
       = [Finite (5254199565265579 # 2251799813685248); Finite 5]
    /\ request.(Binary64.outputOrigin) = [0; 0]%Q
    /\ request.(Binary64.outputDirection) = [1; 0; 0; 1]%Q.
Proof.
  destruct (level_grid_in_binary64 (fun s => inr (s * s)%Q)
              (mkImage (mkGrid [8; 6] [1; 2]%Q [0; 0]%Q [1; 0; 0; 1]%Q) sitk.sitkFloat32
                       (Stored "fixed"))
              (mkImage (mkGrid [8; 6] [1; 2]%Q [0; 0]%Q [1; 0; 0; 1]%Q) sitk.sitkFloat32
                       (Stored "fixed"))
              (Scalar 2) 0 sitk.sitkLinear)
    as (request & Hrun & _ & Hsize & _ & Horigin & Hdirection & _).
  - reflexivity.
  - repeat constructor; try reflexivity; try (vm_compute; discriminate).
  - repeat constructor; try reflexivity; try (vm_compute; discriminate).
  - exists request. split; [exact Hrun|]. split; [exact Hsize|].
    split; [|split; assumption].
    vm_compute in Hrun. inversion Hrun. reflexivity.
Defined.

End LevelGrid.

(** An image with a single slice: the finest level of the default schedule
    (shrink factor 1) already divides by zero, in binary64 as on the exact
    values. *)
Lemma single_slice_is_not_resampled :
  let image := mkImage (mkGrid [4; 4; 1] [1; 1; 1]%Q [0; 0; 0]%Q
                               [1; 0; 0; 0; 1; 0; 0; 0; 1]%Q)
                       sitk.sitkFloat32 (Stored "fixed") in
  smooth_and_resample image (Scalar 1) 0 false sitk.sitkLinear []
  = (inl Py.ZeroDivisionError, [])
  /\ ~ (exists out log',
          smooth_and_resample image (Scalar 1) 0 false sitk.sitkLinear []
          = (inr out, log')
          /\ GetSize out = spec_size (GetSize image) [1; 1; 1]%Q)
  /\ Binary64.smooth_and_resample (fun s => inr (s * s)%Q) image (Scalar 1) 0 false
                                  sitk.sitkLinear
     = inl Py.ZeroDivisionError
  /\ spec_size (GetSize image) [1; 1; 1]%Q = [4; 4; 1].
Proof.
  split; [reflexivity|]. split; [|split; reflexivity].
  intros (out & log' & H & _). vm_compute in H. discriminate.
Qed.

(** ** smooth_and_resample: an axis of new size 1 *)

Lemma mapR_raises {A B} (f : A -> Py.result B) (e : Py.exn) (l : list A) :
  (forall a e', f a = inl e' -> e' = e) ->
  (exists a, In a l /\ f a = inl e) ->
  Py.mapR f l = inl e.
Proof.
  intros Hall. induction l as [|a l IH]; intros (x & Hin & Hx); [contradiction|].
  simpl. destruct (f a) eqn:Ea.
  - f_equal. now apply Hall with a.
  - destruct Hin as [->|Hin]; [congruence|].
    rewrite IH by eauto. reflexivity.
Qed.







(** ** initial_registration *)

Section LinearStage.

Variable lower : string -> string.
Variables (fixed_image moving_image : Image).
Variables (fixed_structure moving_structure : option Image).
Variables (reg_method metric optimiser : string).
Variables (shrink_factors : list Z) (smooth_sigmas : list Q) (sampling_rate : Q).
Variables (ants_radius final_interp number_of_iterations : Z).
Variables (default_value : Q) (verbose : bool) (log : list Event).


Lemma set_metric_fields (r : Registration) :
  let r' := set_metric r metric ants_radius in
  MovingInitialTransform r' = MovingInitialTransform r
  /\ InitialTransform r' = InitialTransform r
  /\ OptimizerType r' = OptimizerType r
  /\ (recognised_metric metric = false -> MetricType r' = MetricType r).
Proof.
  unfold set_metric, recognised_metric. simpl.
  repeat match goal with
         | |- context [String.eqb metric ?s] => destruct (String.eqb metric s)
         end; simpl; repeat split; try reflexivity; discriminate.
Qed.

Lemma set_optimiser_fields (r : Registration) :
  let r' := set_optimiser lower r optimiser number_of_iterations verbose in
  MovingInitialTransform r' = MovingInitialTransform r
  /\ InitialTransform r' = InitialTransform r
  /\ MetricType r' = MetricType r
  /\ (recognised_optimiser lower optimiser = false ->
      OptimizerType r' = OptimizerType r).
Proof.
  unfold set_optimiser, recognised_optimiser. simpl.
  repeat match goal with
         | |- context [String.eqb (lower optimiser) ?s] =>
             destruct (String.eqb (lower optimiser) s)
         end; simpl; repeat split; try reflexivity; discriminate.
Qed.

Lemma set_optimiser_recognised (r : Registration) :
  recognised_optimiser lower optimiser = true ->
  exists o,
    OptimizerType (set_optimiser lower r optimiser number_of_iterations verbose)
    = Some o.
Proof.
  unfold set_optimiser, recognised_optimiser. simpl.
  repeat match goal with
         | |- context [String.eqb (lower optimiser) ?s] =>
             destruct (String.eqb (lower optimiser) s)
         end; simpl; try discriminate; intros _; eexists; reflexivity.
Qed.

Lemma set_initial_transform_unrecognised (r : Registration) (l : list Event) :
  recognised_method lower reg_method = false ->
  set_initial_transform lower r reg_method l = (inl (Py.ValueError no_such_method), l).
Proof.
  unfold recognised_method, set_initial_transform. simpl.
  repeat match goal with
         | |- context [String.eqb (lower reg_method) ?s] =>
             destruct (String.eqb (lower reg_method) s)
         end; simpl; try discriminate. reflexivity.
Qed.

Lemma set_initial_transform_recognised (r : Registration) (l : list Event) :
  recognised_method lower reg_method = true ->
  exists t,
    set_initial_transform lower r reg_method l = (inr (SetInitialTransform r t), l)
    /\ operation_mode t = None.
Proof.
  unfold recognised_method, set_initial_transform. simpl.
  repeat match goal with
         | |- context [String.eqb (lower reg_method) ?s] =>
             destruct (String.eqb (lower reg_method) s)
         end; simpl; try discriminate; intros _; eexists; split; reflexivity.
Qed.

(** The run on an unrecognised method: the error, after the two casts and
    the centred initialiser. *)
Lemma initial_registration_unrecognised :
  recognised_method lower reg_method = false ->
  initial_registration lower fixed_image moving_image fixed_structure moving_structure
    reg_method metric optimiser shrink_factors smooth_sigmas sampling_rate ants_radius
    final_interp number_of_iterations default_value verbose log
  = (inl (Py.ValueError no_such_method),
     log ++ linear_entry fixed_image moving_image).
Proof.
  intros H. unfold initial_registration.
  unfold Cast, CenteredTransformInitializer, made_image, made_transform.
  cbn -[set_initial_transform set_metric set_optimiser].
  unfold bind at 1. rewrite (set_initial_transform_unrecognised _ _ H).
  unfold linear_entry, seed, casted. now rewrite <- !app_assoc.
Qed.

(** The run on a recognised method, whatever the metric and the optimiser. *)
Lemma initial_registration_recognised :
  recognised_method lower reg_method = true ->
  exists r t,
    initial_registration lower fixed_image moving_image fixed_structure
      moving_structure reg_method metric optimiser shrink_factors smooth_sigmas
      sampling_rate ants_radius final_interp number_of_iterations default_value
      verbose log
    = (inr (casted (casted (linear_output r fixed_image moving_image default_value
                                          final_interp)
                           sitk.sitkFloat32)
                   (GetPixelID moving_image),
            CompositeTransform [seed fixed_image moving_image;
                                optimised r fixed_image moving_image]),
       log ++ linear_entry fixed_image moving_image
           ++ linear_exit r fixed_image moving_image default_value final_interp)
    /\ MovingInitialTransform r = Some (seed fixed_image moving_image)
    /\ InitialTransform r = Some t
    /\ operation_mode t = None
    /\ (recognised_metric metric = false -> MetricType r = None)
    /\ (recognised_optimiser lower optimiser = false -> OptimizerType r = None)
    /\ (recognised_optimiser lower optimiser = true ->
        exists o, OptimizerType r = Some o).
Proof.
  intros H. unfold initial_registration.
  unfold Cast, CenteredTransformInitializer, made_image, made_transform.
  cbn -[set_initial_transform set_metric set_optimiser].
  unfold bind at 1.
  match goal with
  | |- context [set_initial_transform lower ?r reg_method ?l] =>
      destruct (set_initial_transform_recognised r l H) as (t & Ht & Hmode);
      rewrite Ht
  end.
  eexists. exists t. split.
  - cbn -[set_metric set_optimiser].
    unfold linear_entry, linear_exit, linear_output, optimised, seed, casted, propagated.
    rewrite <- !app_assoc. cbn -[set_metric set_optimiser]. reflexivity.
  - cbn -[set_metric set_optimiser].
    match goal with
    | |- context [set_optimiser lower ?r optimiser _ _] =>
        destruct (set_optimiser_fields r) as (Ho1 & Ho2 & Ho3 & Ho4)
    end.
    match goal with
    | |- context [set_metric ?r metric _] =>
        destruct (set_metric_fields r) as (Hm1 & Hm2 & Hm3 & Hm4)
    end.
    cbn -[set_metric set_optimiser] in *.
    repeat split.
    + rewrite Ho1. cbn -[set_metric]. now rewrite Hm1.
    + rewrite Ho2. reflexivity.
    + assumption.
    + intros Hx. rewrite Ho3. cbn -[set_metric]. now rewrite (Hm4 Hx).
    + intros Hx. rewrite (Ho4 Hx). cbn -[set_metric]. now rewrite Hm3.
    + intros Hx.
      match goal with
      | |- context [set_optimiser lower ?r optimiser _ _] =>
          apply (set_optimiser_recognised r Hx)
      end.
Qed.

End LinearStage.

(** C3, amended.  [initial_registration] validates the transform family
    only.  On three-dimensional images and with shrink factors, ANTS radius
    and iteration count in the range the library's setters take, when
    [reg_method], lower-cased, is none of the six recognised names, the call
    raises [ValueError] with the message that lists them, after the two
    casts and the centred initialiser and before any registration is run.
    When it is one of them, the code raises nothing of its own and calls
    [Execute] once, whatever [metric] and [optimiser] are.  An unrecognised
    metric leaves the metric of the method unset.  A recognised optimiser is
    set on the method, and no call up to the end is one the library refuses
    for its arguments' dimension or for want of an optimiser.  An
    unrecognised optimiser leaves the optimiser unset, and the call of
    [Execute] is the one call the library refuses: the error is the
    library's, raised in [Execute], not a configuration error raised before
    it. *)
Theorem only_the_method_is_validated
  (lower : string -> string) (fixed_image moving_image : Image)
  (fixed_structure moving_structure : option Image)
  (reg_method metric optimiser : string)
  (shrink_factors : list Z) (smooth_sigmas : list Q) (sampling_rate : Q)
  (ants_radius final_interp number_of_iterations : Z)
  (default_value : Q) (verbose : bool) (log : list Event) :
  List.length (GetSize fixed_image) = 3%nat ->
  List.length (GetSize moving_image) = 3%nat ->
  Forall unsigned shrink_factors -> unsigned ants_radius ->
  unsigned number_of_iterations ->
  let run :=
    initial_registration lower fixed_image moving_image fixed_structure
      moving_structure reg_method metric optimiser shrink_factors smooth_sigmas
      sampling_rate ants_radius final_interp number_of_iterations default_value
      verbose log in
  if recognised_method lower reg_method
  then exists r made,
         snd run = log ++ made
         /\ executed_registrations made = [r]
         /\ (recognised_metric metric = false -> MetricType r = None)
         /\ (if recognised_optimiser lower optimiser
             then (exists o, OptimizerType r = Some o)
                  /\ existsb refused made = false
             else OptimizerType r = None
                  /\ filter refused made
                     = [MadeTransform (optimised r fixed_image moving_image)])
  else run = (inl (Py.ValueError no_such_method),
              log ++ linear_entry fixed_image moving_image)
       /\ existsb is_registration (linear_entry fixed_image moving_image) = false
       /\ existsb refused (linear_entry fixed_image moving_image) = false.
Proof.
  intros Hf Hm _ _ _ run.
  assert (Hentry : existsb refused (linear_entry fixed_image moving_image) = false).
  { unfold linear_entry, seed, casted, refused, fits. simpl.
    unfold GetSize in *. simpl. rewrite Hf, Hm. reflexivity. }
  assert (Hnone' : filter refused (linear_entry fixed_image moving_image) = []).
  { unfold linear_entry, seed, casted, refused, fits. simpl.
    unfold GetSize in *. simpl. rewrite Hf, Hm. reflexivity. }
  destruct (recognised_method lower reg_method) eqn:H.
  - destruct (initial_registration_recognised lower fixed_image moving_image
                fixed_structure moving_structure reg_method metric optimiser
                shrink_factors smooth_sigmas sampling_rate ants_radius final_interp
                number_of_iterations default_value verbose log H)
      as (r & t & Hrun & _ & _ & _ & Hmetric & Hnone & Hsome).
    exists r.
    exists (linear_entry fixed_image moving_image
            ++ linear_exit r fixed_image moving_image default_value final_interp).
    subst run. rewrite Hrun. split; [reflexivity|]. split; [reflexivity|].
    split; [exact Hmetric|].
    destruct (recognised_optimiser lower optimiser).
    + destruct (Hsome eq_refl) as [o Ho]. split; [now exists o|].
      rewrite existsb_app, Hentry.
      unfold linear_exit, linear_output, optimised, propagated, casted. cbn.
      rewrite Ho. reflexivity.
    + split; [now apply Hnone|].
      rewrite filter_app, Hnone'.
      unfold linear_exit, linear_output, optimised, propagated, casted. cbn.
      rewrite (Hnone eq_refl). reflexivity.
  - split; [|split; [reflexivity|exact Hentry]].
    now apply initial_registration_unrecognised.
Qed.

Lemma only_the_method_is_validated_witness :
  (exists r made,
     snd (initial_registration lower_ascii fixed_volume moving_volume
            None None "Rigid" "mattes_mi" "nonsense" [8; 2; 1] [4; 2; 0]%Q (1 # 4) 3 2
            50 (-1000 # 1) false []) = [] ++ made
     /\ executed_registrations made = [r]
     /\ OptimizerType r = None
     /\ filter refused made
        = [MadeTransform (optimised r fixed_volume moving_volume)])
  /\ initial_registration lower_ascii fixed_volume moving_volume
       None None "Elastic" "mattes_mi" "lbfgsb" [8; 2; 1] [4; 2; 0]%Q (1 # 4) 3 2
       50 (-1000 # 1) false []
     = (inl (Py.ValueError no_such_method),
        [] ++ linear_entry fixed_volume moving_volume).
Proof.
  assert (Hu : forall z, 0 <= z < 100 -> unsigned z).
  { intros z Hz. unfold unsigned. change (2 ^ 32) with 4294967296. lia. }
  assert (Hs : Forall unsigned [8; 2; 1]) by (repeat constructor; apply Hu; lia).
  split.
  - destruct (only_the_method_is_validated lower_ascii fixed_volume
                moving_volume None None "Rigid" "mattes_mi" "nonsense"
                [8; 2; 1] [4; 2; 0]%Q (1 # 4) 3 2 50 (-1000 # 1) false []
                eq_refl eq_refl Hs (Hu 3 ltac:(lia)) (Hu 50 ltac:(lia)))
      as (r & made & Hrun & Hr & _ & Ho & Hrefused).
    exists r, made. split; [exact Hrun|]. split; [exact Hr|].
    split; [exact Ho|exact Hrefused].
  - apply (only_the_method_is_validated lower_ascii fixed_volume
             moving_volume None None "Elastic" "mattes_mi" "lbfgsb"
             [8; 2; 1] [4; 2; 0]%Q (1 # 4) 3 2 50 (-1000 # 1) false []
             eq_refl eq_refl Hs (Hu 3 ltac:(lia)) (Hu 50 ltac:(lia))).
Defined.

(** An unknown metric with a recognised method and optimiser, on two
    volumes: no error is raised, no call is one the library refuses, and the
    registration is run, with no metric set by the code. *)
Lemma unknown_metric_is_accepted :
  let run :=
    initial_registration lower_ascii fixed_volume moving_volume
      None None "Rigid" "nonsense" "gradient_descent" [8; 2; 1] [4; 2; 0]%Q (1 # 4)
      3 2 50 (-1000 # 1) false [] in
  recognised_metric "nonsense" = false
  /\ (exists out, fst run = inr out)
  /\ existsb is_registration (snd run) = true
  /\ existsb refused (snd run) = false
  /\ map MetricType (executed_registrations (snd run)) = [None]
  /\ map (fun r => match OptimizerType r with Some _ => true | None => false end)
         (executed_registrations (snd run)) = [true].
Proof.
  vm_compute. repeat split. eexists. reflexivity.
Qed.

(** C5, amended.  [initial_registration] seeds the optimisation with a rigid
    (Euler) transform made by the library's centred initialiser in operation
    mode [False], that is 0, the geometry mode, which aligns the centres of
    the two image grids.  The seed is set as the moving-initial transform of
    the registration that is run; the transform that is optimised is another
    one, and the seed comes back unchanged as the first member of the
    returned composite. *)
Theorem seed_is_the_geometric_centring
  (lower : string -> string) (fixed_image moving_image : Image)
  (fixed_structure moving_structure : option Image)
  (reg_method metric optimiser : string)
  (shrink_factors : list Z) (smooth_sigmas : list Q) (sampling_rate : Q)
  (ants_radius final_interp number_of_iterations : Z)
  (default_value : Q) (verbose : bool) (log : list Event) :
  recognised_method lower reg_method = true ->
  exists r t out,
    initial_registration lower fixed_image moving_image fixed_structure
      moving_structure reg_method metric optimiser shrink_factors smooth_sigmas
      sampling_rate ants_radius final_interp number_of_iterations default_value
      verbose log
    = (inr (out, CompositeTransform [seed fixed_image moving_image;
                                     optimised r fixed_image moving_image]),
       log ++ linear_entry fixed_image moving_image
           ++ linear_exit r fixed_image moving_image default_value final_interp)
    /\ executed_registrations
         (linear_entry fixed_image moving_image
          ++ linear_exit r fixed_image moving_image default_value final_interp) = [r]
    /\ MovingInitialTransform r = Some (seed fixed_image moving_image)
    /\ seed fixed_image moving_image
       = CenteredTransformInitializerOf (casted fixed_image sitk.sitkFloat32)
                                        (casted moving_image sitk.sitkFloat32)
                                        Euler3DTransform sitk.GEOMETRY
    /\ InitialTransform r = Some t
    /\ t <> seed fixed_image moving_image.
Proof.
  intros H.
  destruct (initial_registration_recognised lower fixed_image moving_image
              fixed_structure moving_structure reg_method metric optimiser
              shrink_factors smooth_sigmas sampling_rate ants_radius final_interp
              number_of_iterations default_value verbose log H)
    as (r & t & Hrun & Hseed & Ht & Hmode & _).
  exists r, t. eexists. split; [exact Hrun|].
  repeat split; try assumption; try reflexivity.
  intros ->. discriminate.
Qed.

Lemma seed_is_the_geometric_centring_witness :
  recognised_method lower_ascii "Similarity" = true
  /\ exists r t out,
       initial_registration lower_ascii fixed_volume moving_volume None None
         "Similarity" "mean_squares" "gradient_descent" [8; 2; 1] [4; 2; 0]%Q (1 # 4)
         3 2 50 (-1000 # 1) false []
       = (inr (out, CompositeTransform [seed fixed_volume moving_volume;
                                        optimised r fixed_volume moving_volume]),
          [] ++ linear_entry fixed_volume moving_volume
             ++ linear_exit r fixed_volume moving_volume (-1000 # 1) 2)
       /\ executed_registrations
            (linear_entry fixed_volume moving_volume
             ++ linear_exit r fixed_volume moving_volume (-1000 # 1) 2) = [r]
       /\ MovingInitialTransform r = Some (seed fixed_volume moving_volume)
       /\ seed fixed_volume moving_volume
          = CenteredTransformInitializerOf (casted fixed_volume sitk.sitkFloat32)
                                           (casted moving_volume sitk.sitkFloat32)
                                           Euler3DTransform sitk.GEOMETRY
       /\ InitialTransform r = Some t
       /\ t <> seed fixed_volume moving_volume.
Proof.
  split; [reflexivity|].
  apply (seed_is_the_geometric_centring lower_ascii fixed_volume moving_volume
           None None "Similarity" "mean_squares" "gradient_descent").
  reflexivity.
Defined.

(** With the defaults, the moving-initial transform of the registration that
    is run was made in operation mode 0 (geometry), not 1 (moments). *)
Lemma seed_is_not_a_moments_alignment :
  let run :=
    initial_registration lower_ascii fixed_volume moving_volume None None
      "Similarity" "mean_squares" "gradient_descent" [8; 2; 1] [4; 2; 0]%Q (1 # 4)
      3 2 50 (-1000 # 1) false [] in
  map (fun r => match MovingInitialTransform r with
                | Some t => operation_mode t
                | None => None
                end) (executed_registrations (snd run)) = [Some sitk.GEOMETRY]
  /\ map (fun r => match MovingInitialTransform r with
                   | Some t => operation_mode t
                   | None => None
                   end) (executed_registrations (snd run)) <> [Some sitk.MOMENTS].
Proof.
  split; [reflexivity|]. vm_compute. discriminate.
Qed.

(** C6.  The transform [initial_registration] returns is the composite of
    the seed and the optimised transform, in this order.  A point is mapped
    by the optimised transform and then by the seed, so that resampling an
    image under the composite is resampling it under the seed first and
    resampling the result under the optimised transform second.  Between the
    registration run and the final resampling no library call is logged:
    the composition resamples nothing. *)
Theorem composite_applies_seed_then_optimised
  (lower : string -> string) (fixed_image moving_image : Image)
  (fixed_structure moving_structure : option Image)
  (reg_method metric optimiser : string)
  (shrink_factors : list Z) (smooth_sigmas : list Q) (sampling_rate : Q)
  (ants_radius final_interp number_of_iterations : Z)
  (default_value : Q) (verbose : bool) (log : list Event) :
  recognised_method lower reg_method = true ->
  exists r out,
    let initial := seed fixed_image moving_image in
    let output := optimised r fixed_image moving_image in
    let combined := CompositeTransform [initial; output] in
    initial_registration lower fixed_image moving_image fixed_structure
      moving_structure reg_method metric optimiser shrink_factors smooth_sigmas
      sampling_rate ants_radius final_interp number_of_iterations default_value
      verbose log
    = (inr (out, combined),
       log ++ linear_entry fixed_image moving_image
           ++ [MadeTransform output;
               MadeImage (propagated (casted fixed_image sitk.sitkFloat32)
                                     (casted moving_image sitk.sitkFloat32)
                                     combined default_value final_interp);
               MadeImage (casted (linear_output r fixed_image moving_image
                                                default_value final_interp)
                                 sitk.sitkFloat32);
               MadeImage out])
    /\ (forall (point : Type) (primitive : Transform -> point -> point) (p : point),
          TransformPoint point primitive combined p
          = TransformPoint point primitive initial
              (TransformPoint point primitive output p))
    /\ (forall (point value : Type) (primitive : Transform -> point -> point)
               (image : point -> value) (x : point),
          resampled point primitive combined image x
          = resampled point primitive output
              (resampled point primitive initial image) x).
Proof.
  intros H.
  destruct (initial_registration_recognised lower fixed_image moving_image
              fixed_structure moving_structure reg_method metric optimiser
              shrink_factors smooth_sigmas sampling_rate ants_radius final_interp
              number_of_iterations default_value verbose log H)
    as (r & t & Hrun & _).
  exists r. eexists. split; [exact Hrun|]. split; reflexivity.
Qed.

Lemma composite_applies_seed_then_optimised_witness :
  recognised_method lower_ascii "AFFINE" = true
  /\ exists r out,
       initial_registration lower_ascii fixed_volume moving_volume None None
         "AFFINE" "mattes_mi" "lbfgsb" [8; 2; 1] [4; 2; 0]%Q (1 # 4) 3 2 50
         (-1000 # 1) true []
       = (inr (out, CompositeTransform [seed fixed_volume moving_volume;
                                        optimised r fixed_volume moving_volume]),
          [] ++ linear_entry fixed_volume moving_volume
             ++ [MadeTransform (optimised r fixed_volume moving_volume);
                 MadeImage (linear_output r fixed_volume moving_volume
                                          (-1000 # 1) 2);
                 MadeImage (casted (linear_output r fixed_volume moving_volume
                                                  (-1000 # 1) 2)
                                   sitk.sitkFloat32);
                 MadeImage out])
       /\ forall (p : Z),
            TransformPoint Z (fun t x => match t with
                                         | RegistrationOf _ _ _ => 2 * x
                                         | _ => x + 1
                                         end)
                           (CompositeTransform [seed fixed_volume moving_volume;
                                                optimised r fixed_volume moving_volume])
                           p
            = 2 * p + 1.
Proof.
  split; [reflexivity|].
  destruct (composite_applies_seed_then_optimised lower_ascii fixed_volume
              moving_volume None None "AFFINE" "mattes_mi" "lbfgsb" [8; 2; 1]
              [4; 2; 0]%Q (1 # 4) 3 2 50 (-1000 # 1) true [] eq_refl)
    as (r & out & Hrun & Hpoint & _).
  exists r, out. split; [exact Hrun|].
  intros p. rewrite Hpoint. reflexivity.
Defined.

(** ** multiscale_demons: the field the first level starts from *)


Lemma last_item_app {A} (l : list A) (a : A) (log : list Event) :
  last_item (l ++ [a]) log = (inr a, log).
Proof. unfold last_item. now rewrite rev_app_distr. Qed.





Lemma CopyInformation_same_size (image source : Image) (log : list Event) :
  GetSize image = GetSize source ->
  CopyInformation image source log
  = (inr (mkImage (GetGrid source) (GetPixelID image) (GetVoxels image)), log).
Proof.
  intros H. unfold CopyInformation.
  destruct (list_eq_dec Z.eq_dec (GetSize image) (GetSize source)); [reflexivity|].
  contradiction.
Qed.





(** ** fast_symmetric_forces_demons_registration on a structure *)

(** C2, amended.  With [structure=True], once the multi-resolution run has
    returned its transform and field, the moving image is resampled onto the
    fixed grid under that transform with the interpolator [interp_order] the
    caller passed (2, linear, by default) and the fill value 0; the result is
    cast to float and binary-thresholded between 1e-5 and 100, given the
    fixed image's geometry and cast back to the moving image's pixel type. *)
Theorem structure_is_resampled_then_thresholded
  (fixed_image moving_image : Image) (resolution_staging : list Q)
  (iteration_staging : list Z) (isotropic_resample : bool)
  (initial_displacement_field : option Image) (smoothing_sigma_factor : Q)
  (smoothing_sigmas : option (list Q)) (default_value : Q) (ncores : Z)
  (interp_order : Z) (verbose : bool) (log log1 : list Event)
  (output_transform : Transform) (deformation_field : Image) :
  multiscale_demons (demons_filter ncores verbose) (working fixed_image)
    (working moving_image) None initial_displacement_field
    (map Scalar resolution_staging)
    (staged_sigmas smoothing_sigmas smoothing_sigma_factor resolution_staging)
    iteration_staging isotropic_resample
    ((log ++ working_events fixed_image) ++ working_events moving_image)
  = (inr (output_transform, deformation_field), log1) ->
  let resampled_structure :=
    propagated (working fixed_image) (working moving_image) output_transform 0
               interp_order in
  let registered_image :=
    casted (thresholded resampled_structure) (GetPixelID moving_image) in
  let resampled_field :=
    mkImage (GetGrid (working fixed_image)) (GetPixelID deformation_field)
            (ResampleOf deformation_field IdentityTransform sitk.sitkLinear 0) in
  fast_symmetric_forces_demons_registration fixed_image moving_image
    resolution_staging iteration_staging isotropic_resample
    initial_displacement_field smoothing_sigma_factor smoothing_sigmas default_value
    ncores true interp_order verbose log
  = (inr (registered_image, output_transform, resampled_field),
     log1 ++ [MadeImage resampled_structure;
              MadeImage (casted resampled_structure sitk.sitkFloat32);
              MadeImage (thresholded resampled_structure);
              MadeImage registered_image;
              MadeImage resampled_field]).
Proof.
  intros H. unfold fast_symmetric_forces_demons_registration.
  unfold working, working_events, staged_sigmas, demons_filter in *.
  destruct (GetPixelID fixed_image =? 6) eqn:Ef;
    destruct (GetPixelID moving_image =? 6) eqn:Em;
    cbn -[multiscale_demons] in *;
    rewrite ?app_nil_r in *;
    unfold casted in *; unfold bind at 1; rewrite H;
    unfold bind, Resample_Execute, Cast, BinaryThreshold, ResampleTo, made_image,
      emit, ret;
    cbn -[CopyInformation];
    rewrite CopyInformation_same_size by reflexivity;
    cbn; rewrite <- ?app_assoc; reflexivity.
Qed.

Lemma structure_is_resampled_then_thresholded_witness :
  exists output_transform deformation_field log1,
    multiscale_demons (demons_filter 1 false) (working example_fixed)
      (working example_structure) None None (map Scalar [2; 1]%Q)
      (staged_sigmas None 1 [2; 1]%Q) [10; 10] false
      (([] ++ working_events example_fixed) ++ working_events example_structure)
    = (inr (output_transform, deformation_field), log1)
    /\ fst (fast_symmetric_forces_demons_registration example_fixed example_structure
              [2; 1]%Q [10; 10] false None 1 None (-1000 # 1) 1 true
              sitk.sitkBSpline false [])
       = inr (casted (thresholded
                        (propagated (working example_fixed) (working example_structure)
                                    output_transform 0 sitk.sitkBSpline))
                     (GetPixelID example_structure),
              output_transform,
              mkImage (GetGrid (working example_fixed)) (GetPixelID deformation_field)
                      (ResampleOf deformation_field IdentityTransform sitk.sitkLinear 0)).
Proof.
  destruct (multiscale_demons (demons_filter 1 false) (working example_fixed)
              (working example_structure) None None (map Scalar [2; 1]%Q)
              (staged_sigmas None 1 [2; 1]%Q) [10; 10] false
              (([] ++ working_events example_fixed) ++ working_events example_structure))
    as [[e|[T F]] log1] eqn:E.
  - vm_compute in E. discriminate.
  - exists T, F, log1. split; [reflexivity|].
    now rewrite (structure_is_resampled_then_thresholded example_fixed
                   example_structure [2; 1]%Q [10; 10] false None 1 None (-1000 # 1) 1
                   sitk.sitkBSpline false [] log1 T F E).
Defined.

(** With [structure=True] and the default [interp_order] of 2, the only
    resampling under the displacement-field transform is linear, not
    nearest-neighbour. *)
Lemma structure_interpolator_is_not_forced :
  let run :=
    fast_symmetric_forces_demons_registration example_fixed example_structure
      [2; 1]%Q [10; 10] false None 1 None (-1000 # 1) 1 true 2 false [] in
  (exists out, fst run = inr out)
  /\ field_resamplings (snd run) = [(sitk.sitkLinear, 0%Q)]
  /\ field_resamplings (snd run) <> [(sitk.sitkNearestNeighbor, 0%Q)].
Proof.
  vm_compute. split; [eexists; reflexivity|]. split; [reflexivity|discriminate].
Qed.

(** ** convert_mask_to_distance_map *)

Lemma fold_max_spec (r : list Q) (x m : Q) :
  fold_left (fun m y => if Qlt_le_dec m y then y else m) r x = m ->
  In m (x :: r) /\ (x <= m)%Q /\ Forall (fun v => v <= m)%Q r.
Proof.
  revert x. induction r as [|y r IH]; simpl; intros x H.
  - subst. split; [now left|]. split; [lra|constructor].
  - destruct (Qlt_le_dec x y) as [Hlt|Hle];
      destruct (IH _ H) as ([->|Hin] & Hx & Hall).
    + split; [right; now left|]. split; [lra|]. constructor; [lra|assumption].
    + split; [right; now right|]. split; [lra|]. constructor; assumption.
    + split; [now left|]. split; [lra|]. constructor; [lra|assumption].
    + split; [right; now right|]. split; [lra|]. constructor; [lra|assumption].
Qed.

Lemma max_spec (l : list Q) (m : Q) :
  Py.max l = inr m -> In m l /\ Forall (fun v => v <= m)%Q l.
Proof.
  destruct l as [|x r]; simpl; [discriminate|]. intros H. inversion H as [H'].
  destruct (fold_max_spec r x _ eq_refl) as (Hin & Hx & Hall).
  split; [assumption|]. now constructor.
Qed.

(** Whatever the library's distance filter returns for the mask,
    [convert_mask_to_distance_map] with [normalise=True] divides every value
    of that map by the map's largest value.  When this largest value is
    positive, no value of the result exceeds 1 and some value equals 1: the
    maximum, not the maximum absolute value, is 1. *)
Lemma distance_map_is_divided_by_its_maximum
  (SignedMaurerDistanceMap : Array -> bool -> bool -> bool -> Py.result Array)
  (mask raw_map : Array) (squared_distance : bool) (m : Q) :
  SignedMaurerDistanceMap mask true squared_distance true = inr raw_map ->
  Py.max raw_map.(values) = inr m ->
  (0 < m)%Q ->
  convert_mask_to_distance_map SignedMaurerDistanceMap mask squared_distance true
  = inr (FiniteImage
           (mkArray raw_map.(geometry) (map (fun v => v / m)%Q raw_map.(values))))
  /\ Forall (fun v => v <= 1)%Q (map (fun v => v / m)%Q raw_map.(values))
  /\ Exists (fun v => v == 1)%Q (map (fun v => v / m)%Q raw_map.(values))
  /\ convert_mask_to_distance_map SignedMaurerDistanceMap mask squared_distance false
     = inr (FiniteImage raw_map).
Proof.
  intros Hraw Hmax Hm. unfold convert_mask_to_distance_map. rewrite Hraw, Hmax.
  unfold Divide. rewrite (Qeq_bool_pos m Hm).
  destruct (max_spec _ _ Hmax) as (Hin & Hall).
  split; [reflexivity|]. split; [|split; [|reflexivity]].
  - apply Forall_forall. intros q Hq. apply in_map_iff in Hq.
    destruct Hq as (v & <- & Hv). rewrite Forall_forall in Hall.
    specialize (Hall v Hv). simpl in Hall.
    apply Qle_shift_div_r; [assumption|]. lra.
  - apply Exists_exists. exists (m / m)%Q. split.
    + apply in_map_iff. exists m. now split.
    + field. lra.
Qed.

(** C7.  The docstring promises an output normalised to [0, 1] and the
    specification a maximum absolute value of 1, but the code divides by the
    largest value of the signed map.  For a binary mask that is a small
    object in a longer row the far background voxel holds -6 after
    normalisation: the values leave [0, 1] and the largest absolute value is
    6, not 1.  A mask with labels 2 and 5 is accepted as well: the mask is
    not checked. *)
Lemma normalised_map_exceeds_one_in_magnitude :
  (exists out,
     convert_mask_to_distance_map row_SignedMaurerDistanceMap example_mask false true
     = inr (FiniteImage out)
     /\ map Qred out.(values) = [-6; -5; -4; -3; -2; -1; 0; 1; 0; -1]%Q
     /\ (max_abs out.(values) == 6)%Q
     /\ ~ (max_abs out.(values) == 1)%Q
     /\ Exists (fun v => v < 0)%Q out.(values))
  /\ (exists out,
        convert_mask_to_distance_map row_SignedMaurerDistanceMap example_labels
                                     false true
        = inr (FiniteImage out)).
Proof.
  split; eexists; [split; [reflexivity|]|reflexivity].
  split; [reflexivity|]. split; [reflexivity|]. split.
  - intros H. vm_compute in H. discriminate.
  - apply Exists_cons_hd. reflexivity.
Qed.

(** * Further properties of the code *)

(** ** smooth_and_resample: what is logged and what comes back *)


Section UnitFactor.

Import Binary64.

(** X1.  A shrink factor of 1 keeps the grid up to rounding.  On an image
    with at least two and fewer than [2^50] voxels along every axis and
    spacings that are doubles between [2^-900] and [2^900], when the
    smoothing has raised nothing, [smooth_and_resample] asks for the input's
    size, origin, direction and pixel type.  The spacing
    [(S - 1) * P / (S - 1)] it asks for is [P] itself on an axis where
    [(S - 1) * P] is a double, and within the fraction [2^-51] of [P] on any
    axis. *)
Theorem shrink_factor_one_keeps_the_grid
  (square : Q -> Py.result Q) (image smoothed_image : Image) (smoothing_sigma : Q)
  (resampler : Z) :
  Binary64.smoothed square image smoothing_sigma = inr smoothed_image ->
  Forall (fun sz => 2 <= sz < 2 ^ 50) (GetSize image) ->
  Forall regular_spacing (GetSpacing image) ->
  exists request,
    Binary64.smooth_and_resample square image (Scalar 1) smoothing_sigma false
                                 resampler
    = inr request
    /\ request.(Binary64.image1) = smoothed_image
    /\ request.(Binary64.requested_size) = GetSize image
    /\ Forall2 (fun out axis =>
                  exists v,
                    out = Finite v /\ two_roundings v (snd axis)
                    /\ (is_double (inject_Z (fst axis - 1) * snd axis) = true ->
                        v = Qred (snd axis)))
               request.(Binary64.outputSpacing)
               (combine (GetSize image) (GetSpacing image))
    /\ request.(Binary64.outputOrigin) = GetOrigin image
    /\ request.(Binary64.outputDirection) = GetDirection image
    /\ request.(Binary64.outputPixelType) = GetPixelID image.
Proof.
  intros Hsm Hsz Hsp.
  destruct (regular_level_request square image smoothed_image (Scalar 1)
              smoothing_sigma resampler Hsm)
    as (request & Hrun & Him & Hsize & Hspacing & Ho & Hd & Hp & _).
  - simpl. apply Forall2_repeat. eapply Forall_impl; [|exact Hsz].
    intros sz H. now apply unit_factor_regular.
  - exact Hsp.
  - simpl in Hsize, Hspacing. rewrite spec_size_unit in Hsize, Hspacing.
    exists request. split; [exact Hrun|]. split; [exact Him|]. split; [exact Hsize|].
    split; [|now repeat split].
    apply rounded_spacing_same_sizes; [|exact Hsp|exact Hspacing].
    eapply Forall_impl; [|exact Hsz]. intros sz H. simpl in H. lia.
Qed.

(** Eight voxels of 1 mm stay 1 mm apart; four voxels of 0.1 mm come back
    0.10000000000000002 mm apart. *)
Lemma shrink_factor_one_keeps_the_grid_witness :
  let tenth := (3602879701896397 # 36028797018963968)%Q in
  exists request,
    Binary64.smooth_and_resample (fun s => inr (s * s)%Q)
      (mkImage (mkGrid [8; 4] [1; tenth]%Q [0; 0]%Q [1; 0; 0; 1]%Q) sitk.sitkFloat32
               (Stored "fixed"))
      (Scalar 1) 0 false sitk.sitkLinear
    = inr request
    /\ round64 (1 # 10) = Finite tenth
    /\ request.(Binary64.requested_size) = [8; 4]
    /\ request.(Binary64.outputSpacing)
       = [Finite 1; Finite (7205759403792795 # 72057594037927936)]
    /\ request.(Binary64.outputOrigin) = [0; 0]%Q.
Proof.
  intros tenth.
  destruct (shrink_factor_one_keeps_the_grid (fun s => inr (s * s)%Q)
              (mkImage (mkGrid [8; 4] [1; tenth]%Q [0; 0]%Q [1; 0; 0; 1]%Q)
                       sitk.sitkFloat32 (Stored "fixed"))
              (mkImage (mkGrid [8; 4] [1; tenth]%Q [0; 0]%Q [1; 0; 0; 1]%Q)
                       sitk.sitkFloat32 (Stored "fixed"))
              0 sitk.sitkLinear)
    as (request & Hrun & _ & Hsize & _ & Horigin & _).
  - reflexivity.
  - repeat constructor; try reflexivity; try (vm_compute; discriminate).
  - repeat constructor; try reflexivity; try (vm_compute; discriminate).
  - exists request. split; [exact Hrun|]. split; [reflexivity|].
    split; [exact Hsize|]. split; [|exact Horigin].
    vm_compute in Hrun. inversion Hrun. reflexivity.
Defined.

End UnitFactor.



(** ** smooth_and_resample: a zero shrink factor, and isotropic levels *)

Lemma new_size_entry_raises (sz : Z) (f : Q) (e : Py.exn) :
  new_size_entry sz f = inl e -> e = Py.ZeroDivisionError.
Proof.
  unfold new_size_entry, Py.truediv. destruct (Qeq_bool f 0); congruence.
Qed.

Lemma new_size_entry_zero (sz : Z) (f : Q) :
  (f == 0)%Q -> new_size_entry sz f = inl Py.ZeroDivisionError.
Proof.
  intros H. unfold new_size_entry, Py.truediv.
  apply Qeq_eq_bool in H. now rewrite H.
Qed.

Lemma Exists_firstn_combine {A B} (P : B -> Prop) (l : list A) (m : list B) :
  Exists P (firstn (List.length l) m) ->
  exists a b, In (a, b) (combine l m) /\ P b.
Proof.
  revert m. induction l as [|a l IH]; intros [|b m] H; simpl in H;
    try (now inversion H).
  inversion H as [? ? Hb|? ? Hr]; subst.
  - exists a, b. split; [now left|assumption].
  - destruct (IH m Hr) as (a' & b' & Hin & Hp). exists a', b'. split; [now right|assumption].
Qed.

Lemma Exists_firstn_repeat {A} (P : A -> Prop) (a : A) (n k : nat) :
  Exists P (firstn n (repeat a k)) -> P a.
Proof.
  revert k. induction n as [|n IH]; intros [|k] H; simpl in H; try (now inversion H).
  inversion H; subst; [assumption|]. eapply IH; eassumption.
Qed.

(** X3.  A shrink factor of 0, as the scalar or as the entry of some axis of
    the image, makes [smooth_and_resample] raise [ZeroDivisionError] and
    return no image. *)
Theorem zero_shrink_factor_divides_by_zero
  (image : Image) (shrink_factor : per_axis) (smoothing_sigma : Q) (resampler : Z)
  (log : list Event) :
  GetSpacing image <> [] ->
  Exists (fun f => f == 0)%Q
         (firstn (List.length (GetSize image))
                 (factors shrink_factor (List.length (GetSize image)))) ->
  exists log',
    smooth_and_resample image shrink_factor smoothing_sigma false resampler log
    = (inl Py.ZeroDivisionError, log').
Proof.
  intros Hsp Hex.
  assert (Hsize : new_size false shrink_factor (GetSize image) (GetSpacing image)
                  = inl Py.ZeroDivisionError).
  { unfold new_size. destruct shrink_factor as [f|l]; simpl in Hex.
    - apply mapR_raises.
      + intros sz e. apply new_size_entry_raises.
      + destruct (GetSize image) as [|sz sizes]; simpl in Hex; [now inversion Hex|].
        exists sz. split; [now left|].
        apply new_size_entry_zero.
        exact (Exists_firstn_repeat _ f (S (List.length sizes)) (S (List.length sizes))
                                    Hex).
    - apply mapR_raises.
      + intros [sz f] e. apply new_size_entry_raises.
      + destruct (Exists_firstn_combine _ _ _ Hex) as (sz & f & Hin & Hf).
        exists (sz, f). split; [assumption|]. now apply new_size_entry_zero. }
  destruct (smoothing_defined image smoothing_sigma log Hsp) as (sm & log1 & Hsm).
  exists log1. unfold smooth_and_resample, bind at 1. rewrite Hsm.
  unfold bind at 1, lift at 1. now rewrite Hsize.
Qed.

Lemma zero_shrink_factor_divides_by_zero_witness :
  exists log',
    smooth_and_resample example_fixed (PerAxis [2; 0]%Q) 1 false sitk.sitkLinear []
    = (inl Py.ZeroDivisionError, log').
Proof.
  apply zero_shrink_factor_divides_by_zero.
  - discriminate.
  - simpl. right. left. reflexivity.
Defined.

(** ** control_point_spacing_distance_to_number: lists of grid spacings *)

(** X5.  A grid spacing given as a one-element list is broadcast over the
    axes: the result is the one of the scalar. *)
Theorem one_element_grid_spacing_is_broadcast (image : Image) (d : Q) :
  Binary64.control_point_spacing_distance_to_number image (PerAxis [d])
  = Binary64.control_point_spacing_distance_to_number image (Scalar d).
Proof.
  unfold Binary64.control_point_spacing_distance_to_number, Binary64.number_points,
    Py.broadcast.
  set (prod := Py.zip_with Binary64.mul (map Binary64.float_of_int64 (GetSize image))
                           (map Binary64.round64 (GetSpacing image))).
  destruct prod as [|p [|q prod]]; reflexivity.
Qed.

(** X6.  A list of grid spacings that has neither one entry per axis nor a
    single entry cannot be broadcast: on an image of two axes or more the
    call raises [ValueError]. *)
Theorem grid_spacing_list_of_wrong_length_is_refused (image : Image) (ds : list Q) :
  List.length (GetSpacing image) = List.length (GetSize image) ->
  (2 <= List.length (GetSize image))%nat ->
  List.length ds <> List.length (GetSize image) ->
  List.length ds <> 1%nat ->
  Binary64.control_point_spacing_distance_to_number image (PerAxis ds)
  = inl (Py.ValueError "operands could not be broadcast together").
Proof.
  intros Hlen Hdim Hds H1.
  unfold Binary64.control_point_spacing_distance_to_number, Binary64.number_points,
    Py.broadcast.
  assert (Hp : List.length (Py.zip_with Binary64.mul
                              (map Binary64.float_of_int64 (GetSize image))
                              (map Binary64.round64 (GetSpacing image)))
               = List.length (GetSize image)).
  { rewrite zip_with_length_min, !length_map, Hlen. apply Nat.min_id. }
  set (prod := Py.zip_with Binary64.mul (map Binary64.float_of_int64 (GetSize image))
                           (map Binary64.round64 (GetSpacing image))) in *.
  rewrite length_map.
  destruct (Nat.eqb_spec (List.length prod) (List.length ds)) as [E|E]; [congruence|].
  destruct prod as [|p [|q prod]]; simpl in Hp; try lia.
  destruct ds as [|d [|d' ds]]; simpl in *; try reflexivity. congruence.
Qed.

Lemma grid_spacing_list_of_wrong_length_is_refused_witness :
  Binary64.control_point_spacing_distance_to_number
    (mkImage (mkGrid [256; 256; 256] [1; 1; 1]%Q [0; 0; 0]%Q []) sitk.sitkFloat32
             (Stored "fixed"))
    (PerAxis [64; 64]%Q)
  = inl (Py.ValueError "operands could not be broadcast together").
Proof.
  apply grid_spacing_list_of_wrong_length_is_refused; simpl; try reflexivity; lia.
Defined.

(** ** multiscale_demons: the levels *)

Lemma mapM_length {A B} (f : A -> M B) (l : list A) (log log' : list Event)
  (res : list B) :
  mapM f l log = (inr res, log') -> List.length res = List.length l.
Proof.
  revert log res. induction l as [|a l IH]; intros log res H; simpl in H.
  - unfold ret in H. now inversion H.
  - unfold bind at 1 in H. destruct (f a log) as [[e|b] l1]; [discriminate|].
    unfold bind at 1 in H. destruct (mapM f l l1) as [[e|bs] l2] eqn:E; [discriminate|].
    unfold ret in H. inversion H; subst. simpl. f_equal. eapply IH; eassumption.
Qed.

Lemma build_pyramid_lengths
  (fixed_image moving_image : Image) (shrink_factors : list per_axis)
  (smoothing_sigmas : list Q) (isotropic_resample : bool) (log log1 : list Event)
  (fixed_images moving_images : list Image) :
  build_pyramid fixed_image moving_image shrink_factors smoothing_sigmas
                isotropic_resample log
  = (inr (fixed_images, moving_images), log1) ->
  List.length fixed_images
  = Nat.min (List.length shrink_factors) (List.length smoothing_sigmas)
  /\ List.length moving_images = List.length fixed_images.
Proof.
  unfold build_pyramid. intros H. unfold bind at 1 in H.
  match type of H with
  | context [mapM ?f ?l log] =>
      destruct (mapM f l log) as [[e|levels] l2] eqn:Em; [discriminate|];
      apply mapM_length in Em
  end.
  unfold ret in H. inversion H; subst.
  rewrite !length_map, Em, length_rev, length_combine. split; reflexivity.
Qed.

(** X7.  The pyramid has one level per entry of the shorter of the two
    schedules, for the fixed and for the moving image alike: a surplus shrink
    factor or sigma is dropped without an error. *)
Theorem pyramid_has_one_level_per_zipped_entry
  (fixed_image moving_image : Image) (shrink_factors : list per_axis)
  (smoothing_sigmas : list Q) (isotropic_resample : bool) (log log1 : list Event)
  (fixed_images moving_images : list Image) :
  build_pyramid fixed_image moving_image shrink_factors smoothing_sigmas
                isotropic_resample log
  = (inr (fixed_images, moving_images), log1) ->
  List.length fixed_images
  = Nat.min (List.length shrink_factors) (List.length smoothing_sigmas)
  /\ List.length moving_images = List.length fixed_images.
Proof. apply build_pyramid_lengths. Qed.

Lemma pyramid_has_one_level_per_zipped_entry_witness :
  exists fixed_images moving_images log1,
    build_pyramid example_fixed example_moving [Scalar 4; Scalar 2; Scalar 1] [2; 0]%Q
                  false []
    = (inr (fixed_images, moving_images), log1)
    /\ List.length fixed_images = 2%nat
    /\ List.length moving_images = 2%nat.
Proof.
  destruct (build_pyramid example_fixed example_moving [Scalar 4; Scalar 2; Scalar 1]
                          [2; 0]%Q false []) as [[e|[fi mi]] log1] eqn:E.
  - vm_compute in E. discriminate.
  - exists fi, mi, log1. split; [reflexivity|].
    destruct (pyramid_has_one_level_per_zipped_entry _ _ _ _ _ _ _ _ _ E) as [H1 H2].
    split; [exact H1|]. rewrite H2. exact H1.
Defined.


Lemma item_defined {A} (l : list A) (k : nat) (log : list Event) :
  (k < List.length l)%nat -> exists x, nth_error l k = Some x /\ item l k log = (inr x, log).
Proof.
  intros H. unfold item. destruct (nth_error l k) as [x|] eqn:E.
  - exists x. now split.
  - apply nth_error_None in E. lia.
Qed.

Lemma item_out_of_range {A} (l : list A) (k : nat) (log : list Event) :
  (List.length l <= k)%nat -> item l k log = (inl Py.IndexError, log).
Proof.
  intros H. unfold item. apply nth_error_None in H. now rewrite H.
Qed.


(** With too few iteration counts the loop stops with [IndexError]. *)
Lemma finer_levels_short (iteration_staging : list Z) (levels : list (Image * Image)) :
  forall (alg : DemonsFilter) (i : nat) (field : Image) (log : list Event),
    levels <> [] ->
    (List.length iteration_staging < i + 1 + List.length levels)%nat ->
    exists log',
      finer_levels alg levels i iteration_staging field log = (inl Py.IndexError, log').
Proof.
  induction levels as [|[f m] rest IH]; intros alg i field log Hne Hlen;
    [congruence|].
  simpl in Hlen. simpl finer_levels. unfold bind at 1.
  unfold ResampleTo at 1, made_image at 1. unfold bind at 1, emit at 1, ret at 1.
  cbv beta iota. unfold bind at 1.
  destruct (Nat.le_gt_cases (List.length iteration_staging) (i + 1)) as [Hout|Hin].
  - rewrite item_out_of_range by assumption. eauto.
  - destruct (item_defined iteration_staging (i + 1)
                (log ++ [MadeImage (mkImage (GetGrid f) (GetPixelID field)
                                            (ResampleOf field IdentityTransform
                                                        sitk.sitkLinear 0))]))
      as (x & Hx & Hitem); [lia|].
    rewrite Hitem. cbv beta iota.
    unfold bind at 1. unfold Demons_Execute at 1, made_image at 1.
    unfold bind at 1, emit at 1, ret at 1. cbv beta iota.
    apply IH; [|lia]. destruct rest; [simpl in *; lia|discriminate].
Qed.


Lemma initial_field_needs_a_level
  (initial_transform : option Transform) (initial_displacement_field : option Image)
  (moving_image : Image) (fixed_images : list Image) (log log' : list Event)
  (field : Image) :
  initial_field initial_transform initial_displacement_field moving_image fixed_images
                log = (inr field, log') ->
  fixed_images <> [].
Proof.
  intros H ->. unfold initial_field in H.
  destruct initial_displacement_field; [discriminate|].
  destruct initial_transform; [discriminate|].
  destruct (List.length (GetSize moving_image) =? 2)%nat; [discriminate|].
  destruct (List.length (GetSize moving_image) =? 3)%nat; discriminate.
Qed.

Lemma pyramid_split
  (fixed_image moving_image : Image) (shrink_factors : list per_axis)
  (smoothing_sigmas : list Q) (isotropic_resample : bool) (log log1 : list Event)
  (fixed_images moving_images : list Image) :
  build_pyramid fixed_image moving_image shrink_factors smoothing_sigmas
                isotropic_resample log
  = (inr (fixed_images, moving_images), log1) ->
  fixed_images <> [] ->
  exists finer c finer_m c_m,
    fixed_images = finer ++ [c] /\ moving_images = finer_m ++ [c_m]
    /\ List.length finer = List.length finer_m.
Proof.
  intros H Hne.
  destruct (build_pyramid_lengths _ _ _ _ _ _ _ _ _ H) as [_ Hlen].
  destruct (exists_last Hne) as (finer & c & ->).
  assert (Hm : moving_images <> []).
  { intros ->. rewrite length_app in Hlen. simpl in Hlen. lia. }
  destruct (exists_last Hm) as (finer_m & c_m & ->).
  exists finer, c, finer_m, c_m. repeat split.
  rewrite !length_app in Hlen. simpl in Hlen. lia.
Qed.



Lemma run_levels_short
  (alg : DemonsFilter) (finer finer_m : list Image) (c c_m : Image)
  (iteration_staging : list Z) (field : Image) (log : list Event) :
  List.length finer = List.length finer_m ->
  (List.length iteration_staging < List.length (finer ++ [c]))%nat ->
  exists log',
    run_levels alg (finer ++ [c]) (finer_m ++ [c_m]) iteration_staging field log
    = (inl Py.IndexError, log').
Proof.
  intros Hlen Hiters. rewrite length_app in Hiters. simpl in Hiters.
  unfold run_levels.
  destruct (Nat.le_gt_cases (List.length iteration_staging) 0) as [Hout|Hin].
  - unfold bind at 1. rewrite item_out_of_range by assumption. eauto.
  - destruct (item_defined iteration_staging 0 log) as (x & Hx & Hitem); [lia|].
    unfold bind at 1. rewrite Hitem. cbv beta iota.
    unfold bind at 1. rewrite last_item_app. cbv beta iota.
    unfold bind at 1. rewrite last_item_app. cbv beta iota.
    unfold bind at 1. unfold Demons_Execute at 1, made_image at 1.
    unfold bind at 1, emit at 1, ret at 1. cbv beta iota.
    rewrite !removelast_last. unfold bind at 1.
    match goal with
    | |- context [finer_levels ?a ?lv 0 iteration_staging ?fld ?l] =>
        destruct (finer_levels_short iteration_staging lv a 0%nat fld l) as (log' & Hrun)
    end.
    + intros E. apply (f_equal (@List.length _)) in E.
      rewrite length_rev, length_combine in E. simpl in E. lia.
    + rewrite length_rev, length_combine. lia.
    + rewrite Hrun. eauto.
Qed.


(** X9.  With fewer iteration counts than pyramid levels,
    [multiscale_demons] raises [IndexError] and returns neither transform
    nor field, whatever was computed on the levels before. *)
Theorem too_few_iteration_counts_raise
  (registration_algorithm : DemonsFilter) (fixed_image moving_image : Image)
  (initial_transform : option Transform) (initial_displacement_field : option Image)
  (shrink_factors : list per_axis) (smoothing_sigmas : list Q)
  (iteration_staging : list Z) (isotropic_resample : bool)
  (log log1 log2 : list Event) (fixed_images moving_images : list Image)
  (field : Image) :
  build_pyramid fixed_image moving_image shrink_factors smoothing_sigmas
                isotropic_resample log
  = (inr (fixed_images, moving_images), log1) ->
  initial_field initial_transform initial_displacement_field moving_image fixed_images
                log1 = (inr field, log2) ->
  (List.length iteration_staging < List.length fixed_images)%nat ->
  exists log',
    multiscale_demons registration_algorithm fixed_image moving_image
      initial_transform initial_displacement_field shrink_factors smoothing_sigmas
      iteration_staging isotropic_resample log
    = (inl Py.IndexError, log').
Proof.
  intros Hp Hf Hlen.
  pose proof (initial_field_needs_a_level _ _ _ _ _ _ _ Hf) as Hne.
  destruct (pyramid_split _ _ _ _ _ _ _ _ _ Hp Hne)
    as (finer & c & finer_m & c_m & -> & -> & Heq).
  destruct (run_levels_short registration_algorithm finer finer_m c c_m
              iteration_staging field log2 Heq Hlen) as (log' & Hrun).
  exists log'.
  unfold multiscale_demons. unfold bind at 1. rewrite Hp. cbv beta iota.
  simpl fst. simpl snd. unfold bind at 1. rewrite Hf. exact Hrun.
Qed.

(** X10.  On an empty schedule (no shrink factor, or no sigma) the pyramid
    is empty and [multiscale_demons] raises before any library call:
    [IndexError] from [fixed_images[-1]], or [AttributeError] when neither a
    field nor a transform is supplied and the moving image has neither two
    nor three axes. *)
Theorem empty_schedule_raises
  (registration_algorithm : DemonsFilter) (fixed_image moving_image : Image)
  (initial_transform : option Transform) (initial_displacement_field : option Image)
  (shrink_factors : list per_axis) (smoothing_sigmas : list Q)
  (iteration_staging : list Z) (isotropic_resample : bool) (log : list Event) :
  shrink_factors = [] \/ smoothing_sigmas = [] ->
  multiscale_demons registration_algorithm fixed_image moving_image
    initial_transform initial_displacement_field shrink_factors smoothing_sigmas
    iteration_staging isotropic_resample log
  = (inl (match initial_displacement_field, initial_transform with
          | None, None =>
              if ((List.length (GetSize moving_image) =? 2)
                  || (List.length (GetSize moving_image) =? 3))%nat
              then Py.IndexError else Py.AttributeError
          | _, _ => Py.IndexError
          end), log).
Proof.
  intros H.
  assert (E : combine shrink_factors smoothing_sigmas = []).
  { destruct H as [-> | ->]; [reflexivity|]. now destruct shrink_factors. }
  unfold multiscale_demons, build_pyramid. rewrite E. simpl.
  unfold bind at 1. unfold bind at 1. unfold ret at 1. cbv beta iota.
  unfold ret at 1. cbv beta iota. simpl fst. unfold bind at 1. unfold initial_field.
  destruct initial_displacement_field; [reflexivity|].
  destruct initial_transform; [reflexivity|].
  destruct (List.length (GetSize moving_image) =? 2)%nat; [reflexivity|].
  destruct (List.length (GetSize moving_image) =? 3)%nat; reflexivity.
Qed.

Lemma empty_schedule_raises_witness :
  multiscale_demons (demons_filter 1 false) example_fixed example_moving None
    (Some example_field) [] [] [10] false []
  = (inl Py.IndexError, []).
Proof.
  apply (empty_schedule_raises (demons_filter 1 false) example_fixed example_moving
           None (Some example_field) [] [] [10] false []).
  now left.
Defined.

Lemma two_levels (l : list Image) :
  List.length l = 2%nat -> exists a b, l = [a; b].
Proof.
  destruct l as [|a [|b [|c l]]]; simpl; intros H; try discriminate. eauto.
Qed.


Lemma too_few_iteration_counts_raise_witness :
  exists log',
    multiscale_demons (demons_filter 1 false) example_fixed example_moving None
      (Some example_field) [Scalar 2; Scalar 1] [2; 0]%Q [10] false []
    = (inl Py.IndexError, log').
Proof.
  destruct (build_pyramid example_fixed example_moving [Scalar 2; Scalar 1] [2; 0]%Q
                          false []) as [[e|[fi mi]] log1] eqn:E.
  { vm_compute in E. discriminate. }
  destruct (build_pyramid_lengths _ _ _ _ _ _ _ _ _ E) as [Hfi _]. simpl in Hfi.
  destruct (two_levels fi Hfi) as (a & b & ->).
  destruct (initial_field None (Some example_field) example_moving [a; b] log1)
    as [[e|field] log2] eqn:F.
  { vm_compute in F. discriminate. }
  apply (too_few_iteration_counts_raise (demons_filter 1 false) example_fixed
           example_moving None (Some example_field) [Scalar 2; Scalar 1] [2; 0]%Q
           [10] false [] log1 log2 [a; b] mi field E F).
  simpl. lia.
Defined.

(** ** fast_symmetric_forces_demons_registration on an image *)

Lemma working_grid (image : Image) : GetGrid (working image) = GetGrid image.
Proof. unfold working. now destruct (GetPixelID image =? 6). Qed.

(** X11.  With [structure=False], once the multi-resolution run has
    returned, the moving image is resampled under the returned transform with
    the caller's interpolator and the caller's fill value, and nothing is
    thresholded.  The registered image lies on the fixed image's grid and has
    the pixel type the moving image came with; the returned field is
    resampled onto the fixed grid as well. *)
Theorem image_is_resampled_with_the_fill_value
  (fixed_image moving_image : Image) (resolution_staging : list Q)
  (iteration_staging : list Z) (isotropic_resample : bool)
  (initial_displacement_field : option Image) (smoothing_sigma_factor : Q)
  (smoothing_sigmas : option (list Q)) (default_value : Q) (ncores : Z)
  (interp_order : Z) (verbose : bool) (log log1 : list Event)
  (output_transform : Transform) (deformation_field : Image) :
  multiscale_demons (demons_filter ncores verbose) (working fixed_image)
    (working moving_image) None initial_displacement_field
    (map Scalar resolution_staging)
    (staged_sigmas smoothing_sigmas smoothing_sigma_factor resolution_staging)
    iteration_staging isotropic_resample
    ((log ++ working_events fixed_image) ++ working_events moving_image)
  = (inr (output_transform, deformation_field), log1) ->
  exists registered_image resampled_field made,
    fast_symmetric_forces_demons_registration fixed_image moving_image
      resolution_staging iteration_staging isotropic_resample
      initial_displacement_field smoothing_sigma_factor smoothing_sigmas
      default_value ncores false interp_order verbose log
    = (inr (registered_image, output_transform, resampled_field), log1 ++ made)
    /\ GetVoxels registered_image
       = CastOf (propagated (working fixed_image) (working moving_image)
                            output_transform default_value interp_order)
    /\ existsb is_threshold made = false
    /\ GetGrid registered_image = GetGrid fixed_image
    /\ GetPixelID registered_image = GetPixelID moving_image
    /\ GetGrid resampled_field = GetGrid fixed_image.
Proof.
  intros H.
  exists (casted (propagated (working fixed_image) (working moving_image)
                             output_transform default_value interp_order)
                 (GetPixelID moving_image)).
  exists (mkImage (GetGrid (working fixed_image)) (GetPixelID deformation_field)
                  (ResampleOf deformation_field IdentityTransform sitk.sitkLinear 0)).
  exists [MadeImage (propagated (working fixed_image) (working moving_image)
                                output_transform default_value interp_order);
          MadeImage (casted (propagated (working fixed_image) (working moving_image)
                                        output_transform default_value interp_order)
                            (GetPixelID moving_image));
          MadeImage (mkImage (GetGrid (working fixed_image))
                             (GetPixelID deformation_field)
                             (ResampleOf deformation_field IdentityTransform
                                         sitk.sitkLinear 0))].
  split; [|split; [reflexivity|split; [|split; [|split; [reflexivity|]]]]].
  - unfold fast_symmetric_forces_demons_registration.
    unfold working, working_events, staged_sigmas, demons_filter in *.
    destruct (GetPixelID fixed_image =? 6) eqn:Ef;
      destruct (GetPixelID moving_image =? 6) eqn:Em;
      cbn -[multiscale_demons] in *;
      rewrite ?app_nil_r in *;
      unfold casted in *; unfold bind at 1; rewrite H;
      unfold bind, Resample_Execute, Cast, BinaryThreshold, ResampleTo, made_image,
        emit, ret;
      cbn -[CopyInformation];
      rewrite CopyInformation_same_size by reflexivity;
      cbn; rewrite <- ?app_assoc; reflexivity.
  - reflexivity.
  - unfold casted, propagated. cbn. apply working_grid.
  - cbn. apply working_grid.
Qed.

Lemma image_is_resampled_with_the_fill_value_witness :
  exists output_transform registered_image resampled_field log',
    fast_symmetric_forces_demons_registration example_fixed example_moving
      [2; 1]%Q [10; 10] false None 1 None (-1000 # 1) 1 false 2 false []
    = (inr (registered_image, output_transform, resampled_field), log')
    /\ GetVoxels registered_image
       = CastOf (propagated (working example_fixed) (working example_moving)
                            output_transform (-1000 # 1) 2)
    /\ GetGrid registered_image = GetGrid example_fixed
    /\ GetPixelID registered_image = GetPixelID example_moving.
Proof.
  destruct (multiscale_demons (demons_filter 1 false) (working example_fixed)
              (working example_moving) None None (map Scalar [2; 1]%Q)
              (staged_sigmas None 1 [2; 1]%Q) [10; 10] false
              (([] ++ working_events example_fixed) ++ working_events example_moving))
    as [[e|[T F]] log1] eqn:E.
  - vm_compute in E. discriminate.
  - destruct (image_is_resampled_with_the_fill_value example_fixed example_moving
                [2; 1]%Q [10; 10] false None 1 None (-1000 # 1) 1 2 false [] log1 T F E)
      as (img & fld & made & Hrun & Hv & _ & Hg & Hp & _).
    exists T, img, fld. eexists. split; [exact Hrun|]. repeat split; assumption.
Defined.

(** ** initial_registration: the settings of the run *)

Lemma set_metric_keeps (r : Registration) (metric : string) (ants_radius : Z) :
  let r' := set_metric r metric ants_radius in
  ShrinkFactorsPerLevel r' = ShrinkFactorsPerLevel r
  /\ SmoothingSigmasPerLevel r' = SmoothingSigmasPerLevel r
  /\ SmoothingSigmasAreSpecifiedInPhysicalUnits r'
     = SmoothingSigmasAreSpecifiedInPhysicalUnits r
  /\ MetricMovingMask r' = MetricMovingMask r
  /\ MetricFixedMask r' = MetricFixedMask r
  /\ IterationCommand r' = IterationCommand r.
Proof.
  unfold set_metric. simpl.
  repeat match goal with
         | |- context [String.eqb metric ?s] => destruct (String.eqb metric s)
         end; simpl; repeat split; reflexivity.
Qed.

Lemma set_optimiser_keeps (lower : string -> string) (r : Registration)
  (optimiser : string) (number_of_iterations : Z) (verbose : bool) :
  let r' := set_optimiser lower r optimiser number_of_iterations verbose in
  ShrinkFactorsPerLevel r' = ShrinkFactorsPerLevel r
  /\ SmoothingSigmasPerLevel r' = SmoothingSigmasPerLevel r
  /\ SmoothingSigmasAreSpecifiedInPhysicalUnits r'
     = SmoothingSigmasAreSpecifiedInPhysicalUnits r
  /\ Interpolator r' = Interpolator r
  /\ MetricSamplingPercentage r' = MetricSamplingPercentage r
  /\ MetricSamplingStrategy r' = MetricSamplingStrategy r
  /\ OptimizerScalesFromPhysicalShift r' = OptimizerScalesFromPhysicalShift r
  /\ MetricMovingMask r' = MetricMovingMask r
  /\ MetricFixedMask r' = MetricFixedMask r.
Proof.
  unfold set_optimiser. simpl.
  repeat match goal with
         | |- context [String.eqb (lower optimiser) ?s] =>
             destruct (String.eqb (lower optimiser) s)
         end; simpl; repeat split; reflexivity.
Qed.

(** X13.  For a recognised method, [initial_registration] runs the
    registration with the schedules it was given, sigmas in physical units,
    linear interpolation, regular sampling at the given rate, optimiser
    scales from the physical shift, [fixed_structure] as the fixed mask and
    [moving_structure] as the moving mask.  The final resampling accepts
    any [final_interp]; the registered image lies on the fixed image's grid
    in the pixel type the moving image came with. *)
Theorem registration_runs_as_configured
  (lower : string -> string) (fixed_image moving_image : Image)
  (fixed_structure moving_structure : option Image)
  (reg_method metric optimiser : string)
  (shrink_factors : list Z) (smooth_sigmas : list Q) (sampling_rate : Q)
  (ants_radius final_interp number_of_iterations : Z)
  (default_value : Q) (verbose : bool) (log : list Event) :
  recognised_method lower reg_method = true ->
  exists r out combined,
    initial_registration lower fixed_image moving_image fixed_structure
      moving_structure reg_method metric optimiser shrink_factors smooth_sigmas
      sampling_rate ants_radius final_interp number_of_iterations default_value
      verbose log
    = (inr (out, combined),
       log ++ linear_entry fixed_image moving_image
           ++ linear_exit r fixed_image moving_image default_value final_interp)
    /\ ShrinkFactorsPerLevel r = shrink_factors
    /\ SmoothingSigmasPerLevel r = smooth_sigmas
    /\ SmoothingSigmasAreSpecifiedInPhysicalUnits r = Some true
    /\ Interpolator r = Some sitk.sitkLinear
    /\ MetricSamplingPercentage r = Some sampling_rate
    /\ MetricSamplingStrategy r = Some sitk.REGULAR
    /\ OptimizerScalesFromPhysicalShift r = true
    /\ MetricMovingMask r = moving_structure
    /\ MetricFixedMask r = fixed_structure
    /\ IterationCommand r = verbose
    /\ GetGrid out = GetGrid fixed_image
    /\ GetPixelID out = GetPixelID moving_image.
Proof.
  intros H. unfold initial_registration.
  unfold Cast, CenteredTransformInitializer, made_image, made_transform.
  cbn -[set_initial_transform set_metric set_optimiser].
  unfold bind at 1.
  match goal with
  | |- context [set_initial_transform lower ?r reg_method ?l] =>
      destruct (set_initial_transform_recognised lower reg_method r l H)
        as (t & Ht & Hmode);
      rewrite Ht
  end.
  eexists. eexists. eexists. split.
  - cbn -[set_metric set_optimiser].
    unfold linear_entry, linear_exit, linear_output, optimised, seed, casted, propagated.
    rewrite <- !app_assoc. cbn -[set_metric set_optimiser]. reflexivity.
  - cbn -[set_metric set_optimiser].
    match goal with
    | |- context [set_optimiser lower ?r optimiser _ _] =>
        destruct (set_optimiser_keeps lower r optimiser number_of_iterations verbose)
          as (O1 & O2 & O3 & O4 & O5 & O6 & O7 & O8 & O9)
    end.
    match goal with
    | |- context [set_metric ?r metric _] =>
        destruct (set_metric_keeps r metric ants_radius)
          as (M1 & M2 & M3 & M4 & M5 & M6)
    end.
    cbn -[set_metric set_optimiser] in *.
    rewrite O1, O2, O3, O4, O5, O6, O7, O8, O9.
    cbn -[set_metric]. rewrite M1, M2, M3, M4, M5.
    repeat split; try reflexivity.
    + now destruct moving_structure.
    + now destruct fixed_structure.
Qed.

Lemma registration_runs_as_configured_witness :
  exists r out combined log',
    initial_registration lower_ascii fixed_volume moving_volume
      (Some example_structure) None "Rigid" "mean_squares" "gradient_descent"
      [8; 2; 1] [4; 2; 0]%Q (1 # 4) 3 sitk.sitkBSpline 50 (-1000 # 1) false []
    = (inr (out, combined), log')
    /\ executed_registrations log' = [r]
    /\ MetricFixedMask r = Some example_structure
    /\ MetricMovingMask r = None
    /\ MetricSamplingStrategy r = Some sitk.REGULAR
    /\ GetGrid out = GetGrid fixed_volume.
Proof.
  destruct (registration_runs_as_configured lower_ascii fixed_volume moving_volume
              (Some example_structure) None "Rigid" "mean_squares" "gradient_descent"
              [8; 2; 1] [4; 2; 0]%Q (1 # 4) 3 sitk.sitkBSpline 50 (-1000 # 1) false []
              eq_refl)
    as (r & out & combined & Hrun & _ & _ & _ & _ & _ & Hs & _ & Hm & Hf & _ & Hg & _).
  exists r, out, combined. eexists. split; [exact Hrun|].
  split; [reflexivity|]. repeat split; assumption.
Defined.

(** ** Feature preparation: normalisation *)

(** X14.  [convert_mask_to_distance_map] with [normalise=True] raises nothing
    when the largest value of the distance map is 0, as it is for an object
    all of whose voxels lie on its border: the division is carried out and
    the image handed back, on the grid of the distance map, holds inf or nan
    values. *)
Theorem zero_maximum_gives_a_non_finite_map
  (SignedMaurerDistanceMap : Array -> bool -> bool -> bool -> Py.result Array)
  (mask raw_map : Array) (squared_distance : bool) (m : Q) :
  SignedMaurerDistanceMap mask true squared_distance true = inr raw_map ->
  Py.max raw_map.(values) = inr m ->
  (m == 0)%Q ->
  convert_mask_to_distance_map SignedMaurerDistanceMap mask squared_distance true
  = inr (NonFiniteImage raw_map.(geometry)).
Proof.
  intros Hraw Hmax Hm. unfold convert_mask_to_distance_map. rewrite Hraw, Hmax.
  unfold Divide. apply Qeq_eq_bool in Hm. now rewrite Hm.
Qed.

Lemma zero_maximum_gives_a_non_finite_map_witness :
  exists raw_map,
    row_SignedMaurerDistanceMap example_thin_mask true false true = inr raw_map
    /\ convert_mask_to_distance_map row_SignedMaurerDistanceMap example_thin_mask
                                    false true
       = inr (NonFiniteImage raw_map.(geometry)).
Proof.
  eexists. split; [reflexivity|].
  apply (zero_maximum_gives_a_non_finite_map row_SignedMaurerDistanceMap
           example_thin_mask _ false 0 eq_refl).
  - reflexivity.
  - reflexivity.
Defined.

Lemma threshold_range (image : Array) :
  Forall (fun v => 0 <= v)%Q (Threshold image 0 1000).(values).
Proof.
  unfold Threshold. simpl. apply Forall_forall. intros v Hv.
  apply in_map_iff in Hv. destruct Hv as (x & <- & _).
  destruct (Qlt_le_dec x 0); [lra|]. destruct (Qlt_le_dec 1000 x); lra.
Qed.

(** X15.  [convert_mask_to_reg_structure] hands to [scale] an image whose
    values all lie between 0 and 1, with 1 attained: the distance map is
    raised by the expansion where it is below it, values outside [0, 1000]
    are set to 0, and the result is divided by its maximum, provided that
    maximum is positive. *)
Theorem structure_guidance_is_normalised
  (SignedMaurerDistanceMap : Array -> bool -> bool -> bool -> Py.result Array)
  (scale : FloatImage -> Py.result FloatImage)
  (mask raw_map : Array) (expansion m : Q) :
  SignedMaurerDistanceMap mask true false true = inr raw_map ->
  Py.max (Threshold (expanded raw_map expansion) 0 1000).(values) = inr m ->
  (0 < m)%Q ->
  exists scaled,
    convert_mask_to_reg_structure SignedMaurerDistanceMap scale mask expansion
    = scale (FiniteImage scaled)
    /\ scaled.(geometry) = raw_map.(geometry)
    /\ scaled.(values)
       = map (fun v => v / m)%Q (Threshold (expanded raw_map expansion) 0 1000).(values)
    /\ Forall (fun v => 0 <= v /\ v <= 1)%Q scaled.(values)
    /\ Exists (fun v => v == 1)%Q scaled.(values).
Proof.
  intros Hraw Hmax Hm.
  exists (mkArray raw_map.(geometry)
            (map (fun v => v / m)%Q
                 (Threshold (expanded raw_map expansion) 0 1000).(values))).
  destruct (max_spec _ _ Hmax) as (Hin & Hall).
  pose proof (threshold_range (expanded raw_map expansion)) as Hrange.
  split; [|split; [reflexivity|split; [reflexivity|split]]].
  - unfold convert_mask_to_reg_structure, convert_mask_to_distance_map.
    rewrite Hraw, Hmax. unfold Divide. rewrite (Qeq_bool_pos m Hm). reflexivity.
  - simpl. apply Forall_forall. intros q Hq. apply in_map_iff in Hq.
    destruct Hq as (v & <- & Hv). rewrite Forall_forall in Hall, Hrange.
    specialize (Hall v Hv). specialize (Hrange v Hv). simpl in Hall, Hrange.
    split.
    + apply Qle_shift_div_l; [assumption|]. lra.
    + apply Qle_shift_div_r; [assumption|]. lra.
  - simpl. apply Exists_exists. exists (m / m)%Q. split.
    + apply in_map_iff. exists m. now split.
    + field. lra.
Qed.

Lemma structure_guidance_is_normalised_witness :
  exists scaled,
    convert_mask_to_reg_structure row_SignedMaurerDistanceMap (fun a => inr a)
                                  example_mask 1
    = inr (FiniteImage scaled)
    /\ Forall (fun v => 0 <= v /\ v <= 1)%Q scaled.(values)
    /\ Exists (fun v => v == 1)%Q scaled.(values).
Proof.
  destruct (structure_guidance_is_normalised row_SignedMaurerDistanceMap
              (fun a => inr a) example_mask _ 1 _ eq_refl eq_refl)
    as (scaled & Hrun & _ & _ & Hall & Hex); [reflexivity|].
  exists scaled. split; [exact Hrun|]. split; assumption.
Defined.

(** ** bspline_registration *)

Section BSplineStage.

Variable lower : string -> string.
Variable BSplineTransformInitializer : Image -> list (option Z) -> Transform.
Variable Execute : BSpline.Method -> Image -> Image -> Transform.

Variables (fixed_image moving_image : Image).
Variables (fixed_structure moving_structure : option Image).
Variables (resolution_staging : list Z) (smooth_sigmas : list Q).
Variables (sampling_rate : BSpline.sampling) (optimiser metric : string).
Variables (grid_scale_factors : list Z) (interp_order : Z) (default_value : Q).
Variables (number_of_iterations : Z) (initial_isotropic_size : per_axis).
Variables (number_of_histogram_bins_mi : Z) (verbose : bool) (ncores : Z).
Variable log : list Event.

(** The run on working images [f] and [m], from the log [l] on. *)
Lemma bspline_run (isotropic_resample : bool) (f m : Image) (l : list Event)
  (d : Q) :
  (if isotropic_resample then
     f <- smooth_and_resample (casted fixed_image sitk.sitkFloat32)
                              initial_isotropic_size 0 true sitk.sitkLinear ;;
     m <- smooth_and_resample (casted moving_image sitk.sitkFloat32)
                              initial_isotropic_size 0 true sitk.sitkLinear ;;
     ret (f, m)
   else ret (casted fixed_image sitk.sitkFloat32,
             casted moving_image sitk.sitkFloat32))
    (log ++ [MadeImage (casted fixed_image sitk.sitkFloat32);
             MadeImage (casted moving_image sitk.sitkFloat32)])
  = (inr (f, m), l) ->
  exists mesh r,
    let output_transform := Execute r f m in
    let resampled_image :=
      propagated (casted fixed_image sitk.sitkFloat32) m output_transform
                 default_value interp_order in
    let out := casted (casted resampled_image (GetPixelID m))
                      (GetPixelID moving_image) in
    Binary64.control_point_spacing_distance_to_number f (Scalar d) = inr mesh
    /\ BSpline.bspline_registration lower BSplineTransformInitializer Execute
         fixed_image moving_image fixed_structure moving_structure
         resolution_staging smooth_sigmas sampling_rate optimiser metric (Scalar d)
         grid_scale_factors interp_order default_value number_of_iterations
         isotropic_resample initial_isotropic_size number_of_histogram_bins_mi
         verbose ncores log
       = (inr (out, output_transform),
          l ++ [MadeTransform (BSplineTransformInitializer f mesh);
                MadeTransform output_transform;
                MadeImage resampled_image;
                MadeImage (casted resampled_image (GetPixelID m));
                MadeImage out])
    /\ BSpline.InitialTransformAsBSpline r = BSplineTransformInitializer f mesh
    /\ BSpline.MetricMovingMask r = moving_structure
    /\ BSpline.MetricFixedMask r = fixed_structure
    /\ BSpline.MetricSamplingPercentage r
       = match sampling_rate with BSpline.RateFloat x => Some x | _ => None end
    /\ BSpline.MetricSamplingPercentagePerLevel r
       = match sampling_rate with BSpline.RateList xs => Some xs | _ => None end
    /\ BSpline.OptimizerType r
       = fst (BSpline.optimiser_of (lower optimiser) number_of_iterations verbose)
    /\ BSpline.OptimizerScalesFromPhysicalShift r
       = snd (BSpline.optimiser_of (lower optimiser) number_of_iterations verbose)
    /\ BSpline.MetricType r = BSpline.metric_of metric number_of_histogram_bins_mi.
Proof.
  intros Hw.
  destruct (Binary64.control_point_spacing_distance_to_number f (Scalar d))
    as [e|mesh] eqn:Hmesh.
  { unfold Binary64.control_point_spacing_distance_to_number,
      Binary64.number_points in Hmesh.
    discriminate. }
  exists mesh. eexists. split; [reflexivity|]. split.
  - unfold BSpline.bspline_registration.
    unfold Cast at 1, made_image at 1. unfold bind at 1.
    unfold bind at 1, emit at 1, ret at 1. cbv beta iota.
    unfold bind at 1. unfold Cast at 1, made_image at 1.
    unfold bind at 1, emit at 1, ret at 1. cbv beta iota.
    unfold bind at 1. unfold casted in Hw. rewrite <- app_assoc. simpl app.
    rewrite Hw. cbv beta iota. simpl fst. simpl snd.
    unfold bind at 1, lift at 1. rewrite Hmesh.
    unfold made_transform, bind, emit, ret, lift. cbn -[BSpline.optimiser_of
      BSpline.metric_of transform_propagation].
    rewrite transform_propagation_image. cbn -[BSpline.optimiser_of BSpline.metric_of].
    unfold casted, propagated. rewrite <- !app_assoc. reflexivity.
  - repeat split.
Qed.

End BSplineStage.

Lemma unrecognised_bspline_optimiser (lowered : string) (n : Z) (verbose : bool) :
  recognised_bspline_optimiser lowered = false ->
  BSpline.optimiser_of lowered n verbose = (None, false).
Proof.
  unfold recognised_bspline_optimiser, BSpline.optimiser_of. simpl.
  repeat match goal with
         | |- context [String.eqb lowered ?s] => destruct (String.eqb lowered s)
         end; simpl; try discriminate. reflexivity.
Qed.

Lemma unrecognised_bspline_metric (metric : string) (bins : Z) :
  recognised_bspline_metric metric = false ->
  BSpline.metric_of metric bins = None.
Proof.
  unfold recognised_bspline_metric, BSpline.metric_of. simpl.
  repeat match goal with
         | |- context [String.eqb metric ?s] => destruct (String.eqb metric s)
         end; simpl; try discriminate. reflexivity.
Qed.

(** X16.  [bspline_registration] validates none of its names.  Without
    isotropic resampling and with a scalar grid spacing, [Execute] is called
    on the two images cast to float with a method whose B-spline transform
    has the mesh size [control_point_spacing_distance_to_number] gives for
    the fixed image and whose masks are the ones given.  An optimiser name
    that, lower-cased, is none of the five the code tests for leaves the
    method without an optimiser, and a metric name that is none of the four
    leaves it without a metric; a sampling rate that is neither a float nor a
    list sets no sampling percentage.  Nothing is raised for such a name
    before [Execute] is called. *)
Theorem bspline_names_are_not_validated
  (lower : string -> string)
  (BSplineTransformInitializer : Image -> list (option Z) -> Transform)
  (Execute : BSpline.Method -> Image -> Image -> Transform)
  (fixed_image moving_image : Image) (fixed_structure moving_structure : option Image)
  (resolution_staging : list Z) (smooth_sigmas : list Q)
  (sampling_rate : BSpline.sampling) (optimiser metric : string) (d : Q)
  (grid_scale_factors : list Z) (interp_order : Z) (default_value : Q)
  (number_of_iterations : Z) (initial_isotropic_size : per_axis)
  (number_of_histogram_bins_mi : Z) (verbose : bool) (ncores : Z)
  (log : list Event) :
  exists mesh r before after,
    let f := casted fixed_image sitk.sitkFloat32 in
    let m := casted moving_image sitk.sitkFloat32 in
    snd (BSpline.bspline_registration lower BSplineTransformInitializer Execute
           fixed_image moving_image fixed_structure moving_structure
           resolution_staging smooth_sigmas sampling_rate optimiser metric (Scalar d)
           grid_scale_factors interp_order default_value number_of_iterations false
           initial_isotropic_size number_of_histogram_bins_mi verbose ncores log)
    = log ++ before ++ MadeTransform (Execute r f m) :: after
    /\ before = [MadeImage f; MadeImage m;
                 MadeTransform (BSplineTransformInitializer f mesh)]
    /\ Binary64.control_point_spacing_distance_to_number f (Scalar d) = inr mesh
    /\ BSpline.InitialTransformAsBSpline r = BSplineTransformInitializer f mesh
    /\ BSpline.MetricMovingMask r = moving_structure
    /\ BSpline.MetricFixedMask r = fixed_structure
    /\ (recognised_bspline_optimiser (lower optimiser) = false ->
        BSpline.OptimizerType r = None)
    /\ (recognised_bspline_metric metric = false -> BSpline.MetricType r = None)
    /\ (sampling_rate = BSpline.RateOther ->
        BSpline.MetricSamplingPercentage r = None
        /\ BSpline.MetricSamplingPercentagePerLevel r = None).
Proof.
  destruct (bspline_run lower BSplineTransformInitializer Execute fixed_image
              moving_image fixed_structure moving_structure resolution_staging
              smooth_sigmas sampling_rate optimiser metric grid_scale_factors
              interp_order default_value number_of_iterations initial_isotropic_size
              number_of_histogram_bins_mi verbose ncores log false
              (casted fixed_image sitk.sitkFloat32)
              (casted moving_image sitk.sitkFloat32) _ d eq_refl)
    as (mesh & r & Hmesh & Hrun & Ht & Hm & Hf & Hs & Hl & Ho & _ & Hme).
  exists mesh, r. eexists. eexists. split; [|split; [reflexivity|]].
  - rewrite Hrun. cbn [snd]. rewrite <- !app_assoc. reflexivity.
  - split; [exact Hmesh|]. split; [exact Ht|]. split; [exact Hm|].
    split; [exact Hf|]. split; [|split].
    + intros Hx. rewrite Ho, (unrecognised_bspline_optimiser _ _ _ Hx). reflexivity.
    + intros Hx. rewrite Hme. now apply unrecognised_bspline_metric.
    + intros ->. now split.
Qed.

(** X17.  With [isotropic_resample=True], when both images can be resampled
    to the isotropic voxel size, the registration runs on the two resampled
    images and the mesh size is taken from the resampled fixed image, but
    the registered image is resampled onto the grid of the fixed image as it
    was given, not onto the isotropic grid. *)
Theorem isotropic_registration_returns_to_the_fixed_grid
  (lower : string -> string)
  (BSplineTransformInitializer : Image -> list (option Z) -> Transform)
  (Execute : BSpline.Method -> Image -> Image -> Transform)
  (fixed_image moving_image : Image) (fixed_structure moving_structure : option Image)
  (resolution_staging : list Z) (smooth_sigmas : list Q)
  (sampling_rate : BSpline.sampling) (optimiser metric : string) (d : Q)
  (grid_scale_factors : list Z) (interp_order : Z) (default_value : Q)
  (number_of_iterations : Z) (initial_isotropic_size : per_axis)
  (number_of_histogram_bins_mi : Z) (verbose : bool) (ncores : Z)
  (log l1 l2 : list Event) (f m : Image) :
  smooth_and_resample (casted fixed_image sitk.sitkFloat32) initial_isotropic_size 0
    true sitk.sitkLinear
    (log ++ [MadeImage (casted fixed_image sitk.sitkFloat32);
             MadeImage (casted moving_image sitk.sitkFloat32)])
  = (inr f, l1) ->
  smooth_and_resample (casted moving_image sitk.sitkFloat32) initial_isotropic_size 0
    true sitk.sitkLinear l1
  = (inr m, l2) ->
  exists mesh r out made,
    BSpline.bspline_registration lower BSplineTransformInitializer Execute
      fixed_image moving_image fixed_structure moving_structure resolution_staging
      smooth_sigmas sampling_rate optimiser metric (Scalar d) grid_scale_factors
      interp_order default_value number_of_iterations true initial_isotropic_size
      number_of_histogram_bins_mi verbose ncores log
    = (inr (out, Execute r f m), l2 ++ made)
    /\ Binary64.control_point_spacing_distance_to_number f (Scalar d) = inr mesh
    /\ BSpline.InitialTransformAsBSpline r = BSplineTransformInitializer f mesh
    /\ GetVoxels out
       = CastOf (casted (propagated (casted fixed_image sitk.sitkFloat32) m
                                    (Execute r f m) default_value interp_order)
                        (GetPixelID m))
    /\ GetGrid out = GetGrid fixed_image
    /\ GetPixelID out = GetPixelID moving_image.
Proof.
  intros Hf Hm.
  destruct (bspline_run lower BSplineTransformInitializer Execute fixed_image
              moving_image fixed_structure moving_structure resolution_staging
              smooth_sigmas sampling_rate optimiser metric grid_scale_factors
              interp_order default_value number_of_iterations initial_isotropic_size
              number_of_histogram_bins_mi verbose ncores log true f m l2 d)
    as (mesh & r & Hmesh & Hrun & Ht & _).
  { unfold bind at 1. rewrite Hf. unfold bind at 1. rewrite Hm. reflexivity. }
  exists mesh, r. eexists. eexists. split; [exact Hrun|].
  repeat split; assumption.
Qed.

Lemma isotropic_registration_returns_to_the_fixed_grid_witness :
  exists f m mesh r out log',
    BSpline.bspline_registration lower_ascii
      (fun _ mesh => TranslationTransform (Z.of_nat (List.length mesh)))
      (fun r _ _ => CompositeTransform [BSpline.InitialTransformAsBSpline r])
      example_fixed example_moving None None [8; 4; 2] [4; 2; 1]%Q
      (BSpline.RateFloat (1 # 10)) "LBFGS" "mean_squares" (Scalar 4) [1; 2; 4] 3
      (-1000 # 1) 20 true (Scalar 2) 30 false 8 []
    = (inr (out, CompositeTransform [BSpline.InitialTransformAsBSpline r]), log')
    /\ GetSize f = [4; 4]
    /\ GetSize m = [4; 4]
    /\ Binary64.control_point_spacing_distance_to_number f (Scalar 4) = inr mesh
    /\ GetGrid out = GetGrid example_fixed
    /\ GetSize out = [8; 8].
Proof.
  destruct (smooth_and_resample (casted example_fixed sitk.sitkFloat32) (Scalar 2) 0
              true sitk.sitkLinear
              ([] ++ [MadeImage (casted example_fixed sitk.sitkFloat32);
                      MadeImage (casted example_moving sitk.sitkFloat32)]))
    as [[e|f] l1] eqn:Ef.
  { vm_compute in Ef. discriminate. }
  destruct (smooth_and_resample (casted example_moving sitk.sitkFloat32) (Scalar 2) 0
              true sitk.sitkLinear l1) as [[e|m] l2] eqn:Em.
  { vm_compute in Ef. inversion Ef; subst. vm_compute in Em. discriminate. }
  destruct (isotropic_registration_returns_to_the_fixed_grid lower_ascii
              (fun _ mesh => TranslationTransform (Z.of_nat (List.length mesh)))
              (fun r _ _ => CompositeTransform [BSpline.InitialTransformAsBSpline r])
              example_fixed example_moving None None [8; 4; 2] [4; 2; 1]%Q
              (BSpline.RateFloat (1 # 10)) "LBFGS" "mean_squares" 4 [1; 2; 4] 3
              (-1000 # 1) 20 (Scalar 2) 30 false 8 [] l1 l2 f m Ef Em)
    as (mesh & r & out & made & Hrun & Hmesh & _ & _ & Hg & _).
  exists f, m, mesh, r, out. eexists. split; [exact Hrun|].
  split; [vm_compute in Ef; inversion Ef; reflexivity|].
  split.
  { vm_compute in Ef. inversion Ef; subst. vm_compute in Em. inversion Em. reflexivity. }
  split; [exact Hmesh|]. split; [exact Hg|].
  unfold GetSize. rewrite Hg. reflexivity.
Defined.

(** ** transform_propagation and apply_field: grid and pixel type *)

(** X18.  Whenever [transform_propagation] returns, its image lies on the
    fixed image's grid and has the moving image's pixel type; whenever
    [apply_field] returns, its image lies on the input image's own grid and
    has the input's pixel type.  With [structure=False] both return for every
    interpolator. *)
Theorem appliers_keep_grid_and_pixel_type
  (fixed_image moving_image : Image) (transform : Transform) (structure : bool)
  (default_value : Q) (interp : Z) (log : list Event) :
  (structure = false \/ interp = sitk.sitkNearestNeighbor) ->
  exists propagated_image applied_image log1 log2,
    transform_propagation fixed_image moving_image transform structure default_value
                          interp log = (inr propagated_image, log1)
    /\ apply_field moving_image transform structure default_value interp log
       = (inr applied_image, log2)
    /\ GetGrid propagated_image = GetGrid fixed_image
    /\ GetPixelID propagated_image = GetPixelID moving_image
    /\ GetGrid applied_image = GetGrid moving_image
    /\ GetPixelID applied_image = GetPixelID moving_image.
Proof.
  intros H.
  assert (E : structure && negb (interp =? sitk.sitkNearestNeighbor) = false).
  { destruct H as [-> | ->]; [reflexivity|]. rewrite Z.eqb_refl. now destruct structure. }
  exists (casted (propagated fixed_image moving_image transform default_value interp)
                 (GetPixelID moving_image)).
  exists (casted (applied moving_image transform default_value interp)
                 (GetPixelID moving_image)).
  eexists. eexists. split; [|split; [|repeat split]].
  - unfold transform_propagation. rewrite E. reflexivity.
  - unfold apply_field. rewrite E. reflexivity.
Qed.

Lemma appliers_keep_grid_and_pixel_type_witness :
  exists propagated_image applied_image log1 log2,
    transform_propagation example_fixed example_structure (TranslationTransform 2)
                          true 0 sitk.sitkNearestNeighbor []
    = (inr propagated_image, log1)
    /\ apply_field example_structure (TranslationTransform 2) true 0
                   sitk.sitkNearestNeighbor [] = (inr applied_image, log2)
    /\ GetGrid propagated_image = GetGrid example_fixed
    /\ GetPixelID propagated_image = GetPixelID example_structure
    /\ GetGrid applied_image = GetGrid example_structure
    /\ GetPixelID applied_image = GetPixelID example_structure.
Proof.
  apply appliers_keep_grid_and_pixel_type. now right.
Defined.
